(** * arp.c: ARP responder / requester over a Linux TAP device

    A shallow embedding of [src/arp.c].  Packets are byte arrays laid out
    as the packed structs [ethhdr], [arp_hdr] and [arp_packet]; the two
    engines [wait_n_reply] and [req_n_wait] and [main] are interaction
    trees over the system calls and libc calls the program performs. *)

From Stdlib Require Import ZArith List Lia String Ascii Bool DecimalString.
From Stdlib Require Import Init.Byte.
From ITree Require Import ITree Eq.Shallow.
Import ListNotations.
Import ITreeNotations.
Local Open Scope itree_scope.
Local Open Scope string_scope.
Local Open Scope list_scope.
Local Open Scope Z_scope.

(** ** Bytes and 16-bit quantities *)

Definition u8_to_Z (b : byte) : Z := Z.of_N (Byte.to_N b).

Definition u8_of_Z (z : Z) : byte :=
  match Byte.of_N (Z.to_N (z mod 256)) with
  | Some b => b
  | None => x00
  end.

(** Byte order of the machine the program runs on. *)
Inductive byte_order : Set := little_endian | big_endian.

(** [__swab16]: ((x & 0x00ff) << 8) | ((x & 0xff00) >> 8). *)
Definition swab16 (x : Z) : Z :=
  Z.lor (Z.shiftl (Z.land x 255) 8) (Z.shiftr (Z.land x 65280) 8).

(** [__cpu_to_be16] and [__be16_to_cpu]: a swap on a little-endian host,
    the identity on 16 bits on a big-endian one. *)
Definition cpu_to_be16 (host : byte_order) (x : Z) : Z :=
  match host with
  | little_endian => swab16 x
  | big_endian => Z.land x 65535
  end.

Definition be16_to_cpu (host : byte_order) (x : Z) : Z :=
  match host with
  | little_endian => swab16 x
  | big_endian => Z.land x 65535
  end.

(** ** Memory: objects are byte lists, a pointer is the list from an offset on *)

Definition ptr (m : list byte) (off : nat) : list byte := skipn off m.

(** [memcpy(dst + off, src, n)]. *)
Definition memcpy (dst : list byte) (off : nat) (src : list byte) (n : nat) : list byte :=
  firstn off dst ++ firstn n src ++ skipn (off + n) dst.

(** [memset(dst + off, c, n)]. *)
Definition memset (dst : list byte) (off : nat) (c : byte) (n : nat) : list byte :=
  firstn off dst ++ repeat c n ++ skipn (off + n) dst.

(** Reading and writing a 16-bit field with the host's own byte order, as
    a plain C access to a [__be16] member does. *)
Definition load_u16 (host : byte_order) (m : list byte) (off : nat) : Z :=
  let b0 := u8_to_Z (nth off m x00) in
  let b1 := u8_to_Z (nth (S off) m x00) in
  match host with
  | little_endian => b0 + 256 * b1
  | big_endian => 256 * b0 + b1
  end.

Definition store_u16 (host : byte_order) (m : list byte) (off : nat) (v : Z) : list byte :=
  let lo := u8_of_Z v in
  let hi := u8_of_Z (Z.shiftr v 8) in
  memcpy m off (match host with
                | little_endian => [lo; hi]
                | big_endian => [hi; lo]
                end) 2.

Definition load_u8 (m : list byte) (off : nat) : Z := u8_to_Z (nth off m x00).

Definition store_u8 (m : list byte) (off : nat) (v : Z) : list byte :=
  memcpy m off [u8_of_Z v] 1.

(** ** Constants of the program and of the Linux headers it includes *)

Definition INET_ADDR_LEN : nat := 4.
Definition ETHER_ADDR_LEN : nat := 6.        (* net/ethernet.h *)

Definition LF : string := String (ascii_of_nat 10) EmptyString.

Definition DEVICE : string := "tap0".
Definition DEVICE_IP : string := "172.16.60.250".
Definition TARGET_IP : string := "172.16.60.157".
Definition MODE : Z := 0.

Definition ETH_P_ARP : Z := 0x0806.          (* linux/if_ether.h *)
Definition ETH_P_IP : Z := 0x0800.
Definition ETH_P_802_3 : Z := 0x0001.
Definition ARPHRD_ETHER : Z := 1.            (* linux/if_arp.h *)
Definition ARPOP_REQUEST : Z := 1.
Definition ARPOP_REPLY : Z := 2.
Definition IFF_TAP : Z := 0x0002.            (* linux/if_tun.h *)
Definition IFF_NO_PI : Z := 0x1000.
Definition TUNSETIFF : Z := 0x400454ca.
Definition SIOCGIFHWADDR : Z := 0x8927.      (* linux/sockios.h *)
Definition O_RDWR : Z := 2.                  (* fcntl.h *)

(** ** Layout of the packed structs *)

(** [struct ethhdr] (linux/if_ether.h, packed). *)
Definition off_h_dest : nat := 0.
Definition off_h_source : nat := 6.
Definition off_h_proto : nat := 12.
Definition sizeof_ethhdr : nat := 14.

(** [struct arp_hdr] placed after the Ethernet header in [struct arp_packet]. *)
Definition off_arphdr : nat := sizeof_ethhdr.
Definition off_arp_hd : nat := off_arphdr + 0.
Definition off_arp_pr : nat := off_arphdr + 2.
Definition off_arp_hdl : nat := off_arphdr + 4.
Definition off_arp_prl : nat := off_arphdr + 5.
Definition off_arp_op : nat := off_arphdr + 6.
Definition off_arp_sha : nat := off_arphdr + 8.
Definition off_arp_spa : nat := off_arphdr + 8 + ETHER_ADDR_LEN.
Definition off_arp_dha : nat := off_arphdr + 8 + ETHER_ADDR_LEN + INET_ADDR_LEN.
Definition off_arp_dpa : nat :=
  off_arphdr + 8 + ETHER_ADDR_LEN + INET_ADDR_LEN + ETHER_ADDR_LEN.
Definition sizeof_arp_hdr : nat :=
  8 + ETHER_ADDR_LEN + INET_ADDR_LEN + ETHER_ADDR_LEN + INET_ADDR_LEN.
Definition sizeof_arp_packet : nat := sizeof_ethhdr + sizeof_arp_hdr.

(** ** The structs as values: what the fields of a packet in memory hold,
    16-bit fields already converted with [__be16_to_cpu]. *)

Record ethhdr : Set := mk_ethhdr {
  h_dest : list byte;
  h_source : list byte;
  h_proto : Z
}.

Record arp_hdr : Set := mk_arp_hdr {
  arp_hd : Z;
  arp_pr : Z;
  arp_hdl : Z;
  arp_prl : Z;
  arp_op : Z;
  arp_sha : list byte;
  arp_spa : list byte;
  arp_dha : list byte;
  arp_dpa : list byte
}.

Record arp_packet : Set := mk_arp_packet {
  pkt_ethhdr : ethhdr;
  pkt_arphdr : arp_hdr
}.

(** The view of a buffer through [(struct arp_packet * )buf]. *)
Definition decode (host : byte_order) (buf : list byte) : arp_packet :=
  {| pkt_ethhdr :=
       {| h_dest := firstn ETHER_ADDR_LEN (ptr buf off_h_dest);
          h_source := firstn ETHER_ADDR_LEN (ptr buf off_h_source);
          h_proto := be16_to_cpu host (load_u16 host buf off_h_proto) |};
     pkt_arphdr :=
       {| arp_hd := be16_to_cpu host (load_u16 host buf off_arp_hd);
          arp_pr := be16_to_cpu host (load_u16 host buf off_arp_pr);
          arp_hdl := load_u8 buf off_arp_hdl;
          arp_prl := load_u8 buf off_arp_prl;
          arp_op := be16_to_cpu host (load_u16 host buf off_arp_op);
          arp_sha := firstn ETHER_ADDR_LEN (ptr buf off_arp_sha);
          arp_spa := firstn INET_ADDR_LEN (ptr buf off_arp_spa);
          arp_dha := firstn ETHER_ADDR_LEN (ptr buf off_arp_dha);
          arp_dpa := firstn INET_ADDR_LEN (ptr buf off_arp_dpa) |} |}.

(** Storing every member of a packet into an object [obj] of
    [sizeof_arp_packet] bytes, 16-bit members through [__cpu_to_be16]. *)
Definition encode (host : byte_order) (p : arp_packet) (obj : list byte) : list byte :=
  let e := pkt_ethhdr p in
  let a := pkt_arphdr p in
  let obj := store_u16 host obj off_h_proto (cpu_to_be16 host (h_proto e)) in
  let obj := memcpy obj off_h_source (h_source e) ETHER_ADDR_LEN in
  let obj := memcpy obj off_h_dest (h_dest e) ETHER_ADDR_LEN in
  let obj := store_u16 host obj off_arp_hd (cpu_to_be16 host (arp_hd a)) in
  let obj := store_u16 host obj off_arp_pr (cpu_to_be16 host (arp_pr a)) in
  let obj := store_u8 obj off_arp_hdl (arp_hdl a) in
  let obj := store_u8 obj off_arp_prl (arp_prl a) in
  let obj := store_u16 host obj off_arp_op (cpu_to_be16 host (arp_op a)) in
  let obj := memcpy obj off_arp_sha (arp_sha a) ETHER_ADDR_LEN in
  let obj := memcpy obj off_arp_spa (arp_spa a) INET_ADDR_LEN in
  let obj := memcpy obj off_arp_dha (arp_dha a) ETHER_ADDR_LEN in
  let obj := memcpy obj off_arp_dpa (arp_dpa a) INET_ADDR_LEN in
  obj.

(** A packet value whose members fit their C types. *)
Definition u16_range (v : Z) : Prop := 0 <= v < 65536.
Definition u8_range (v : Z) : Prop := 0 <= v < 256.

Record wf_packet (p : arp_packet) : Prop := mk_wf_packet {
  wf_h_dest : List.length (h_dest (pkt_ethhdr p)) = ETHER_ADDR_LEN;
  wf_h_source : List.length (h_source (pkt_ethhdr p)) = ETHER_ADDR_LEN;
  wf_h_proto : u16_range (h_proto (pkt_ethhdr p));
  wf_arp_hd : u16_range (arp_hd (pkt_arphdr p));
  wf_arp_pr : u16_range (arp_pr (pkt_arphdr p));
  wf_arp_hdl : u8_range (arp_hdl (pkt_arphdr p));
  wf_arp_prl : u8_range (arp_prl (pkt_arphdr p));
  wf_arp_op : u16_range (arp_op (pkt_arphdr p));
  wf_arp_sha : List.length (arp_sha (pkt_arphdr p)) = ETHER_ADDR_LEN;
  wf_arp_spa : List.length (arp_spa (pkt_arphdr p)) = INET_ADDR_LEN;
  wf_arp_dha : List.length (arp_dha (pkt_arphdr p)) = ETHER_ADDR_LEN;
  wf_arp_dpa : List.length (arp_dpa (pkt_arphdr p)) = INET_ADDR_LEN
}.

(** ** libc helpers used by the program *)

(** [inet_pton(AF_INET, src, dst)]: four decimal octets separated by
    dots, no octet above 255 and none with a leading zero; [None] is the
    return value 0, on which [dst] is left untouched. *)
Definition digit_of_ascii (c : ascii) : option Z :=
  let n := Z.of_nat (nat_of_ascii c) in
  if (48 <=? n) && (n <=? 57) then Some (n - 48) else None.

Fixpoint inet_pton4_from (s : string) (done : list Z) (cur : option Z) : option (list Z) :=
  match s with
  | EmptyString =>
      match cur with
      | Some v => if (List.length done =? 3)%nat then Some (done ++ [v]) else None
      | None => None
      end
  | String c s' =>
      match digit_of_ascii c with
      | Some d =>
          match cur with
          | None => inet_pton4_from s' done (Some d)
          | Some v =>
              if (v =? 0) || (255 <? v * 10 + d) then None
              else inet_pton4_from s' done (Some (v * 10 + d))
          end
      | None =>
          if (nat_of_ascii c =? 46)%nat then
            match cur with
            | Some v =>
                if (3 <=? List.length done)%nat then None
                else inet_pton4_from s' (done ++ [v]) None
            | None => None
            end
          else None
      end
  end.

Definition inet_pton (src : string) (obj : list byte) (off : nat) : list byte :=
  match inet_pton4_from src [] None with
  | Some octets => memcpy obj off (map u8_of_Z octets) INET_ADDR_LEN
  | None => obj
  end.

(** [inet_ntop(AF_INET, src, ip, sizeof(ip))]: dotted decimal. *)
Definition decimal (z : Z) : string := NilEmpty.string_of_uint (N.to_uint (Z.to_N z)).

Definition inet_ntop (src : list byte) : string :=
  (decimal (load_u8 src 0) ++ "." ++ decimal (load_u8 src 1) ++ "."
   ++ decimal (load_u8 src 2) ++ "." ++ decimal (load_u8 src 3))%string.

(** [static int num; ... num++]: a 32-bit two's complement counter
    (overflow of an [int] is undefined in C; it is taken to wrap). *)
Definition int_wrap (z : Z) : Z := (z + 2147483648) mod 4294967296 - 2147483648.

(** ** The calls the program makes to its environment *)

Variant printf_arg : Set :=
| arg_int (z : Z)
| arg_str (s : string).

Record ifreq : Set := mk_ifreq {
  ifr_name : string;
  ifr_flags : Z;
  ifr_hwaddr_sa_data : list byte
}.

(** [Uninit size] stands for the declaration of an automatic object of
    [size] bytes without initialiser: its contents are whatever the
    environment left there. *)
Variant sysE : Type -> Type :=
| Open (path : string) (flags : Z) : sysE Z
| Ioctl (fd : Z) (request : Z) (ifr : ifreq) : sysE (Z * ifreq)
| Read (fd : Z) (buf : list byte) (count : nat) : sysE (Z * list byte)
| Write (fd : Z) (data : list byte) : sysE Z
| Close (fd : Z) : sysE Z
| Printf (fmt : string) (args : list printf_arg) : sysE unit
| Perror (tag : string) : sysE unit
| Exit (status : Z) : sysE void
| Uninit (size : nat) : sysE (list byte).

(** [ASSERT(val, tag)]. *)
Definition ASSERT (val : bool) (tag : string) : itree sysE unit :=
  if val then
    ITree.trigger (Perror tag);;
    v <- ITree.trigger (Exit 1);;
    match v : void with end
  else Ret tt.

Definition byte_arg (m : list byte) (i : nat) : printf_arg := arg_int (load_u8 m i).

Definition print_mac (mac : list byte) : itree sysE unit :=
  ITree.trigger
    (Printf ("MAC Address: %02x:%02x:%02x:%02x:%02x:%02x" ++ LF)%string
            [byte_arg mac 0; byte_arg mac 1; byte_arg mac 2;
             byte_arg mac 3; byte_arg mac 4; byte_arg mac 5]).

Definition print_eth_hdr (host : byte_order) (packet : list byte) : itree sysE unit :=
  ITree.trigger
    (Printf ("Ethernet type: 0x%x" ++ LF)%string
            [arg_int (be16_to_cpu host (load_u16 host packet off_h_proto))]);;
  ITree.trigger (Printf "Destination " []);;
  print_mac (ptr packet off_h_dest);;
  ITree.trigger (Printf "Source " []);;
  print_mac (ptr packet off_h_source).

(** [packet] is the enclosing [arp_packet]; the [arp_hdr] members are
    addressed at their offsets in it. *)
Definition print_arp_hdr (host : byte_order) (packet : list byte) : itree sysE unit :=
  ITree.trigger
    (Printf ("Hardware address space: 0x%x" ++ LF)%string
            [arg_int (be16_to_cpu host (load_u16 host packet off_arp_hd))]);;
  ITree.trigger
    (Printf ("Protocol address space: 0x%x" ++ LF)%string
            [arg_int (be16_to_cpu host (load_u16 host packet off_arp_pr))]);;
  ITree.trigger
    (Printf ("Opcode 0x%x" ++ LF)%string
            [arg_int (be16_to_cpu host (load_u16 host packet off_arp_op))]);;
  let ip := inet_ntop (ptr packet off_arp_spa) in
  ITree.trigger (Printf "Src IP:%s" [arg_str ip]);;
  let ip := inet_ntop (ptr packet off_arp_dpa) in
  ITree.trigger (Printf (LF ++ "Dst IP:%s")%string [arg_str ip]);;
  ITree.trigger (Printf LF []).

Definition print_arp_packet (host : byte_order) (p : list byte) : itree sysE unit :=
  print_eth_hdr host p;;
  print_arp_hdr host p;;
  ITree.trigger (Printf LF []).

(** Lines 120-141 of [wait_n_reply]: the reply built in [rep_packet]
    from the request in [req_packet] and the local address [mac]. *)
Definition synth_reply (host : byte_order) (mac req_packet rep_packet : list byte)
  : list byte :=
  let rep_packet := memcpy rep_packet 0 req_packet sizeof_arp_packet in
  let sender_mac := ptr req_packet off_arp_sha in
  let sender_ip := ptr req_packet off_arp_spa in
  let recv_mac := mac in
  let recv_ip := ptr req_packet off_arp_dpa in
  let rep_packet := memcpy rep_packet off_h_source recv_mac ETHER_ADDR_LEN in
  let rep_packet := memcpy rep_packet off_h_dest sender_mac ETHER_ADDR_LEN in
  let rep_packet := store_u16 host rep_packet off_arp_op (cpu_to_be16 host ARPOP_REPLY) in
  let rep_packet := memcpy rep_packet off_arp_sha recv_mac ETHER_ADDR_LEN in
  let rep_packet := memcpy rep_packet off_arp_spa recv_ip INET_ADDR_LEN in
  let rep_packet := memcpy rep_packet off_arp_dha sender_mac ETHER_ADDR_LEN in
  let rep_packet := memcpy rep_packet off_arp_dpa sender_ip INET_ADDR_LEN in
  rep_packet.

(** The test [((struct ethhdr * )pckt_buf)->h_proto != __cpu_to_be16(ETH_P_ARP)]. *)
Definition not_arp (host : byte_order) (pckt_buf : list byte) : bool :=
  negb (load_u16 host pckt_buf off_h_proto =? cpu_to_be16 host ETH_P_ARP).

(** One turn of the [while (1)] of [wait_n_reply]; the loop state is the
    static counter [num].  [inl] is the next turn. *)
Definition wait_n_reply_turn (host : byte_order) (tapfd : Z) (mac : list byte) (num : Z)
  : itree sysE (Z + unit) :=
  pckt_buf <- ITree.trigger (Uninit 1500);;
  '(n, pckt_buf) <- ITree.trigger (Read tapfd pckt_buf 1500);;
  ASSERT (n <? 0) "read packet";;
  if not_arp host pckt_buf then Ret (inl num)
  else
    let req_packet := pckt_buf in
    rep_packet <- ITree.trigger (Uninit sizeof_arp_packet);;
    ITree.trigger (Printf ("Packet ARP Request #%d.1" ++ LF)%string [arg_int num]);;
    print_arp_packet host req_packet;;
    let rep_packet := synth_reply host mac req_packet rep_packet in
    ITree.trigger (Printf ("Packet ARP Reply #%d.2" ++ LF)%string [arg_int num]);;
    let num := int_wrap (num + 1) in
    print_arp_packet host rep_packet;;
    n <- ITree.trigger (Write tapfd (firstn sizeof_arp_packet rep_packet));;
    ASSERT (n <? 0) "write packet";;
    Ret (inl num).

Definition wait_n_reply (host : byte_order) (tapfd : Z) (mac : list byte)
  : itree sysE unit :=
  ITree.trigger
    (Printf ("Wait and reply mode!" ++ LF
             ++ "This mode sends back an ARP reply to any request!" ++ LF)%string []);;
  ITree.iter (wait_n_reply_turn host tapfd mac) 0.

(** Lines 155-175 of [req_n_wait]: the request stored member by member
    into the automatic object [req_packet]. *)
Definition build_request (host : byte_order) (mac req_packet : list byte) : list byte :=
  let req_packet := store_u16 host req_packet off_h_proto (cpu_to_be16 host ETH_P_ARP) in
  let req_packet := memcpy req_packet off_h_source mac ETHER_ADDR_LEN in
  let req_packet := memset req_packet off_h_dest xff ETHER_ADDR_LEN in
  let req_packet := store_u16 host req_packet off_arp_hd (cpu_to_be16 host ETH_P_802_3) in
  let req_packet := store_u16 host req_packet off_arp_pr (cpu_to_be16 host ETH_P_IP) in
  let req_packet := store_u8 req_packet off_arp_hdl (Z.of_nat ETHER_ADDR_LEN) in
  let req_packet := store_u8 req_packet off_arp_prl (Z.of_nat INET_ADDR_LEN) in
  let req_packet := store_u16 host req_packet off_arp_op (cpu_to_be16 host ARPOP_REQUEST) in
  let req_packet := memcpy req_packet off_arp_sha mac ETHER_ADDR_LEN in
  let req_packet := inet_pton DEVICE_IP req_packet off_arp_spa in
  let req_packet := memset req_packet off_arp_dha xff ETHER_ADDR_LEN in
  let req_packet := inet_pton TARGET_IP req_packet off_arp_dpa in
  req_packet.

(** One turn of the [while (1)] of [req_n_wait]; [inr] is the [break]. *)
Definition req_n_wait_turn (host : byte_order) (tapfd : Z) (_ : unit)
  : itree sysE (unit + unit) :=
  pckt_buf <- ITree.trigger (Uninit 1500);;
  '(n, pckt_buf) <- ITree.trigger (Read tapfd pckt_buf 1500);;
  ASSERT (n <? 0) "read packet";;
  if not_arp host pckt_buf then Ret (inl tt)
  else
    let rep_packet := pckt_buf in
    ITree.trigger (Printf ("Packet ARP Reply 0.2" ++ LF)%string []);;
    print_arp_packet host rep_packet;;
    Ret (inr tt).

Definition req_n_wait (host : byte_order) (tapfd : Z) (mac : list byte)
  : itree sysE unit :=
  ITree.trigger (Printf ("Request and wait mode!" ++ LF)%string []);;
  ITree.trigger
    (Printf ("This mode sends an ARP request to retrieve MAC of an arbitrary device!"
             ++ LF)%string []);;
  req_packet <- ITree.trigger (Uninit sizeof_arp_packet);;
  let req_packet := build_request host mac req_packet in
  ITree.trigger (Printf ("Packet ARP Request 0.1" ++ LF)%string []);;
  print_arp_packet host req_packet;;
  n <- ITree.trigger (Write tapfd (firstn sizeof_arp_packet req_packet));;
  ASSERT (n <? 0) "write packet";;
  ITree.iter (req_n_wait_turn host tapfd) tt.

(** [struct ifreq ifr] once [main] has filled in the name and the flags.
    The bytes of [ifr] that [main] does not write are not modelled: the
    answers of the kernel are given by the world as an arbitrary function
    ([w_ioctl]), so that whatever a kernel answers to the object it is
    handed is the answer of some world.  Statements that compare runs in
    worlds differing in what automatic objects held are for that reason
    made of the engines, not of [main]. *)
Definition main_ifr : ifreq :=
  {| ifr_name := DEVICE;
     ifr_flags := Z.lor IFF_NO_PI IFF_TAP;
     ifr_hwaddr_sa_data := [] |}.

(** [main], with the compile-time constant [MODE] as a parameter. *)
Definition main_mode (mode : Z) (host : byte_order) : itree sysE Z :=
  let ifr := main_ifr in
  tapfd <- ITree.trigger (Open "/dev/net/tun" O_RDWR);;
  ASSERT (tapfd <? 0) "tap open";;
  '(r, ifr) <- ITree.trigger (Ioctl tapfd TUNSETIFF ifr);;
  ASSERT (r <? 0) "tap ioctl";;
  '(r, ifr) <- ITree.trigger (Ioctl tapfd SIOCGIFHWADDR ifr);;
  ASSERT (r <? 0) "tap hwaddr";;
  print_mac (ifr_hwaddr_sa_data ifr);;
  (if negb (mode =? 0) then req_n_wait host tapfd (ifr_hwaddr_sa_data ifr)
   else wait_n_reply host tapfd (ifr_hwaddr_sa_data ifr));;
  ITree.trigger (Close tapfd);;
  Ret 0.

Definition main : byte_order -> itree sysE Z := main_mode MODE.

(** ** The environment: the kernel, the TAP device and the C runtime *)

(** What one [read] on the TAP device delivers. *)
Variant rx_item : Set :=
| rx_error
| rx_frame (data : list byte).

Record world : Type := mk_world {
  w_open : Z;                              (* result of [open] *)
  w_ioctl : Z -> ifreq -> Z * ifreq;       (* per request: result and the [ifreq] left behind *)
  w_rx : list rx_item;                     (* what the coming [read]s deliver; none left: [read] blocks *)
  w_tx : list Z;                           (* results of the coming [write]s; none left: all bytes written *)
  w_close : Z;                             (* result of [close] *)
  w_stack : list (list byte)               (* indeterminate contents of the coming automatic objects *)
}.

(** What an observer of the process sees. *)
Variant obs : Set :=
| o_open (path : string) (flags : Z) (ret : Z)
| o_ioctl (fd : Z) (request : Z) (ret : Z)
| o_read (fd : Z) (count : nat) (ret : Z)
| o_write (fd : Z) (data : list byte) (ret : Z)
| o_close (fd : Z)
| o_printf (fmt : string) (args : list printf_arg)
| o_perror (tag : string)
| o_exit (status : Z).

Variant status (R : Type) : Type :=
| returned (r : R)          (* the function returned [r] *)
| exited (code : Z)         (* the process called [exit] *)
| blocked                   (* the process waits in [read] for ever *)
| out_of_fuel.              (* not decided within the given number of steps *)
Arguments returned {R} r.
Arguments exited {R} code.
Arguments blocked {R}.
Arguments out_of_fuel {R}.

(** Why a call does not come back. *)
Variant halt : Set :=
| h_exit (code : Z)
| h_block.

Variant reaction (T : Type) : Type :=
| answer (x : T) (w : world)
| stop (h : halt).
Arguments answer {T} x w.
Arguments stop {T} h.

(** An object of exactly [n] bytes holding [bs], cut or zero-filled. *)
Definition fit (n : nat) (bs : list byte) : list byte :=
  firstn n bs ++ repeat x00 (n - List.length bs).

Definition set_rx (w : world) (q : list rx_item) : world :=
  {| w_open := w_open w; w_ioctl := w_ioctl w; w_rx := q; w_tx := w_tx w;
     w_close := w_close w; w_stack := w_stack w |}.

Definition set_tx (w : world) (q : list Z) : world :=
  {| w_open := w_open w; w_ioctl := w_ioctl w; w_rx := w_rx w; w_tx := q;
     w_close := w_close w; w_stack := w_stack w |}.

Definition set_stack (w : world) (q : list (list byte)) : world :=
  {| w_open := w_open w; w_ioctl := w_ioctl w; w_rx := w_rx w; w_tx := w_tx w;
     w_close := w_close w; w_stack := q |}.

Definition pop_rx (w : world) : world := set_rx w (tl (w_rx w)).
Definition pop_tx (w : world) : world := set_tx w (tl (w_tx w)).
Definition pop_stack (w : world) : world := set_stack w (tl (w_stack w)).

(** The buffer after [read] stored [data] at its start. *)
Definition read_into (buf : list byte) (count : nat) (data : list byte) : list byte :=
  let d := firstn count data in
  d ++ skipn (List.length d) buf.

(** The [ifreq] as the kernel leaves it: [sa_data] is an array of 14 bytes. *)
Definition kernel_ifreq (ifr : ifreq) : ifreq :=
  {| ifr_name := ifr_name ifr;
     ifr_flags := ifr_flags ifr;
     ifr_hwaddr_sa_data := fit 14 (ifr_hwaddr_sa_data ifr) |}.

Definition handle {T : Type} (e : sysE T) (w : world) : list obs * reaction T :=
  match e in sysE T return list obs * reaction T with
  | Open path flags =>
      ([o_open path flags (w_open w)], answer (w_open w) w)
  | Ioctl fd request ifr =>
      let r := fst (w_ioctl w request ifr) in
      let ifr' := kernel_ifreq (snd (w_ioctl w request ifr)) in
      ([o_ioctl fd request r], answer (r, ifr') w)
  | Read fd buf count =>
      match w_rx w with
      | [] => ([], stop h_block)
      | rx_error :: _ =>
          ([o_read fd count (-1)], answer (-1, buf) (pop_rx w))
      | rx_frame data :: _ =>
          let n := Z.of_nat (List.length (firstn count data)) in
          ([o_read fd count n], answer (n, read_into buf count data) (pop_rx w))
      end
  | Write fd data =>
      let n := hd (Z.of_nat (List.length data)) (w_tx w) in
      ([o_write fd data n], answer n (pop_tx w))
  | Close fd => ([o_close fd], answer (w_close w) w)
  | Printf fmt args => ([o_printf fmt args], answer tt w)
  | Perror tag => ([o_perror tag], answer tt w)
  | Exit code => ([o_exit code], stop (h_exit code))
  | Uninit size =>
      ([], answer (fit size (hd [] (w_stack w))) (pop_stack w))
  end.

Record outcome (R : Type) : Type := mk_outcome {
  out_trace : list obs;
  out_status : status R;
  out_world : world
}.
Arguments mk_outcome {R} _ _ _.
Arguments out_trace {R} _.
Arguments out_status {R} _.
Arguments out_world {R} _.

Definition status_of_halt {R : Type} (h : halt) : status R :=
  match h with
  | h_exit code => exited code
  | h_block => blocked
  end.

Definition after {R : Type} (tr : list obs) (o : outcome R) : outcome R :=
  mk_outcome (tr ++ out_trace o) (out_status o) (out_world o).

(** Running a program against a world, one node of the tree per unit of fuel. *)
Fixpoint run {R : Type} (fuel : nat) (t : itree sysE R) (w : world) : outcome R :=
  match fuel with
  | O => mk_outcome [] out_of_fuel w
  | S fuel =>
      match observe t with
      | RetF r => mk_outcome [] (returned r) w
      | TauF t' => run fuel t' w
      | VisF e k =>
          match handle e w with
          | (tr, answer x w') => after tr (run fuel (k x) w')
          | (tr, stop h) => mk_outcome tr (status_of_halt h) w
          end
      end
  end.

(** [t], started in [w], ends with trace [tr], status [st] and world [w']. *)
Definition runs_to {R : Type} (t : itree sysE R) (w : world)
           (tr : list obs) (st : status R) (w' : world) : Prop :=
  st <> out_of_fuel /\ exists fuel, run fuel t w = mk_outcome tr st w'.

(** A run that is decided stays the same with more fuel ([run_mono]), so
    [runs_to] is a partial function of [t] and [w] ([runs_to_det]). *)

(** The payloads handed to [write], in order. *)
Definition writes (tr : list obs) : list (list byte) :=
  flat_map (fun o => match o with o_write _ data _ => [data] | _ => [] end) tr.

(** The results of the [read]s, in order. *)
Definition reads (tr : list obs) : list Z :=
  flat_map (fun o => match o with o_read _ _ ret => [ret] | _ => [] end) tr.

(** ** What the printing functions put on the terminal *)

Definition mac_obs (mac : list byte) : obs :=
  o_printf ("MAC Address: %02x:%02x:%02x:%02x:%02x:%02x" ++ LF)%string
            [byte_arg mac 0; byte_arg mac 1; byte_arg mac 2;
             byte_arg mac 3; byte_arg mac 4; byte_arg mac 5].

Definition packet_obs (host : byte_order) (p : list byte) : list obs :=
  [ o_printf ("Ethernet type: 0x%x" ++ LF)%string
            [arg_int (be16_to_cpu host (load_u16 host p off_h_proto))];
    o_printf "Destination " [];
    mac_obs (ptr p off_h_dest);
    o_printf "Source " [];
    mac_obs (ptr p off_h_source);
    o_printf ("Hardware address space: 0x%x" ++ LF)%string
            [arg_int (be16_to_cpu host (load_u16 host p off_arp_hd))];
    o_printf ("Protocol address space: 0x%x" ++ LF)%string
            [arg_int (be16_to_cpu host (load_u16 host p off_arp_pr))];
    o_printf ("Opcode 0x%x" ++ LF)%string
            [arg_int (be16_to_cpu host (load_u16 host p off_arp_op))];
    o_printf "Src IP:%s" [arg_str (inet_ntop (ptr p off_arp_spa))];
    o_printf (LF ++ "Dst IP:%s")%string [arg_str (inet_ntop (ptr p off_arp_dpa))];
    o_printf LF [];
    o_printf LF [] ].

(** ** What one answering turn of the responder shows *)

(** The [read] of [n] bytes leaving [req] in [pckt_buf], the two packets
    printed under the counter [num], and the [write] of [payload]
    returning [r]. *)
Definition reply_obs (host : byte_order) (tapfd : Z) (num : Z) (n : Z)
           (req rep payload : list byte) (r : Z) : list obs :=
  [o_read tapfd 1500 n;
   o_printf ("Packet ARP Request #%d.1" ++ LF)%string [arg_int num]]
  ++ packet_obs host req
  ++ [o_printf ("Packet ARP Reply #%d.2" ++ LF)%string [arg_int num]]
  ++ packet_obs host rep
  ++ [o_write tapfd payload r].

(** ** The loops as transition systems over the receive queue

    What the [while (1)] of each engine does from a world on: the trace
    it leaves, how it ends, and the world it leaves behind.  These
    relations are not part of the embedding: they describe the runs of the
    interaction trees above, and are proved to do so
    ([wait_n_reply_loop_runs], [req_n_wait_loop_runs], [req_n_wait_runs],
    [main_run_runs], with the matching totality lemmas). *)

Section Behaviours.

Variable host : byte_order.
Variable tapfd : Z.

Inductive wait_n_reply_loop (mac : list byte)
  : Z -> world -> list obs -> halt -> world -> Prop :=
| wl_blocked num w :
    w_rx w = [] ->
    wait_n_reply_loop mac num w [] h_block (pop_stack w)
| wl_read_error num w q :
    w_rx w = rx_error :: q ->
    wait_n_reply_loop mac num w
      [o_read tapfd 1500 (-1); o_perror "read packet"; o_exit 1]
      (h_exit 1) (pop_rx (pop_stack w))
| wl_skip num w data q buf tr h w' :
    w_rx w = rx_frame data :: q ->
    read_into (fit 1500 (hd [] (w_stack w))) 1500 data = buf ->
    not_arp host buf = true ->
    wait_n_reply_loop mac num (pop_rx (pop_stack w)) tr h w' ->
    wait_n_reply_loop mac num w
      (o_read tapfd 1500 (Z.of_nat (List.length (firstn 1500 data))) :: tr) h w'
| wl_reply num w data q buf rep0 rep payload r tr h w' :
    w_rx w = rx_frame data :: q ->
    read_into (fit 1500 (hd [] (w_stack w))) 1500 data = buf ->
    fit sizeof_arp_packet (hd [] (tl (w_stack w))) = rep0 ->
    synth_reply host mac buf rep0 = rep ->
    firstn sizeof_arp_packet rep = payload ->
    hd (Z.of_nat (List.length payload)) (w_tx w) = r ->
    not_arp host buf = false ->
    (r <? 0) = false ->
    wait_n_reply_loop mac (int_wrap (num + 1))
      (pop_tx (pop_stack (pop_rx (pop_stack w)))) tr h w' ->
    wait_n_reply_loop mac num w
      (reply_obs host tapfd num (Z.of_nat (List.length (firstn 1500 data)))
                 buf rep payload r ++ tr) h w'
| wl_write_error num w data q buf rep0 rep payload r :
    w_rx w = rx_frame data :: q ->
    read_into (fit 1500 (hd [] (w_stack w))) 1500 data = buf ->
    fit sizeof_arp_packet (hd [] (tl (w_stack w))) = rep0 ->
    synth_reply host mac buf rep0 = rep ->
    firstn sizeof_arp_packet rep = payload ->
    hd (Z.of_nat (List.length payload)) (w_tx w) = r ->
    not_arp host buf = false ->
    (r <? 0) = true ->
    wait_n_reply_loop mac num w
      (reply_obs host tapfd num (Z.of_nat (List.length (firstn 1500 data)))
                 buf rep payload r ++ [o_perror "write packet"; o_exit 1])
      (h_exit 1) (pop_tx (pop_stack (pop_rx (pop_stack w)))).

Inductive req_n_wait_loop : world -> list obs -> status unit -> world -> Prop :=
| ql_blocked w :
    w_rx w = [] ->
    req_n_wait_loop w [] blocked (pop_stack w)
| ql_read_error w q :
    w_rx w = rx_error :: q ->
    req_n_wait_loop w
      [o_read tapfd 1500 (-1); o_perror "read packet"; o_exit 1]
      (exited 1) (pop_rx (pop_stack w))
| ql_skip w data q buf tr st w' :
    w_rx w = rx_frame data :: q ->
    read_into (fit 1500 (hd [] (w_stack w))) 1500 data = buf ->
    not_arp host buf = true ->
    req_n_wait_loop (pop_rx (pop_stack w)) tr st w' ->
    req_n_wait_loop w
      (o_read tapfd 1500 (Z.of_nat (List.length (firstn 1500 data))) :: tr) st w'
| ql_accept w data q buf :
    w_rx w = rx_frame data :: q ->
    read_into (fit 1500 (hd [] (w_stack w))) 1500 data = buf ->
    not_arp host buf = false ->
    req_n_wait_loop w
      (o_read tapfd 1500 (Z.of_nat (List.length (firstn 1500 data)))
       :: o_printf ("Packet ARP Reply 0.2" ++ LF)%string []
       :: packet_obs host buf)
      (returned tt) (pop_rx (pop_stack w)).

(** [req_n_wait] as a whole: the request is printed and written, then
    the loop runs unless the [write] failed. *)
Definition req_n_wait_obs (req payload : list byte) (r : Z) : list obs :=
  [o_printf ("Request and wait mode!" ++ LF)%string [];
   o_printf ("This mode sends an ARP request to retrieve MAC of an arbitrary device!"
             ++ LF)%string [];
   o_printf ("Packet ARP Request 0.1" ++ LF)%string []]
  ++ packet_obs host req
  ++ [o_write tapfd payload r].

Inductive req_n_wait_run (mac : list byte)
  : world -> list obs -> status unit -> world -> Prop :=
| qr_write_error w req0 req payload r :
    fit sizeof_arp_packet (hd [] (w_stack w)) = req0 ->
    build_request host mac req0 = req ->
    firstn sizeof_arp_packet req = payload ->
    hd (Z.of_nat (List.length payload)) (w_tx w) = r ->
    (r <? 0) = true ->
    req_n_wait_run mac w
      (req_n_wait_obs req payload r ++ [o_perror "write packet"; o_exit 1])
      (exited 1) (pop_tx (pop_stack w))
| qr_loop w req0 req payload r tr st w' :
    fit sizeof_arp_packet (hd [] (w_stack w)) = req0 ->
    build_request host mac req0 = req ->
    firstn sizeof_arp_packet req = payload ->
    hd (Z.of_nat (List.length payload)) (w_tx w) = r ->
    (r <? 0) = false ->
    req_n_wait_loop (pop_tx (pop_stack w)) tr st w' ->
    req_n_wait_run mac w (req_n_wait_obs req payload r ++ tr) st w'.

(** [wait_n_reply] as a whole: the banner, then the loop from counter 0. *)
Definition wait_n_reply_banner : obs :=
  o_printf ("Wait and reply mode!" ++ LF
            ++ "This mode sends back an ARP reply to any request!" ++ LF)%string [].

End Behaviours.

(** ** [main] as a transition system *)

(** What [main] shows while it attaches to the device with success. *)
Definition setup_obs (fd r1 r2 : Z) (mac : list byte) : list obs :=
  [o_open "/dev/net/tun" O_RDWR fd;
   o_ioctl fd TUNSETIFF r1;
   o_ioctl fd SIOCGIFHWADDR r2;
   mac_obs mac].

Inductive main_run (mode : Z) (host : byte_order)
  : world -> list obs -> status Z -> world -> Prop :=
| mr_open_error w fd :
    w_open w = fd -> (fd <? 0) = true ->
    main_run mode host w
      [o_open "/dev/net/tun" O_RDWR fd; o_perror "tap open"; o_exit 1]
      (exited 1) w
| mr_setiff_error w fd r1 :
    w_open w = fd -> (fd <? 0) = false ->
    fst (w_ioctl w TUNSETIFF main_ifr) = r1 -> (r1 <? 0) = true ->
    main_run mode host w
      [o_open "/dev/net/tun" O_RDWR fd; o_ioctl fd TUNSETIFF r1;
       o_perror "tap ioctl"; o_exit 1]
      (exited 1) w
| mr_hwaddr_error w fd r1 ifr1 r2 :
    w_open w = fd -> (fd <? 0) = false ->
    fst (w_ioctl w TUNSETIFF main_ifr) = r1 -> (r1 <? 0) = false ->
    kernel_ifreq (snd (w_ioctl w TUNSETIFF main_ifr)) = ifr1 ->
    fst (w_ioctl w SIOCGIFHWADDR ifr1) = r2 -> (r2 <? 0) = true ->
    main_run mode host w
      [o_open "/dev/net/tun" O_RDWR fd; o_ioctl fd TUNSETIFF r1;
       o_ioctl fd SIOCGIFHWADDR r2; o_perror "tap hwaddr"; o_exit 1]
      (exited 1) w
| mr_responder w fd r1 ifr1 r2 mac tr h w' :
    w_open w = fd -> (fd <? 0) = false ->
    fst (w_ioctl w TUNSETIFF main_ifr) = r1 -> (r1 <? 0) = false ->
    kernel_ifreq (snd (w_ioctl w TUNSETIFF main_ifr)) = ifr1 ->
    fst (w_ioctl w SIOCGIFHWADDR ifr1) = r2 -> (r2 <? 0) = false ->
    ifr_hwaddr_sa_data (kernel_ifreq (snd (w_ioctl w SIOCGIFHWADDR ifr1))) = mac ->
    (mode =? 0) = true ->
    wait_n_reply_loop host fd mac 0 w tr h w' ->
    main_run mode host w
      (setup_obs fd r1 r2 mac ++ wait_n_reply_banner :: tr) (status_of_halt h) w'
| mr_requester_halt w fd r1 ifr1 r2 mac tr h w' :
    w_open w = fd -> (fd <? 0) = false ->
    fst (w_ioctl w TUNSETIFF main_ifr) = r1 -> (r1 <? 0) = false ->
    kernel_ifreq (snd (w_ioctl w TUNSETIFF main_ifr)) = ifr1 ->
    fst (w_ioctl w SIOCGIFHWADDR ifr1) = r2 -> (r2 <? 0) = false ->
    ifr_hwaddr_sa_data (kernel_ifreq (snd (w_ioctl w SIOCGIFHWADDR ifr1))) = mac ->
    (mode =? 0) = false ->
    req_n_wait_run host fd mac w tr (status_of_halt h) w' ->
    main_run mode host w (setup_obs fd r1 r2 mac ++ tr) (status_of_halt h) w'
| mr_requester_done w fd r1 ifr1 r2 mac tr w' :
    w_open w = fd -> (fd <? 0) = false ->
    fst (w_ioctl w TUNSETIFF main_ifr) = r1 -> (r1 <? 0) = false ->
    kernel_ifreq (snd (w_ioctl w TUNSETIFF main_ifr)) = ifr1 ->
    fst (w_ioctl w SIOCGIFHWADDR ifr1) = r2 -> (r2 <? 0) = false ->
    ifr_hwaddr_sa_data (kernel_ifreq (snd (w_ioctl w SIOCGIFHWADDR ifr1))) = mac ->
    (mode =? 0) = false ->
    req_n_wait_run host fd mac w tr (returned tt) w' ->
    main_run mode host w (setup_obs fd r1 r2 mac ++ tr ++ [o_close fd]) (returned 0) w'.

(** ** Failing calls and the names they are reported under *)

Definition failed (o : obs) : bool :=
  match o with
  | o_open _ _ ret => ret <? 0
  | o_ioctl _ _ ret => ret <? 0
  | o_read _ _ ret => ret <? 0
  | o_write _ _ ret => ret <? 0
  | _ => false
  end.

Definition op_name (o : obs) : string :=
  match o with
  | o_open _ _ _ => "tap open"
  | o_ioctl _ request _ => if request =? TUNSETIFF then "tap ioctl" else "tap hwaddr"
  | o_read _ _ _ => "read packet"
  | o_write _ _ _ => "write packet"
  | _ => ""
  end.

(** The exit status a run ends with, if it ends in [exit]. *)
Definition exit_code {R : Type} (st : status R) : option Z :=
  match st with
  | exited code => Some code
  | _ => None
  end.

Definition halt_code (h : halt) : option Z :=
  match h with
  | h_exit code => Some code
  | h_block => None
  end.

(** Every failing call in [tr] is followed by its report and [exit(1)],
    and by nothing else. *)
Definition fails_fatally (tr : list obs) (code : option Z) : Prop :=
  forall pre o post,
    tr = pre ++ o :: post -> failed o = true ->
    post = [o_perror (op_name o); o_exit 1] /\ code = Some 1.

(** The Ethernet protocol field a frame carries. *)
Definition ethertype (host : byte_order) (frame : list byte) : Z :=
  h_proto (pkt_ethhdr (decode host frame)).

(** ** Sample data: the scenario of the topology diagram *)

Definition sample_mac : list byte := [xaa; xbb; xcc; xdd; xee; xff].

(** Who has 172.16.60.250?  Tell 172.16.60.157 (11:22:33:44:55:66). *)
Definition sample_request : list byte :=
  [xff; xff; xff; xff; xff; xff;  x11; x22; x33; x44; x55; x66;  x08; x06;
   x00; x01;  x08; x00;  x06;  x04;  x00; x01;
   x11; x22; x33; x44; x55; x66;  xac; x10; x3c; x9d;
   x00; x00; x00; x00; x00; x00;  xac; x10; x3c; xfa].

Definition sample_packet : arp_packet :=
  {| pkt_ethhdr :=
       {| h_dest := [xff; xff; xff; xff; xff; xff];
          h_source := [x11; x22; x33; x44; x55; x66];
          h_proto := ETH_P_ARP |};
     pkt_arphdr :=
       {| arp_hd := ARPHRD_ETHER;
          arp_pr := ETH_P_IP;
          arp_hdl := 6;
          arp_prl := 4;
          arp_op := ARPOP_REQUEST;
          arp_sha := [x11; x22; x33; x44; x55; x66];
          arp_spa := [xac; x10; x3c; x9d];
          arp_dha := [x00; x00; x00; x00; x00; x00];
          arp_dpa := [xac; x10; x3c; xfa] |} |}.

(** 172.16.60.250 is at aa:bb:cc:dd:ee:ff. *)
Definition sample_reply : list byte :=
  [x11; x22; x33; x44; x55; x66;  xaa; xbb; xcc; xdd; xee; xff;  x08; x06;
   x00; x01;  x08; x00;  x06;  x04;  x00; x02;
   xaa; xbb; xcc; xdd; xee; xff;  xac; x10; x3c; xfa;
   x11; x22; x33; x44; x55; x66;  xac; x10; x3c; x9d].

(** An IPv4 frame header, and the first 14 bytes of an ARP frame. *)
Definition sample_ipv4 : list byte :=
  [xaa; xbb; xcc; xdd; xee; xff;  x11; x22; x33; x44; x55; x66;  x08; x00;
   x45; x00; x00; x14].

Definition sample_short : list byte :=
  [xff; xff; xff; xff; xff; xff;  x11; x22; x33; x44; x55; x66;  x08; x06].

(** An ARP frame whose opcode is "reply", not "request". *)
Definition sample_gratuitous : list byte :=
  [xff; xff; xff; xff; xff; xff;  x11; x22; x33; x44; x55; x66;  x08; x06;
   x00; x01;  x08; x00;  x06;  x04;  x00; x02;
   x11; x22; x33; x44; x55; x66;  xac; x10; x3c; x9d;
   xff; xff; xff; xff; xff; xff;  xac; x10; x3c; x9d].

(** What the responder writes when [sample_short] arrives in a zeroed buffer. *)
Definition sample_short_reply : list byte :=
  [x00; x00; x00; x00; x00; x00;  xaa; xbb; xcc; xdd; xee; xff;  x08; x06;
   x00; x00;  x00; x00;  x00;  x00;  x00; x02;
   xaa; xbb; xcc; xdd; xee; xff;  x00; x00; x00; x00;
   x00; x00; x00; x00; x00; x00;  x00; x00; x00; x00].

(** A world in which every call succeeds and the device delivers [rx]. *)
Definition sample_world (rx : list rx_item) : world :=
  {| w_open := 3;
     w_ioctl := fun _ ifr =>
                  (0, {| ifr_name := ifr_name ifr;
                         ifr_flags := ifr_flags ifr;
                         ifr_hwaddr_sa_data := sample_mac |});
     w_rx := rx;
     w_tx := [];
     w_close := 0;
     w_stack := [] |}.

(** A world in which the first [read] fails. *)
Definition sample_read_failure : world :=
  sample_world [rx_error; rx_frame sample_request].

(** ** Proof automation *)

(** Name the bytes of a list whose length is known. *)
Ltac explode l H :=
  lazymatch type of H with
  | List.length l = O => destruct l; [clear H|discriminate H]
  | List.length l = S _ =>
      let b := fresh "b" in
      destruct l as [|b l]; [discriminate H|];
      cbn [List.length] in H; apply eq_add_S in H; explode l H
  end.

(** Name the first bytes of a list whose length has a known lower bound. *)
Ltac explode_le l H :=
  lazymatch type of H with
  | (O <= _)%nat => clear H
  | (S _ <= List.length l)%nat =>
      let b := fresh "b" in
      destruct l as [|b l]; [cbn [List.length] in H; lia|];
      cbn [List.length] in H; apply le_S_n in H; explode_le l H
  end.

Ltac run_layout :=
  cbv [memcpy memset ptr firstn skipn app nth repeat load_u8 store_u8
       off_h_dest off_h_source off_h_proto sizeof_ethhdr off_arphdr
       off_arp_hd off_arp_pr off_arp_hdl off_arp_prl off_arp_op
       off_arp_sha off_arp_spa off_arp_dha off_arp_dpa
       sizeof_arp_hdr sizeof_arp_packet ETHER_ADDR_LEN INET_ADDR_LEN Nat.add].

(** Unfold the world after the calls made so far. *)
Ltac norm_world :=
  cbn [pop_stack pop_rx pop_tx set_stack set_rx set_tx
       w_stack w_rx w_tx w_open w_ioctl w_close].


(** ** The two frames as byte strings *)

(** The reply to the packet lying in [req], sent from the hardware
    address [LH]: lines 120-141 of [wait_n_reply] member by member. *)
Definition reply_bytes (LH req : list byte) : list byte :=
  firstn ETHER_ADDR_LEN (ptr req off_arp_sha)          (* h_dest *)
  ++ LH                                                (* h_source *)
  ++ firstn 8 (ptr req off_h_proto)                    (* h_proto .. arp_prl *)
  ++ [x00; x02]                                        (* arp_op *)
  ++ LH                                                (* arp_sha *)
  ++ firstn INET_ADDR_LEN (ptr req off_arp_dpa)        (* arp_spa *)
  ++ firstn ETHER_ADDR_LEN (ptr req off_arp_sha)       (* arp_dha *)
  ++ firstn INET_ADDR_LEN (ptr req off_arp_spa).       (* arp_dpa *)

(** The request of [req_n_wait] sent from the hardware address [LH]:
    lines 155-175 member by member. *)
Definition request_bytes (LH : list byte) : list byte :=
  [xff; xff; xff; xff; xff; xff]                       (* h_dest *)
  ++ LH                                                (* h_source *)
  ++ [x08; x06]                                        (* h_proto *)
  ++ [x00; x01; x08; x00; x06; x04; x00; x01]          (* arp_hd .. arp_op *)
  ++ LH                                                (* arp_sha *)
  ++ [xac; x10; x3c; xfa]                              (* arp_spa *)
  ++ [xff; xff; xff; xff; xff; xff]                    (* arp_dha *)
  ++ [xac; x10; x3c; x9d].                             (* arp_dpa *)

(** ** Reading traces *)

(** The numbers printed by [printf(fmt, num)] for the format [fmt]. *)
Definition labels (fmt : string) (tr : list obs) : list Z :=
  flat_map (fun o => match o with
                     | o_printf f [arg_int n] => if String.eqb f fmt then [n] else []
                     | _ => []
                     end) tr.

Definition request_fmt : string := ("Packet ARP Request #%d.1" ++ LF)%string.
Definition reply_fmt : string := ("Packet ARP Reply #%d.2" ++ LF)%string.

(** The numbers 0, 1, ..., n - 1. *)
Definition count_from (start : Z) (n : nat) : list Z :=
  map (fun i => start + Z.of_nat i) (seq 0 n).

(** The descriptor a call is made on. *)
Definition fd_of (o : obs) : option Z :=
  match o with
  | o_ioctl fd _ _ => Some fd
  | o_read fd _ _ => Some fd
  | o_write fd _ _ => Some fd
  | o_close fd => Some fd
  | _ => None
  end.

Definition on_fd (fd : Z) (o : obs) : Prop :=
  match fd_of o with
  | Some fd' => fd' = fd
  | None => True
  end.

Definition is_close (o : obs) : bool :=
  match o with
  | o_close _ => true
  | _ => false
  end.

(** What [read] returns for a frame. *)
Definition read_size (frame : list byte) : Z :=
  Z.of_nat (List.length (firstn 1500 frame)).

(** Every frame in the queue has the size of an [arp_packet] at least. *)
Definition long_frames (rx : list rx_item) : Prop :=
  Forall (fun item => match item with
                      | rx_frame data => (sizeof_arp_packet <= List.length data)%nat
                      | rx_error => True
                      end) rx.

(** Two worlds that differ at most in what automatic objects hold. *)
Definition same_but_stack (w1 w2 : world) : Prop :=
  w_open w1 = w_open w2 /\ w_ioctl w1 = w_ioctl w2 /\ w_rx w1 = w_rx w2 /\
  w_tx w1 = w_tx w2 /\ w_close w1 = w_close w2.

(** What [print_arp_packet] shows of a packet, from its members. *)
Definition mac_view (mac : list byte) : obs :=
  o_printf ("MAC Address: %02x:%02x:%02x:%02x:%02x:%02x" ++ LF)%string
           (map (fun b => arg_int (u8_to_Z b)) mac).

Definition packet_view (p : arp_packet) : list obs :=
  [ o_printf ("Ethernet type: 0x%x" ++ LF)%string [arg_int (h_proto (pkt_ethhdr p))];
    o_printf "Destination " [];
    mac_view (h_dest (pkt_ethhdr p));
    o_printf "Source " [];
    mac_view (h_source (pkt_ethhdr p));
    o_printf ("Hardware address space: 0x%x" ++ LF)%string
             [arg_int (arp_hd (pkt_arphdr p))];
    o_printf ("Protocol address space: 0x%x" ++ LF)%string
             [arg_int (arp_pr (pkt_arphdr p))];
    o_printf ("Opcode 0x%x" ++ LF)%string [arg_int (arp_op (pkt_arphdr p))];
    o_printf "Src IP:%s" [arg_str (inet_ntop (arp_spa (pkt_arphdr p)))];
    o_printf (LF ++ "Dst IP:%s")%string [arg_str (inet_ntop (arp_dpa (pkt_arphdr p)))];
    o_printf LF [];
    o_printf LF [] ].

(** The hardware address the kernel reports for the interface: what
    [main] passes to the engines as [mac], as far as they read it. *)
Definition device_hwaddr (w : world) : list byte :=
  firstn ETHER_ADDR_LEN
    (ifr_hwaddr_sa_data
       (kernel_ifreq
          (snd (w_ioctl w SIOCGIFHWADDR
                        (kernel_ifreq (snd (w_ioctl w TUNSETIFF main_ifr))))))).

(** An ARP frame of the size of an [arp_packet] sent in the name of [LH]. *)
Definition own_arp_frame (host : byte_order) (LH frame : list byte) : Prop :=
  List.length frame = sizeof_arp_packet /\
  ethertype host frame = ETH_P_ARP /\
  h_source (pkt_ethhdr (decode host frame)) = LH /\
  arp_sha (pkt_arphdr (decode host frame)) = LH.

(** The results of the [read]s that delivered a frame. *)
Definition delivered (tr : list obs) : list Z :=
  filter (fun n => 0 <=? n) (reads tr).

(** At no point of [tr] have more frames been written than delivered. *)
Definition solicited (tr : list obs) : Prop :=
  forall pre post,
    tr = pre ++ post ->
    (List.length (writes pre) <= List.length (delivered pre))%nat.
(** * Properties *)

(** ** Running interaction trees *)

Section Running.

Context {R : Type}.

Lemma run_S (fuel : nat) (t : itree sysE R) (w : world) :
  run (S fuel) t w =
  match observe t with
  | RetF r => mk_outcome [] (returned r) w
  | TauF t' => run fuel t' w
  | VisF e k =>
      match handle e w with
      | (tr, answer x w') => after tr (run fuel (k x) w')
      | (tr, stop h) => mk_outcome tr (status_of_halt h) w
      end
  end.
Proof. reflexivity. Qed.

Lemma run_observe (fuel : nat) (t t' : itree sysE R) (w : world) :
  observe t = observe t' -> run fuel t w = run fuel t' w.
Proof.
  intros E. destruct fuel as [|fuel]; [reflexivity|].
  rewrite !run_S, E. reflexivity.
Qed.

(** More fuel does not change a decided run. *)
Lemma run_mono (fuel : nat) :
  forall (t : itree sysE R) (w : world),
    out_status (run fuel t w) <> out_of_fuel ->
    forall fuel', (fuel <= fuel')%nat -> run fuel' t w = run fuel t w.
Proof.
  induction fuel as [|fuel IH]; intros t w H fuel' Hle.
  - simpl in H. congruence.
  - destruct fuel' as [|fuel']; [lia|].
    rewrite !run_S. rewrite run_S in H.
    destruct (observe t) as [r|t'|X e k].
    + reflexivity.
    + apply IH; [assumption|lia].
    + destruct (handle e w) as [tr [x w'|h]]; [|reflexivity].
      unfold after in *. simpl in H.
      rewrite (IH (k x) w' H fuel') by lia. reflexivity.
Qed.

Lemma runs_to_det (t : itree sysE R) (w : world) tr1 st1 w1 tr2 st2 w2 :
  runs_to t w tr1 st1 w1 -> runs_to t w tr2 st2 w2 ->
  tr1 = tr2 /\ st1 = st2 /\ w1 = w2.
Proof.
  intros [N1 [f1 E1]] [N2 [f2 E2]].
  assert (E : run (f1 + f2) t w = run f1 t w).
  { apply run_mono; [rewrite E1; assumption|lia]. }
  assert (E' : run (f1 + f2) t w = run f2 t w).
  { apply run_mono; [rewrite E2; assumption|lia]. }
  rewrite E1 in E. rewrite E2 in E'. rewrite E in E'.
  inversion E'. auto.
Qed.

Lemma runs_ret (r : R) (w : world) : runs_to (Ret r) w [] (returned r) w.
Proof. split; [discriminate|]. exists 1%nat. reflexivity. Qed.

Lemma runs_trigger (e : sysE R) (w : world) tr x w' :
  handle e w = (tr, answer x w') ->
  runs_to (ITree.trigger e) w tr (returned x) w'.
Proof.
  intros H. split; [discriminate|]. exists 2%nat.
  rewrite run_S. cbn. rewrite H. unfold after. cbn.
  rewrite app_nil_r. reflexivity.
Qed.

End Running.

Section Sequencing.

Context {R S : Type}.

Lemma observe_bind_cases (t : itree sysE R) (k : R -> itree sysE S) :
  observe (ITree.bind t k) =
  match observe t with
  | RetF r => observe (k r)
  | TauF t0 => TauF (ITree.bind t0 k)
  | VisF e ke => VisF e (fun x => ITree.bind (ke x) k)
  end.
Proof. rewrite observe_bind. destruct (observe t); reflexivity. Qed.

Lemma run_bind_returned (f1 : nat) :
  forall (t : itree sysE R) (k : R -> itree sysE S) w tr1 r w1 f2,
    run f1 t w = mk_outcome tr1 (returned r) w1 ->
    out_status (run f2 (k r) w1) <> out_of_fuel ->
    run (f1 + f2) (ITree.bind t k) w = after tr1 (run f2 (k r) w1).
Proof.
  induction f1 as [|f1 IH]; intros t k w tr1 r w1 f2 H N.
  - discriminate H.
  - rewrite run_S in H. cbn [Nat.add]. rewrite run_S, observe_bind_cases.
    destruct (observe t) as [r0|t'|X e ke].
    + inversion H; subst. rewrite <- run_S.
      rewrite (run_mono f2) by (assumption || lia).
      unfold after. cbn. destruct (run f2 (k r) w1); reflexivity.
    + apply IH; assumption.
    + destruct (handle e w) as [tr [x w'|h]].
      * destruct (run f1 (ke x) w') as [tr' st' w''] eqn:E.
        unfold after in H. cbn in H. inversion H; subst.
        rewrite (IH _ k _ _ _ _ f2 E N).
        unfold after. cbn. rewrite app_assoc. reflexivity.
      * destruct h; discriminate H.
Qed.

Lemma run_bind_halted (f1 : nat) :
  forall (t : itree sysE R) (k : R -> itree sysE S) w tr h w1,
    run f1 t w = mk_outcome tr (status_of_halt h) w1 ->
    run f1 (ITree.bind t k) w = mk_outcome tr (status_of_halt h) w1.
Proof.
  induction f1 as [|f1 IH]; intros t k w tr h w1 H.
  - destruct h; discriminate H.
  - rewrite run_S in H. rewrite run_S, observe_bind_cases.
    destruct (observe t) as [r0|t'|X e ke].
    + destruct h; discriminate H.
    + apply IH; assumption.
    + destruct (handle e w) as [tr0 [x w'|h0]].
      * destruct (run f1 (ke x) w') as [tr' st' w''] eqn:E.
        unfold after in H. cbn in H. inversion H; subst.
        rewrite (IH _ k _ _ _ _ E). reflexivity.
      * inversion H as [[Etr Est Ew]].
        destruct h0, h; cbn in Est; inversion Est; reflexivity.
Qed.

Lemma runs_bind (t : itree sysE R) (k : R -> itree sysE S) w tr1 r w1 tr2 st w2 :
  runs_to t w tr1 (returned r) w1 ->
  runs_to (k r) w1 tr2 st w2 ->
  runs_to (ITree.bind t k) w (tr1 ++ tr2) st w2.
Proof.
  intros [_ [f1 E1]] [N [f2 E2]]. split; [assumption|].
  exists (f1 + f2)%nat.
  rewrite (run_bind_returned f1 t k w tr1 r w1 f2 E1) by (rewrite E2; assumption).
  rewrite E2. reflexivity.
Qed.

Lemma runs_bind_halt (t : itree sysE R) (k : R -> itree sysE S) w tr h w1 :
  runs_to t w tr (status_of_halt h) w1 ->
  runs_to (ITree.bind t k) w tr (status_of_halt h) w1.
Proof.
  intros [_ [f1 E1]]. split; [destruct h; discriminate|].
  exists f1. apply run_bind_halted. assumption.
Qed.

End Sequencing.

Section Looping.

Context {I R : Type}.

(** A turn that asks for another one. *)
Lemma runs_iter_again (body : I -> itree sysE (I + R)) i w tr1 i' w1 tr2 st w2 :
  runs_to (body i) w tr1 (returned (inl i')) w1 ->
  runs_to (ITree.iter body i') w1 tr2 st w2 ->
  runs_to (ITree.iter body i) w (tr1 ++ tr2) st w2.
Proof.
  intros H1 [N [f2 E2]]. 
  assert (H : runs_to
                (ITree.bind (body i)
                   (fun lr => match lr with
                              | inl l => Tau (ITree.iter body l)
                              | inr r => Ret r
                              end)) w (tr1 ++ tr2) st w2).
  { eapply runs_bind; [exact H1|]. split; [assumption|].
    exists (S f2). rewrite run_S. cbn. assumption. }
  destruct H as [_ [f E]]. split; [assumption|]. exists f.
  rewrite <- E. apply run_observe. reflexivity.
Qed.

(** A turn that leaves the loop. *)
Lemma runs_iter_done (body : I -> itree sysE (I + R)) i w tr r w1 :
  runs_to (body i) w tr (returned (inr r)) w1 ->
  runs_to (ITree.iter body i) w tr (returned r) w1.
Proof.
  intros H1.
  assert (H : runs_to
                (ITree.bind (body i)
                   (fun lr => match lr with
                              | inl l => Tau (ITree.iter body l)
                              | inr r => Ret r
                              end)) w (tr ++ []) (returned r) w1).
  { eapply runs_bind; [exact H1|]. apply runs_ret. }
  rewrite app_nil_r in H.
  destruct H as [N [f E]]. split; [assumption|]. exists f.
  rewrite <- E. apply run_observe. reflexivity.
Qed.

(** A turn in which the process halts. *)
Lemma runs_iter_halt (body : I -> itree sysE (I + R)) i w tr h w1 :
  runs_to (body i) w tr (status_of_halt h) w1 ->
  runs_to (ITree.iter body i) w tr (status_of_halt h) w1.
Proof.
  intros H1.
  pose proof (runs_bind_halt (body i)
                (fun lr => match lr with
                           | inl l => Tau (ITree.iter body l)
                           | inr r => Ret r
                           end) w tr h w1 H1) as [N [f E]].
  split; [assumption|]. exists f.
  rewrite <- E. apply run_observe. reflexivity.
Qed.

End Looping.

(** *** Single calls and the printing functions *)

Lemma runs_to_eq {R} (t : itree sysE R) w tr st w' tr2 st2 w2 :
  runs_to t w tr st w' -> tr = tr2 -> st = st2 -> w' = w2 -> runs_to t w tr2 st2 w2.
Proof. intros; subst; assumption. Qed.

Lemma runs_trigger_halt {R} (e : sysE R) (w : world) tr h :
  handle e w = (tr, stop h) ->
  runs_to (ITree.trigger e) w tr (status_of_halt h) w.
Proof.
  intros H. split; [destruct h; discriminate|]. exists 2%nat.
  rewrite run_S. cbn. rewrite H. reflexivity.
Qed.

Lemma runs_ASSERT_pass (tag : string) (w : world) :
  runs_to (ASSERT false tag) w [] (returned tt) w.
Proof. apply runs_ret. Qed.

Lemma runs_ASSERT_fail (tag : string) (w : world) :
  runs_to (ASSERT true tag) w [o_perror tag; o_exit 1] (exited 1) w.
Proof. split; [discriminate|]. exists 5%nat. reflexivity. Qed.

Lemma runs_print_arp_packet host p w :
  runs_to (print_arp_packet host p) w (packet_obs host p) (returned tt) w.
Proof. split; [discriminate|]. exists 40%nat. reflexivity. Qed.

(** ** Bytes and byte order *)

Lemma u8_to_Z_range (b : byte) : 0 <= u8_to_Z b < 256.
Proof. unfold u8_to_Z. pose proof (Byte.to_N_bounded b). lia. Qed.

Lemma u8_of_to (b : byte) : u8_of_Z (u8_to_Z b) = b.
Proof.
  unfold u8_of_Z. rewrite Z.mod_small by apply u8_to_Z_range.
  unfold u8_to_Z. rewrite N2Z.id, Byte.of_to_N. reflexivity.
Qed.

Lemma u8_to_of (z : Z) : u8_to_Z (u8_of_Z z) = z mod 256.
Proof.
  pose proof (Z.mod_pos_bound z 256 ltac:(lia)) as B.
  unfold u8_of_Z, u8_to_Z.
  destruct (Byte.of_N (Z.to_N (z mod 256))) eqn:E.
  - apply Byte.to_of_N in E. rewrite E. apply Z2N.id. lia.
  - apply Byte.of_N_None_iff in E. lia.
Qed.

Lemma u8_of_Z_mod (z : Z) : u8_of_Z (z mod 256) = u8_of_Z z.
Proof. unfold u8_of_Z. rewrite Z.mod_mod by lia. reflexivity. Qed.

Lemma u8_of_Z_congr (a b : Z) : a mod 256 = b mod 256 -> u8_of_Z a = u8_of_Z b.
Proof. intros E. unfold u8_of_Z. rewrite E. reflexivity. Qed.

Lemma lor_shiftl_8 (a b : Z) : 0 <= b < 256 -> Z.lor (Z.shiftl a 8) b = a * 256 + b.
Proof.
  intros Hb.
  assert (L : Z.land (Z.shiftl a 8) b = 0).
  { apply Z.bits_inj'. intros n Hn. rewrite Z.land_spec, Z.bits_0.
    destruct (Z.ltb_spec n 8) as [Hlt|Hge].
    - rewrite Z.shiftl_spec_low by assumption. reflexivity.
    - assert (Z.testbit b n = false) as ->; [|apply andb_false_r].
      destruct (Z.eq_dec b 0) as [->|Hnz]; [apply Z.bits_0|].
      apply Z.bits_above_log2; [lia|].
      apply Z.log2_lt_pow2; [lia|].
      assert (2 ^ 8 <= 2 ^ n) by (apply Z.pow_le_mono_r; lia).
      change (2 ^ 8) with 256 in *. lia. }
  pose proof (Z.add_lor_land (Z.shiftl a 8) b) as H.
  rewrite L in H.
  assert (E : Z.shiftl a 8 = a * 256) by (rewrite Z.shiftl_mul_pow2; lia).
  lia.
Qed.

Lemma swab16_spec (x : Z) : swab16 x = (x mod 256) * 256 + (x / 256) mod 256.
Proof.
  unfold swab16.
  change 255 with (Z.ones 8). rewrite Z.land_ones by lia.
  change 65280 with (Z.shiftl (Z.ones 8) 8).
  rewrite Z.shiftr_land.
  rewrite (Z.shiftr_shiftl_l (Z.ones 8) 8 8) by lia.
  change (Z.shiftl (Z.ones 8) (8 - 8)) with (Z.ones 8).
  rewrite Z.land_ones, Z.shiftr_div_pow2 by lia.
  change (2 ^ 8) with 256.
  apply lor_shiftl_8. apply Z.mod_pos_bound. lia.
Qed.

Lemma land_65535 (x : Z) : Z.land x 65535 = x mod 65536.
Proof. change 65535 with (Z.ones 16). rewrite Z.land_ones by lia. reflexivity. Qed.

(** A 16-bit member read through [__be16_to_cpu] is its two bytes in
    network order, whatever the host. *)
Lemma be16_load (host : byte_order) (m : list byte) (off : nat) :
  be16_to_cpu host (load_u16 host m off) = 256 * load_u8 m off + load_u8 m (S off).
Proof.
  unfold be16_to_cpu, load_u16, load_u8.
  pose proof (u8_to_Z_range (nth off m x00)).
  pose proof (u8_to_Z_range (nth (S off) m x00)).
  destruct host.
  - rewrite swab16_spec. Z.to_euclidean_division_equations. lia.
  - rewrite land_65535. apply Z.mod_small. lia.
Qed.

(** A 16-bit member stored through [__cpu_to_be16] lands in memory high
    byte first, whatever the host. *)
Lemma be16_store (host : byte_order) (m : list byte) (off : nat) (v : Z) :
  store_u16 host m off (cpu_to_be16 host v) =
  memcpy m off [u8_of_Z (v / 256); u8_of_Z v] 2.
Proof.
  unfold store_u16, cpu_to_be16. rewrite !Z.shiftr_div_pow2 by lia.
  change (2 ^ 8) with 256.
  destruct host; f_equal.
  - rewrite swab16_spec.
    f_equal; [|f_equal]; apply u8_of_Z_congr;
      Z.to_euclidean_division_equations; lia.
  - rewrite land_65535.
    f_equal; [|f_equal]; apply u8_of_Z_congr;
      Z.to_euclidean_division_equations; lia.
Qed.

Lemma u16_bytes (v : Z) :
  u16_range v -> 256 * u8_to_Z (u8_of_Z (v / 256)) + u8_to_Z (u8_of_Z v) = v.
Proof.
  unfold u16_range. intros Hv. rewrite !u8_to_of.
  assert (0 <= v / 256 < 256).
  { split; [apply Z.div_pos; lia|apply Z.div_lt_upper_bound; lia]. }
  rewrite (Z.mod_small (v / 256)) by lia.
  pose proof (Z.div_mod v 256 ltac:(lia)). lia.
Qed.

Lemma u8_byte (v : Z) : u8_range v -> u8_to_Z (u8_of_Z v) = v.
Proof. unfold u8_range. intros Hv. rewrite u8_to_of. apply Z.mod_small. lia. Qed.

(** ** The frame codec *)

(** Endianness: the view of a buffer and the bytes of a packet do not
    depend on the byte order of the host. *)
Lemma decode_host (host : byte_order) (buf : list byte) :
  decode host buf = decode big_endian buf.
Proof. unfold decode. rewrite !be16_load. reflexivity. Qed.

Lemma encode_host (host : byte_order) (p : arp_packet) (obj : list byte) :
  encode host p obj = encode big_endian p obj.
Proof. unfold encode. cbv zeta. rewrite !be16_store. reflexivity. Qed.

(** ** Buffers *)

Lemma fit_length (n : nat) (bs : list byte) : List.length (fit n bs) = n.
Proof.
  unfold fit. rewrite length_app, length_firstn, repeat_length. lia.
Qed.

Lemma read_into_length (buf : list byte) (count : nat) (data : list byte) :
  List.length buf = count -> List.length (read_into buf count data) = count.
Proof.
  intros H. unfold read_into.
  rewrite length_app, length_skipn, length_firstn. lia.
Qed.

Lemma read_into_nth (buf : list byte) (count : nat) (data : list byte) (i : nat) :
  (i < count)%nat -> (i < List.length data)%nat ->
  nth i (read_into buf count data) x00 = nth i data x00.
Proof.
  intros Hc Hd. unfold read_into.
  rewrite app_nth1 by (rewrite length_firstn; lia).
  rewrite nth_firstn. destruct (Nat.ltb_spec i count); [reflexivity|lia].
Qed.

Lemma read_into_firstn (buf : list byte) (count : nat) (data : list byte) (n : nat) :
  (n <= count)%nat -> (n <= List.length data)%nat ->
  firstn n (read_into buf count data) = firstn n data.
Proof.
  intros Hc Hd. unfold read_into.
  rewrite firstn_app, length_firstn.
  replace (n - Nat.min count (List.length data))%nat with 0%nat by lia.
  rewrite firstn_firstn, firstn_O, app_nil_r.
  replace (Nat.min n count) with n by lia. reflexivity.
Qed.

Lemma firstn_skipn_firstn (n off m : nat) (l : list byte) :
  (off + n <= m)%nat ->
  firstn n (skipn off (firstn m l)) = firstn n (skipn off l).
Proof.
  intros H. rewrite skipn_firstn_comm, firstn_firstn.
  replace (Nat.min n (m - off)) with n by lia. reflexivity.
Qed.

Lemma nth_firstn_below (i m : nat) (l : list byte) :
  (i < m)%nat -> nth i (firstn m l) x00 = nth i l x00.
Proof.
  intros H. rewrite nth_firstn. destruct (Nat.ltb_spec i m); [reflexivity|lia].
Qed.

(** The view of a buffer as a packet looks at its first
    [sizeof_arp_packet] bytes only. *)
Lemma decode_firstn (host : byte_order) (buf : list byte) :
  decode host (firstn sizeof_arp_packet buf) = decode host buf.
Proof.
  unfold decode, load_u16, load_u8, ptr.
  rewrite !firstn_skipn_firstn by (cbv; lia).
  rewrite !nth_firstn_below by (cbv; lia).
  reflexivity.
Qed.

Lemma decode_read_into (host : byte_order) (buf data : list byte) :
  (sizeof_arp_packet <= List.length data)%nat ->
  decode host (read_into buf 1500 data) = decode host data.
Proof.
  intros H. rewrite <- decode_firstn, read_into_firstn, decode_firstn.
  - reflexivity.
  - cbv; lia.
  - assumption.
Qed.

(** ** The reply built by the responder *)

Lemma synth_reply_length (host : byte_order) (mac req rep0 : list byte) :
  (sizeof_arp_packet <= List.length req)%nat ->
  (ETHER_ADDR_LEN <= List.length mac)%nat ->
  List.length rep0 = sizeof_arp_packet ->
  List.length (synth_reply host mac req rep0) = sizeof_arp_packet.
Proof.
  intros Hreq Hmac Hrep. unfold synth_reply. cbv zeta. rewrite be16_store.
  cbv [ETHER_ADDR_LEN INET_ADDR_LEN sizeof_arp_packet sizeof_ethhdr sizeof_arp_hdr Nat.add] in *.
  explode_le req Hreq. explode_le mac Hmac. explode rep0 Hrep.
  reflexivity.
Qed.

(** The bytes from the protocol field to the address lengths are those
    of the request. *)
Lemma synth_reply_untouched (host : byte_order) (mac req rep0 : list byte) :
  (sizeof_arp_packet <= List.length req)%nat ->
  (ETHER_ADDR_LEN <= List.length mac)%nat ->
  List.length rep0 = sizeof_arp_packet ->
  firstn 8 (skipn off_h_proto (firstn sizeof_arp_packet (synth_reply host mac req rep0)))
  = firstn 8 (skipn off_h_proto req).
Proof.
  intros Hreq Hmac Hrep. unfold synth_reply. cbv zeta. rewrite be16_store.
  cbv [ETHER_ADDR_LEN INET_ADDR_LEN sizeof_arp_packet sizeof_ethhdr sizeof_arp_hdr Nat.add] in *.
  explode_le req Hreq. explode_le mac Hmac. explode rep0 Hrep.
  reflexivity.
Qed.

Lemma decode_synth_reply (host : byte_order) (mac req rep0 : list byte) :
  (sizeof_arp_packet <= List.length req)%nat ->
  (ETHER_ADDR_LEN <= List.length mac)%nat ->
  List.length rep0 = sizeof_arp_packet ->
  decode host (synth_reply host mac req rep0) =
  let q := decode host req in
  {| pkt_ethhdr :=
       {| h_dest := arp_sha (pkt_arphdr q);
          h_source := firstn ETHER_ADDR_LEN mac;
          h_proto := h_proto (pkt_ethhdr q) |};
     pkt_arphdr :=
       {| arp_hd := arp_hd (pkt_arphdr q);
          arp_pr := arp_pr (pkt_arphdr q);
          arp_hdl := arp_hdl (pkt_arphdr q);
          arp_prl := arp_prl (pkt_arphdr q);
          arp_op := ARPOP_REPLY;
          arp_sha := firstn ETHER_ADDR_LEN mac;
          arp_spa := arp_dpa (pkt_arphdr q);
          arp_dha := arp_sha (pkt_arphdr q);
          arp_dpa := arp_spa (pkt_arphdr q) |} |}.
Proof.
  intros Hreq Hmac Hrep. unfold synth_reply, decode. cbv zeta.
  rewrite !be16_load, be16_store.
  cbv [ETHER_ADDR_LEN INET_ADDR_LEN sizeof_arp_packet sizeof_ethhdr sizeof_arp_hdr Nat.add] in *.
  explode_le req Hreq. explode_le mac Hmac. explode rep0 Hrep.
  cbn [pkt_ethhdr pkt_arphdr h_dest h_source h_proto arp_hd arp_pr arp_hdl
       arp_prl arp_op arp_sha arp_spa arp_dha arp_dpa].
  run_layout.
  rewrite !u8_to_of. reflexivity.
Qed.

(** ** The request built by the requester *)

Lemma inet_pton_DEVICE_IP (obj : list byte) (off : nat) :
  inet_pton DEVICE_IP obj off = memcpy obj off [xac; x10; x3c; xfa] INET_ADDR_LEN.
Proof. reflexivity. Qed.

Lemma inet_pton_TARGET_IP (obj : list byte) (off : nat) :
  inet_pton TARGET_IP obj off = memcpy obj off [xac; x10; x3c; x9d] INET_ADDR_LEN.
Proof. reflexivity. Qed.

Lemma memcpy_firstn (dst : list byte) (off : nat) (src : list byte) (n : nat) :
  memcpy dst off (firstn n src) n = memcpy dst off src n.
Proof. unfold memcpy. rewrite firstn_firstn, Nat.min_id. reflexivity. Qed.

(** The stores of [req_n_wait] are those of [encode], applied to the
    request it means to send. *)
Lemma build_request_encode (host : byte_order) (mac obj : list byte) :
  build_request host mac obj =
  encode host
    {| pkt_ethhdr :=
         {| h_dest := [xff; xff; xff; xff; xff; xff];
            h_source := firstn ETHER_ADDR_LEN mac;
            h_proto := ETH_P_ARP |};
       pkt_arphdr :=
         {| arp_hd := ETH_P_802_3;
            arp_pr := ETH_P_IP;
            arp_hdl := Z.of_nat ETHER_ADDR_LEN;
            arp_prl := Z.of_nat INET_ADDR_LEN;
            arp_op := ARPOP_REQUEST;
            arp_sha := firstn ETHER_ADDR_LEN mac;
            arp_spa := [xac; x10; x3c; xfa];
            arp_dha := [xff; xff; xff; xff; xff; xff];
            arp_dpa := [xac; x10; x3c; x9d] |} |}
    obj.
Proof.
  unfold build_request, encode. cbv zeta.
  cbn [pkt_ethhdr pkt_arphdr h_dest h_source h_proto arp_hd arp_pr arp_hdl
       arp_prl arp_op arp_sha arp_spa arp_dha arp_dpa].
  rewrite inet_pton_DEVICE_IP, inet_pton_TARGET_IP, !memcpy_firstn.
  reflexivity.
Qed.

Lemma build_request_length (host : byte_order) (mac obj : list byte) :
  (ETHER_ADDR_LEN <= List.length mac)%nat ->
  List.length obj = sizeof_arp_packet ->
  List.length (build_request host mac obj) = sizeof_arp_packet.
Proof.
  intros Hmac Hobj. unfold build_request. cbv zeta.
  rewrite !be16_store, inet_pton_DEVICE_IP, inet_pton_TARGET_IP.
  cbv [ETHER_ADDR_LEN INET_ADDR_LEN sizeof_arp_packet sizeof_ethhdr sizeof_arp_hdr Nat.add] in *.
  explode_le mac Hmac. explode obj Hobj.
  reflexivity.
Qed.

Lemma decode_build_request (host : byte_order) (mac obj : list byte) :
  (ETHER_ADDR_LEN <= List.length mac)%nat ->
  List.length obj = sizeof_arp_packet ->
  decode host (build_request host mac obj) =
  {| pkt_ethhdr :=
       {| h_dest := [xff; xff; xff; xff; xff; xff];
          h_source := firstn ETHER_ADDR_LEN mac;
          h_proto := ETH_P_ARP |};
     pkt_arphdr :=
       {| arp_hd := ARPHRD_ETHER;
          arp_pr := ETH_P_IP;
          arp_hdl := 6;
          arp_prl := 4;
          arp_op := ARPOP_REQUEST;
          arp_sha := firstn ETHER_ADDR_LEN mac;
          arp_spa := [xac; x10; x3c; xfa];
          arp_dha := [xff; xff; xff; xff; xff; xff];
          arp_dpa := [xac; x10; x3c; x9d] |} |}.
Proof.
  intros Hmac Hobj. unfold build_request, decode. cbv zeta.
  rewrite !be16_load, !be16_store, inet_pton_DEVICE_IP, inet_pton_TARGET_IP.
  cbv [ETHER_ADDR_LEN INET_ADDR_LEN sizeof_arp_packet sizeof_ethhdr sizeof_arp_hdr Nat.add] in *.
  explode_le mac Hmac. explode obj Hobj.
  run_layout.
  reflexivity.
Qed.

(** ** The ARP filter *)

(** The test of the loops compares the protocol field with [ETH_P_ARP]. *)
Lemma not_arp_spec (host : byte_order) (buf : list byte) :
  not_arp host buf = negb (ethertype host buf =? ETH_P_ARP).
Proof.
  unfold not_arp, ethertype, decode. cbn [pkt_ethhdr h_proto].
  rewrite be16_load. f_equal.
  unfold load_u16, load_u8, cpu_to_be16, ETH_P_ARP.
  pose proof (u8_to_Z_range (nth off_h_proto buf x00)).
  pose proof (u8_to_Z_range (nth (S off_h_proto) buf x00)).
  destruct host.
  - rewrite swab16_spec.
    change ((2054 mod 256) * 256 + (2054 / 256) mod 256) with 1544.
    destruct (Z.eqb_spec (u8_to_Z (nth off_h_proto buf x00)
                          + 256 * u8_to_Z (nth (S off_h_proto) buf x00)) 1544);
      destruct (Z.eqb_spec (256 * u8_to_Z (nth off_h_proto buf x00)
                            + u8_to_Z (nth (S off_h_proto) buf x00)) 2054);
      try reflexivity; lia.
  - rewrite land_65535. change (2054 mod 65536) with 2054. reflexivity.
Qed.

(** A frame with an Ethernet header brings its own protocol field. *)
Lemma ethertype_read_into (host : byte_order) (buf data : list byte) :
  (sizeof_ethhdr <= List.length data)%nat ->
  ethertype host (read_into buf 1500 data) = ethertype host data.
Proof.
  unfold sizeof_ethhdr. intros H.
  unfold ethertype, decode. cbn [pkt_ethhdr h_proto].
  rewrite !be16_load. unfold load_u8, off_h_proto.
  rewrite !read_into_nth by lia. reflexivity.
Qed.

(** ** Traces *)

Lemma writes_app (a b : list obs) : writes (a ++ b) = writes a ++ writes b.
Proof. unfold writes. apply flat_map_app. Qed.

Lemma reads_app (a b : list obs) : reads (a ++ b) = reads a ++ reads b.
Proof. unfold reads. apply flat_map_app. Qed.

Lemma writes_packet_obs (host : byte_order) (p : list byte) :
  writes (packet_obs host p) = [].
Proof. reflexivity. Qed.

Lemma reads_packet_obs (host : byte_order) (p : list byte) :
  reads (packet_obs host p) = [].
Proof. reflexivity. Qed.

Lemma writes_reply_obs host tapfd num n req rep payload r :
  writes (reply_obs host tapfd num n req rep payload r) = [payload].
Proof.
  unfold reply_obs. rewrite !writes_app, !writes_packet_obs. reflexivity.
Qed.

Lemma writes_req_n_wait_obs host tapfd req payload r :
  writes (req_n_wait_obs host tapfd req payload r) = [payload].
Proof.
  unfold req_n_wait_obs. rewrite !writes_app, !writes_packet_obs. reflexivity.
Qed.

Lemma reads_req_n_wait_obs host tapfd req payload r :
  reads (req_n_wait_obs host tapfd req payload r) = [].
Proof.
  unfold req_n_wait_obs. rewrite !reads_app, !reads_packet_obs. reflexivity.
Qed.

(** ** One turn of the responder *)

(** Run one call whose answer the world determines. *)
Ltac run_trigger :=
  eapply runs_trigger; cbn [handle]; norm_world;
  repeat match goal with
         | E : w_rx _ = _ |- _ => rewrite E
         end;
  reflexivity.

Section ResponderTurn.

Variable host : byte_order.
Variable tapfd : Z.
Variable mac : list byte.

(** Nothing to read: the process blocks. *)
Lemma turn_blocked (num : Z) (w : world) :
  w_rx w = [] ->
  runs_to (wait_n_reply_turn host tapfd mac num) w [] blocked (pop_stack w).
Proof.
  intros E. unfold wait_n_reply_turn.
  eapply runs_to_eq.
  - eapply runs_bind; [run_trigger|].
    apply (runs_bind_halt _ _ _ _ h_block).
    eapply runs_trigger_halt. cbn [handle]. cbn [pop_stack set_stack w_rx].
    rewrite E. reflexivity.
  - reflexivity.
  - reflexivity.
  - reflexivity.
Qed.

(** [read] fails: the process reports it and exits. *)
Lemma turn_read_error (num : Z) (w : world) (q : list rx_item) :
  w_rx w = rx_error :: q ->
  runs_to (wait_n_reply_turn host tapfd mac num) w
          [o_read tapfd 1500 (-1); o_perror "read packet"; o_exit 1]
          (exited 1) (pop_rx (pop_stack w)).
Proof.
  intros E. unfold wait_n_reply_turn.
  eapply runs_to_eq.
  - eapply runs_bind; [run_trigger|].
    eapply runs_bind.
    { eapply runs_trigger. cbn [handle pop_stack set_stack w_rx]. rewrite E. reflexivity. }
    cbv beta iota.
    apply (runs_bind_halt _ _ _ _ (h_exit 1)).
    apply runs_ASSERT_fail.
  - reflexivity.
  - reflexivity.
  - reflexivity.
Qed.

Lemma read_count_nonneg (data : list byte) :
  (Z.of_nat (List.length (firstn 1500 data)) <? 0) = false.
Proof. apply Z.ltb_ge. lia. Qed.

(** A frame that is not ARP: the turn ends at once. *)
Lemma turn_skip (num : Z) (w : world) (data : list byte) (q : list rx_item)
      (buf : list byte) :
  w_rx w = rx_frame data :: q ->
  read_into (fit 1500 (hd [] (w_stack w))) 1500 data = buf ->
  not_arp host buf = true ->
  runs_to (wait_n_reply_turn host tapfd mac num) w
          [o_read tapfd 1500 (Z.of_nat (List.length (firstn 1500 data)))]
          (returned (inl num)) (pop_rx (pop_stack w)).
Proof.
  intros E Hbuf Hna. unfold wait_n_reply_turn.
  eapply runs_to_eq.
  - eapply runs_bind; [run_trigger|].
    eapply runs_bind; [run_trigger|].
    cbv beta iota. rewrite read_count_nonneg, Hbuf.
    eapply runs_bind; [apply runs_ASSERT_pass|].
    rewrite Hna. apply runs_ret.
  - reflexivity.
  - reflexivity.
  - reflexivity.
Qed.

(** An ARP frame: both packets are printed and the reply is written. *)
Lemma turn_reply_runs (num : Z) (w : world) (data : list byte) (q : list rx_item)
      (buf rep0 rep payload : list byte) (r : Z) :
  w_rx w = rx_frame data :: q ->
  read_into (fit 1500 (hd [] (w_stack w))) 1500 data = buf ->
  fit sizeof_arp_packet (hd [] (tl (w_stack w))) = rep0 ->
  synth_reply host mac buf rep0 = rep ->
  firstn sizeof_arp_packet rep = payload ->
  hd (Z.of_nat (List.length payload)) (w_tx w) = r ->
  not_arp host buf = false ->
  runs_to (wait_n_reply_turn host tapfd mac num) w
          (reply_obs host tapfd num (Z.of_nat (List.length (firstn 1500 data)))
                     buf rep payload r
           ++ if r <? 0 then [o_perror "write packet"; o_exit 1] else [])
          (if r <? 0 then exited 1 else returned (inl (int_wrap (num + 1))))
          (pop_tx (pop_stack (pop_rx (pop_stack w)))).
Proof.
  intros E Hbuf Hrep0 Hrep Hpay Hr Hna. unfold wait_n_reply_turn.
  eapply runs_to_eq.
  - eapply runs_bind; [run_trigger|].
    eapply runs_bind; [run_trigger|].
    cbv beta iota. rewrite read_count_nonneg, Hbuf.
    eapply runs_bind; [apply runs_ASSERT_pass|].
    rewrite Hna. cbv iota.
    eapply runs_bind; [run_trigger|].
    cbv beta zeta. rewrite Hrep0, Hrep, Hpay.
    eapply runs_bind; [run_trigger|].
    eapply runs_bind; [apply runs_print_arp_packet|].
    eapply runs_bind; [run_trigger|].
    eapply runs_bind; [apply runs_print_arp_packet|].
    eapply runs_bind; [run_trigger|].
    cbv beta. rewrite Hr.
    instantiate (1 := pop_tx (pop_stack (pop_rx (pop_stack w)))).
    instantiate (1 := if r <? 0 then exited 1 else returned (inl (int_wrap (num + 1)))).
    instantiate (1 := if r <? 0 then [o_perror "write packet"; o_exit 1] else []).
    destruct (r <? 0).
    + apply (runs_bind_halt _ _ _ _ (h_exit 1)). apply runs_ASSERT_fail.
    + eapply runs_to_eq;
        [eapply runs_bind; [apply runs_ASSERT_pass|apply runs_ret]|..]; reflexivity.
  - unfold reply_obs. rewrite Hr.
    repeat (progress cbn [app] || rewrite <- app_assoc). reflexivity.
  - reflexivity.
  - reflexivity.
Qed.

End ResponderTurn.

(** ** The responder loop *)

Section ResponderLoop.

Variable host : byte_order.
Variable tapfd : Z.
Variable mac : list byte.

(** Every behaviour of the transition system is a run of the loop. *)
Lemma wait_n_reply_loop_runs num w tr h w' :
  wait_n_reply_loop host tapfd mac num w tr h w' ->
  runs_to (ITree.iter (wait_n_reply_turn host tapfd mac) num) w tr (status_of_halt h) w'.
Proof.
  induction 1 as [num w E|num w q E
                 |num w data q buf tr h w' E Hbuf Hna Hrest IH
                 |num w data q buf rep0 rep payload r tr h w'
                      E Hbuf Hrep0 Hrep Hpay Hr Hna Hneg Hrest IH
                 |num w data q buf rep0 rep payload r
                      E Hbuf Hrep0 Hrep Hpay Hr Hna Hneg].
  - apply (runs_iter_halt _ _ _ _ h_block). apply turn_blocked. assumption.
  - apply (runs_iter_halt _ _ _ _ (h_exit 1)). eapply turn_read_error. eassumption.
  - change (o_read tapfd 1500 (Z.of_nat (List.length (firstn 1500 data))) :: tr)
      with ([o_read tapfd 1500 (Z.of_nat (List.length (firstn 1500 data)))] ++ tr).
    eapply runs_iter_again; [|eassumption].
    eapply turn_skip; eassumption.
  - eapply runs_iter_again; [|eassumption].
    pose proof (turn_reply_runs host tapfd mac num w data q buf rep0 rep payload r
                  E Hbuf Hrep0 Hrep Hpay Hr Hna) as T.
    rewrite Hneg, app_nil_r in T. exact T.
  - apply (runs_iter_halt _ _ _ _ (h_exit 1)).
    pose proof (turn_reply_runs host tapfd mac num w data q buf rep0 rep payload r
                  E Hbuf Hrep0 Hrep Hpay Hr Hna) as T.
    rewrite Hneg in T. exact T.
Qed.

Lemma pop_rx_length w : List.length (w_rx (pop_rx w)) = pred (List.length (w_rx w)).
Proof. cbn. destruct (w_rx w); reflexivity. Qed.

(** The transition system always has a behaviour. *)
Lemma wait_n_reply_loop_total (n : nat) :
  forall num w, List.length (w_rx w) = n ->
    exists tr h w', wait_n_reply_loop host tapfd mac num w tr h w'.
Proof.
  induction n as [|n IH]; intros num w Hn.
  - exists [], h_block, (pop_stack w). apply wl_blocked.
    destruct (w_rx w); [reflexivity|discriminate].
  - destruct (w_rx w) as [|[|data] q] eqn:E; [discriminate| |].
    + do 3 eexists. eapply wl_read_error. eassumption.
    + cbn in Hn. apply eq_add_S in Hn.
      remember (read_into (fit 1500 (hd [] (w_stack w))) 1500 data) as buf eqn:Hbuf.
      symmetry in Hbuf.
      destruct (not_arp host buf) eqn:Hna.
      * destruct (IH num (pop_rx (pop_stack w))) as (tr & h & w' & Hrun).
        { cbn. rewrite E. assumption. }
        do 3 eexists. eapply wl_skip; eassumption.
      * remember (fit sizeof_arp_packet (hd [] (tl (w_stack w)))) as rep0 eqn:Hrep0.
        remember (synth_reply host mac buf rep0) as rep eqn:Hrep.
        remember (firstn sizeof_arp_packet rep) as payload eqn:Hpay.
        remember (hd (Z.of_nat (List.length payload)) (w_tx w)) as r eqn:Hr.
        symmetry in Hrep0, Hrep, Hpay, Hr.
        destruct (r <? 0) eqn:Hneg.
        -- do 3 eexists. eapply wl_write_error; eassumption.
        -- destruct (IH (int_wrap (num + 1)) (pop_tx (pop_stack (pop_rx (pop_stack w)))))
             as (tr & h & w' & Hrun).
           { cbn. rewrite E. assumption. }
           do 3 eexists. eapply wl_reply; eassumption.
Qed.

End ResponderLoop.

(** ** The requester loop *)

Section RequesterLoop.

Variable host : byte_order.
Variable tapfd : Z.

Lemma req_turn_blocked (w : world) :
  w_rx w = [] ->
  runs_to (req_n_wait_turn host tapfd tt) w [] blocked (pop_stack w).
Proof.
  intros E. unfold req_n_wait_turn.
  eapply runs_to_eq.
  - eapply runs_bind; [run_trigger|].
    apply (runs_bind_halt _ _ _ _ h_block).
    eapply runs_trigger_halt. cbn [handle]. norm_world.
    rewrite E. reflexivity.
  - reflexivity.
  - reflexivity.
  - reflexivity.
Qed.

Lemma req_turn_read_error (w : world) (q : list rx_item) :
  w_rx w = rx_error :: q ->
  runs_to (req_n_wait_turn host tapfd tt) w
          [o_read tapfd 1500 (-1); o_perror "read packet"; o_exit 1]
          (exited 1) (pop_rx (pop_stack w)).
Proof.
  intros E. unfold req_n_wait_turn.
  eapply runs_to_eq.
  - eapply runs_bind; [run_trigger|].
    eapply runs_bind; [run_trigger|].
    cbv beta iota.
    apply (runs_bind_halt _ _ _ _ (h_exit 1)).
    apply runs_ASSERT_fail.
  - reflexivity.
  - reflexivity.
  - reflexivity.
Qed.

Lemma req_turn_skip (w : world) (data : list byte) (q : list rx_item) (buf : list byte) :
  w_rx w = rx_frame data :: q ->
  read_into (fit 1500 (hd [] (w_stack w))) 1500 data = buf ->
  not_arp host buf = true ->
  runs_to (req_n_wait_turn host tapfd tt) w
          [o_read tapfd 1500 (Z.of_nat (List.length (firstn 1500 data)))]
          (returned (inl tt)) (pop_rx (pop_stack w)).
Proof.
  intros E Hbuf Hna. unfold req_n_wait_turn.
  eapply runs_to_eq.
  - eapply runs_bind; [run_trigger|].
    eapply runs_bind; [run_trigger|].
    cbv beta iota. rewrite read_count_nonneg, Hbuf.
    eapply runs_bind; [apply runs_ASSERT_pass|].
    rewrite Hna. apply runs_ret.
  - reflexivity.
  - reflexivity.
  - reflexivity.
Qed.

Lemma req_turn_accept (w : world) (data : list byte) (q : list rx_item) (buf : list byte) :
  w_rx w = rx_frame data :: q ->
  read_into (fit 1500 (hd [] (w_stack w))) 1500 data = buf ->
  not_arp host buf = false ->
  runs_to (req_n_wait_turn host tapfd tt) w
          (o_read tapfd 1500 (Z.of_nat (List.length (firstn 1500 data)))
           :: o_printf ("Packet ARP Reply 0.2" ++ LF)%string []
           :: packet_obs host buf)
          (returned (inr tt)) (pop_rx (pop_stack w)).
Proof.
  intros E Hbuf Hna. unfold req_n_wait_turn.
  eapply runs_to_eq.
  - eapply runs_bind; [run_trigger|].
    eapply runs_bind; [run_trigger|].
    cbv beta iota. rewrite read_count_nonneg, Hbuf.
    eapply runs_bind; [apply runs_ASSERT_pass|].
    rewrite Hna. cbv iota zeta.
    eapply runs_bind; [run_trigger|].
    eapply runs_bind; [apply runs_print_arp_packet|].
    apply runs_ret.
  - repeat (progress cbn [app] || rewrite app_nil_r). reflexivity.
  - reflexivity.
  - reflexivity.
Qed.

Lemma req_n_wait_loop_runs w tr st w' :
  req_n_wait_loop host tapfd w tr st w' ->
  runs_to (ITree.iter (req_n_wait_turn host tapfd) tt) w tr st w'.
Proof.
  induction 1 as [w E|w q E|w data q buf tr st w' E Hbuf Hna Hrest IH|w data q buf E Hbuf Hna].
  - apply (runs_iter_halt _ _ _ _ h_block). apply req_turn_blocked. assumption.
  - apply (runs_iter_halt _ _ _ _ (h_exit 1)). eapply req_turn_read_error. eassumption.
  - change (o_read tapfd 1500 (Z.of_nat (List.length (firstn 1500 data))) :: tr)
      with ([o_read tapfd 1500 (Z.of_nat (List.length (firstn 1500 data)))] ++ tr).
    eapply runs_iter_again; [|eassumption].
    eapply req_turn_skip; eassumption.
  - apply runs_iter_done. eapply req_turn_accept; eassumption.
Qed.

Lemma req_n_wait_loop_total (n : nat) :
  forall w, List.length (w_rx w) = n ->
    exists tr st w', req_n_wait_loop host tapfd w tr st w'.
Proof.
  induction n as [|n IH]; intros w Hn.
  - exists [], blocked, (pop_stack w). apply ql_blocked.
    destruct (w_rx w); [reflexivity|discriminate].
  - destruct (w_rx w) as [|[|data] q] eqn:E; [discriminate| |].
    + do 3 eexists. eapply ql_read_error. eassumption.
    + cbn in Hn. apply eq_add_S in Hn.
      remember (read_into (fit 1500 (hd [] (w_stack w))) 1500 data) as buf eqn:Hbuf.
      symmetry in Hbuf.
      destruct (not_arp host buf) eqn:Hna.
      * destruct (IH (pop_rx (pop_stack w))) as (tr & st & w' & Hrun).
        { cbn. rewrite E. assumption. }
        do 3 eexists. eapply ql_skip; eassumption.
      * do 3 eexists. eapply ql_accept; eassumption.
Qed.

End RequesterLoop.

(** ** The engines and [main] *)

(** The hardware address [main] hands to the engines is the 14-byte
    [sa_data] the kernel filled in. *)
Lemma kernel_sa_data_length (ifr : ifreq) :
  List.length (ifr_hwaddr_sa_data (kernel_ifreq ifr)) = 14%nat.
Proof. apply fit_length. Qed.

Section Engines.

Variable host : byte_order.
Variable tapfd : Z.
Variable mac : list byte.

Lemma wait_n_reply_runs w tr h w' :
  wait_n_reply_loop host tapfd mac 0 w tr h w' ->
  runs_to (wait_n_reply host tapfd mac) w (wait_n_reply_banner :: tr)
          (status_of_halt h) w'.
Proof.
  intros H. unfold wait_n_reply.
  change (wait_n_reply_banner :: tr) with ([wait_n_reply_banner] ++ tr).
  eapply runs_bind; [run_trigger|].
  apply wait_n_reply_loop_runs. assumption.
Qed.

Lemma req_n_wait_runs w tr st w' :
  req_n_wait_run host tapfd mac w tr st w' ->
  runs_to (req_n_wait host tapfd mac) w tr st w'.
Proof.
  assert (Hpre : forall w req0 req payload r tr st w',
             fit sizeof_arp_packet (hd [] (w_stack w)) = req0 ->
             build_request host mac req0 = req ->
             firstn sizeof_arp_packet req = payload ->
             hd (Z.of_nat (List.length payload)) (w_tx w) = r ->
             runs_to (ASSERT (r <? 0) "write packet";;
                      ITree.iter (req_n_wait_turn host tapfd) tt)
                     (pop_tx (pop_stack w)) tr st w' ->
             runs_to (req_n_wait host tapfd mac) w
                     (req_n_wait_obs host tapfd req payload r ++ tr) st w').
  { clear. intros w req0 req payload r tr st w' Hreq0 Hreq Hpay Hr Hk.
    unfold req_n_wait. eapply runs_to_eq.
    - eapply runs_bind; [run_trigger|].
      eapply runs_bind; [run_trigger|].
      eapply runs_bind; [run_trigger|].
      cbv beta zeta. rewrite Hreq0, Hreq, Hpay.
      eapply runs_bind; [run_trigger|].
      eapply runs_bind; [apply runs_print_arp_packet|].
      eapply runs_bind; [run_trigger|].
      cbv beta. norm_world. rewrite Hr. exact Hk.
    - unfold req_n_wait_obs. norm_world. rewrite Hr.
      repeat (progress cbn [app] || rewrite <- app_assoc). reflexivity.
    - reflexivity.
    - reflexivity. }
  intros H.
  destruct H as [w req0 req payload r Hreq0 Hreq Hpay Hr Hneg
                |w req0 req payload r tr st w' Hreq0 Hreq Hpay Hr Hneg Hloop].
  - eapply Hpre; try eassumption. rewrite Hneg.
    apply (runs_bind_halt _ _ _ _ (h_exit 1)). apply runs_ASSERT_fail.
  - eapply Hpre; try eassumption. rewrite Hneg.
    eapply runs_to_eq;
      [eapply runs_bind; [apply runs_ASSERT_pass|]|reflexivity..].
    apply req_n_wait_loop_runs. assumption.
Qed.

Lemma req_n_wait_run_total w :
  exists tr st w', req_n_wait_run host tapfd mac w tr st w'.
Proof.
  remember (fit sizeof_arp_packet (hd [] (w_stack w))) as req0 eqn:Hreq0.
  remember (build_request host mac req0) as req eqn:Hreq.
  remember (firstn sizeof_arp_packet req) as payload eqn:Hpay.
  remember (hd (Z.of_nat (List.length payload)) (w_tx w)) as r eqn:Hr.
  symmetry in Hreq0, Hreq, Hpay, Hr.
  destruct (r <? 0) eqn:Hneg.
  - do 3 eexists. eapply qr_write_error; eassumption.
  - destruct (req_n_wait_loop_total host tapfd _ (pop_tx (pop_stack w)) eq_refl)
      as (tr & st & w' & Hloop).
    do 3 eexists. eapply qr_loop; eassumption.
Qed.

End Engines.

Section Main.

Variable mode : Z.
Variable host : byte_order.

Lemma main_run_total (w : world) : exists tr st w', main_run mode host w tr st w'.
Proof.
  remember (w_open w) as fd eqn:Hfd. symmetry in Hfd.
  destruct (fd <? 0) eqn:Hfdneg.
  { do 3 eexists. eapply mr_open_error; eassumption. }
  remember (fst (w_ioctl w TUNSETIFF main_ifr)) as r1 eqn:Hr1. symmetry in Hr1.
  destruct (r1 <? 0) eqn:Hr1neg.
  { do 3 eexists. eapply mr_setiff_error; eassumption. }
  remember (kernel_ifreq (snd (w_ioctl w TUNSETIFF main_ifr))) as ifr1 eqn:Hifr1.
  symmetry in Hifr1.
  remember (fst (w_ioctl w SIOCGIFHWADDR ifr1)) as r2 eqn:Hr2. symmetry in Hr2.
  destruct (r2 <? 0) eqn:Hr2neg.
  { do 3 eexists. eapply mr_hwaddr_error; eassumption. }
  remember (ifr_hwaddr_sa_data (kernel_ifreq (snd (w_ioctl w SIOCGIFHWADDR ifr1))))
    as mac eqn:Hmac.
  symmetry in Hmac.
  destruct (mode =? 0) eqn:Hmode.
  - destruct (wait_n_reply_loop_total host fd mac _ 0 w eq_refl) as (tr & h & w' & Hloop).
    do 3 eexists. eapply mr_responder; eassumption.
  - destruct (req_n_wait_run_total host fd mac w) as (tr & st & w' & Hrun).
    destruct st as [[]|code| |].
    + do 3 eexists. eapply mr_requester_done; eassumption.
    + do 3 eexists. eapply (mr_requester_halt _ _ _ _ _ _ _ _ _ (h_exit code)); eassumption.
    + do 3 eexists. eapply (mr_requester_halt _ _ _ _ _ _ _ _ _ h_block); eassumption.
    + exfalso. apply (req_n_wait_runs host fd mac) in Hrun.
      destruct Hrun as [N _]. apply N. reflexivity.
Qed.

Lemma main_run_runs w tr st w' :
  main_run mode host w tr st w' -> runs_to (main_mode mode host) w tr st w'.
Proof.
  assert (Hsetup : forall w fd r1 ifr1 r2 mac tr st w',
             w_open w = fd -> (fd <? 0) = false ->
             fst (w_ioctl w TUNSETIFF main_ifr) = r1 -> (r1 <? 0) = false ->
             kernel_ifreq (snd (w_ioctl w TUNSETIFF main_ifr)) = ifr1 ->
             fst (w_ioctl w SIOCGIFHWADDR ifr1) = r2 -> (r2 <? 0) = false ->
             ifr_hwaddr_sa_data (kernel_ifreq (snd (w_ioctl w SIOCGIFHWADDR ifr1))) = mac ->
             runs_to ((if negb (mode =? 0) then req_n_wait host fd mac
                       else wait_n_reply host fd mac);;
                      ITree.trigger (Close fd);; Ret 0) w tr st w' ->
             runs_to (main_mode mode host) w (setup_obs fd r1 r2 mac ++ tr) st w').
  { clear. intros w fd r1 ifr1 r2 mac tr st w' Hfd Hfdneg Hr1 Hr1neg Hifr1 Hr2 Hr2neg Hmac Hk.
    unfold main_mode. cbv zeta. eapply runs_to_eq.
    - eapply runs_bind; [run_trigger|]. rewrite Hfd, Hfdneg.
      eapply runs_bind; [apply runs_ASSERT_pass|].
      eapply runs_bind; [run_trigger|]. cbv beta iota. rewrite Hr1, Hr1neg, Hifr1.
      eapply runs_bind; [apply runs_ASSERT_pass|].
      eapply runs_bind; [run_trigger|]. cbv beta iota. rewrite Hr2, Hr2neg, Hmac.
      eapply runs_bind; [apply runs_ASSERT_pass|].
      eapply runs_bind; [run_trigger|].
      exact Hk.
    - unfold setup_obs. rewrite Hfd, Hr1, Hr2.
      repeat (progress cbn [app] || rewrite <- app_assoc). reflexivity.
    - reflexivity.
    - reflexivity. }
  intros H.
  destruct H as [w fd Hfd Hfdneg
                |w fd r1 Hfd Hfdneg Hr1 Hr1neg
                |w fd r1 ifr1 r2 Hfd Hfdneg Hr1 Hr1neg Hifr1 Hr2 Hr2neg
                |w fd r1 ifr1 r2 mac tr h w' Hfd Hfdneg Hr1 Hr1neg Hifr1 Hr2 Hr2neg Hmac Hmode Hloop
                |w fd r1 ifr1 r2 mac tr h w' Hfd Hfdneg Hr1 Hr1neg Hifr1 Hr2 Hr2neg Hmac Hmode Hrun
                |w fd r1 ifr1 r2 mac tr w' Hfd Hfdneg Hr1 Hr1neg Hifr1 Hr2 Hr2neg Hmac Hmode Hrun].
  - unfold main_mode. cbv zeta. eapply runs_to_eq.
    + eapply runs_bind; [run_trigger|]. rewrite Hfd, Hfdneg.
      apply (runs_bind_halt _ _ _ _ (h_exit 1)). apply runs_ASSERT_fail.
    + rewrite Hfd. reflexivity.
    + reflexivity.
    + reflexivity.
  - unfold main_mode. cbv zeta. eapply runs_to_eq.
    + eapply runs_bind; [run_trigger|]. rewrite Hfd, Hfdneg.
      eapply runs_bind; [apply runs_ASSERT_pass|].
      eapply runs_bind; [run_trigger|]. cbv beta iota. rewrite Hr1, Hr1neg.
      apply (runs_bind_halt _ _ _ _ (h_exit 1)). apply runs_ASSERT_fail.
    + rewrite Hfd, Hr1. reflexivity.
    + reflexivity.
    + reflexivity.
  - unfold main_mode. cbv zeta. eapply runs_to_eq.
    + eapply runs_bind; [run_trigger|]. rewrite Hfd, Hfdneg.
      eapply runs_bind; [apply runs_ASSERT_pass|].
      eapply runs_bind; [run_trigger|]. cbv beta iota. rewrite Hr1, Hr1neg, Hifr1.
      eapply runs_bind; [apply runs_ASSERT_pass|].
      eapply runs_bind; [run_trigger|]. cbv beta iota. rewrite Hr2, Hr2neg.
      apply (runs_bind_halt _ _ _ _ (h_exit 1)). apply runs_ASSERT_fail.
    + rewrite Hfd, Hr1, Hr2. reflexivity.
    + reflexivity.
    + reflexivity.
  - eapply Hsetup; try eassumption. rewrite Hmode. cbn [negb].
    apply runs_bind_halt. apply wait_n_reply_runs. assumption.
  - eapply Hsetup; try eassumption. rewrite Hmode. cbn [negb].
    apply runs_bind_halt. apply req_n_wait_runs. assumption.
  - eapply Hsetup; try eassumption. rewrite Hmode. cbn [negb].
    eapply runs_bind; [apply req_n_wait_runs; eassumption|].
    eapply runs_to_eq; [eapply runs_bind; [run_trigger|apply runs_ret]|reflexivity..].
Qed.

(** Every run of [main] is the one the transition system describes. *)
Lemma main_runs_inv w tr st w' :
  runs_to (main_mode mode host) w tr st w' -> main_run mode host w tr st w'.
Proof.
  intros H. destruct (main_run_total w) as (tr0 & st0 & w0 & H0).
  destruct (runs_to_det _ _ _ _ _ _ _ _ H (main_run_runs _ _ _ _ H0)) as (-> & -> & ->).
  assumption.
Qed.

End Main.

(** ** Claims about the frame codec and the two frames the program builds *)

(** C4 -- Round trip: a well-formed packet stored member by member into
    an object of the size of the struct, on a host of either byte order,
    and viewed again through the struct on a host of either byte order,
    is the packet itself. *)
Theorem codec_round_trip (writer reader : byte_order) (p : arp_packet) (obj : list byte) :
  wf_packet p ->
  List.length obj = sizeof_arp_packet ->
  decode reader (encode writer p obj) = p.
Proof.
  intros [Hd Hs Hp Hhd Hpr Hhdl Hprl Hop Hsha Hspa Hdha Hdpa] Hobj.
  destruct p as [[d s pr] [hd pr' hdl prl op sha spa dha dpa]].
  cbn [pkt_ethhdr pkt_arphdr h_dest h_source h_proto arp_hd arp_pr arp_hdl
       arp_prl arp_op arp_sha arp_spa arp_dha arp_dpa] in *.
  unfold decode, encode. cbv zeta.
  rewrite !be16_load, !be16_store.
  cbv [ETHER_ADDR_LEN INET_ADDR_LEN sizeof_arp_packet sizeof_ethhdr sizeof_arp_hdr Nat.add] in *.
  explode d Hd. explode s Hs. explode sha Hsha. explode spa Hspa.
  explode dha Hdha. explode dpa Hdpa. explode obj Hobj.
  cbn [pkt_ethhdr pkt_arphdr h_dest h_source h_proto arp_hd arp_pr arp_hdl
       arp_prl arp_op arp_sha arp_spa arp_dha arp_dpa].
  run_layout.
  rewrite !u16_bytes, !u8_byte by assumption.
  reflexivity.
Qed.

Lemma sample_packet_wf : wf_packet sample_packet.
Proof.
  constructor; cbn; try reflexivity; unfold u16_range, u8_range; cbv; intuition discriminate.
Defined.

Lemma codec_round_trip_witness :
  wf_packet sample_packet /\
  List.length (fit sizeof_arp_packet []) = sizeof_arp_packet /\
  decode big_endian (encode little_endian sample_packet (fit sizeof_arp_packet []))
  = sample_packet.
Proof.
  split; [exact sample_packet_wf|]. split; [reflexivity|].
  apply (codec_round_trip little_endian big_endian sample_packet
           (fit sizeof_arp_packet []) sample_packet_wf eq_refl).
Defined.

(** ** Claims about one turn of the responder *)

Section ResponderClaims.

Variable host : byte_order.
Variable tapfd : Z.
Variable mac : list byte.

Lemma turn_buffer_length (w : world) (data : list byte) :
  List.length (read_into (fit 1500 (hd [] (w_stack w))) 1500 data) = 1500%nat.
Proof. apply read_into_length, fit_length. Qed.

(** The turn that answers: what is written is the reply built from the
    buffer, whatever else the buffer holds. *)
Lemma answering_turn (num : Z) (w : world) (data : list byte) (q : list rx_item)
      (buf : list byte) :
  w_rx w = rx_frame data :: q ->
  read_into (fit 1500 (hd [] (w_stack w))) 1500 data = buf ->
  (ETHER_ADDR_LEN <= List.length mac)%nat ->
  ethertype host buf = ETH_P_ARP ->
  exists tr st w' rep,
    runs_to (wait_n_reply_turn host tapfd mac num) w tr st w' /\
    writes tr = [rep] /\
    List.length rep = sizeof_arp_packet /\
    rep = firstn sizeof_arp_packet
            (synth_reply host mac buf (fit sizeof_arp_packet (hd [] (tl (w_stack w))))) /\
    (st = returned (inl (int_wrap (num + 1)))
     \/ st = exited 1 /\ hd (Z.of_nat (List.length rep)) (w_tx w) < 0).
Proof.
  intros E Hbuf Hmac Harp.
  assert (Hna : not_arp host buf = false).
  { rewrite not_arp_spec, Harp. reflexivity. }
  assert (Hlen : List.length buf = 1500%nat).
  { rewrite <- Hbuf. apply turn_buffer_length. }
  remember (fit sizeof_arp_packet (hd [] (tl (w_stack w)))) as rep0 eqn:Hrep0.
  remember (synth_reply host mac buf rep0) as rep eqn:Hrep.
  remember (firstn sizeof_arp_packet rep) as payload eqn:Hpay.
  remember (hd (Z.of_nat (List.length payload)) (w_tx w)) as r eqn:Hr.
  symmetry in Hrep0, Hrep, Hpay, Hr.
  assert (Hreplen : List.length rep = sizeof_arp_packet).
  { rewrite <- Hrep. apply synth_reply_length.
    - rewrite Hlen. cbv. lia.
    - assumption.
    - rewrite <- Hrep0. apply fit_length. }
  pose proof (turn_reply_runs host tapfd mac num w data q buf rep0 rep payload r
                E Hbuf Hrep0 Hrep Hpay Hr Hna) as T.
  do 3 eexists. exists payload. split; [exact T|].
  split; [|split; [|split]].
  - rewrite writes_app, writes_reply_obs. destruct (r <? 0); reflexivity.
  - rewrite <- Hpay, length_firstn, Hreplen. apply Nat.min_id.
  - reflexivity.
  - destruct (Z.ltb_spec r 0).
    + right. split; [reflexivity|]. rewrite Hr. assumption.
    + left. reflexivity.
Qed.

(** The fields of the reply, read off the buffer the request lies in. *)
Lemma reply_view (w : world) (buf rep : list byte) :
  List.length buf = 1500%nat ->
  (ETHER_ADDR_LEN <= List.length mac)%nat ->
  rep = firstn sizeof_arp_packet
          (synth_reply host mac buf (fit sizeof_arp_packet (hd [] (tl (w_stack w))))) ->
  decode host rep =
  let q := decode host buf in
  {| pkt_ethhdr :=
       {| h_dest := arp_sha (pkt_arphdr q);
          h_source := firstn ETHER_ADDR_LEN mac;
          h_proto := h_proto (pkt_ethhdr q) |};
     pkt_arphdr :=
       {| arp_hd := arp_hd (pkt_arphdr q);
          arp_pr := arp_pr (pkt_arphdr q);
          arp_hdl := arp_hdl (pkt_arphdr q);
          arp_prl := arp_prl (pkt_arphdr q);
          arp_op := ARPOP_REPLY;
          arp_sha := firstn ETHER_ADDR_LEN mac;
          arp_spa := arp_dpa (pkt_arphdr q);
          arp_dha := arp_sha (pkt_arphdr q);
          arp_dpa := arp_spa (pkt_arphdr q) |} |}.
Proof.
  intros Hlen Hmac ->. rewrite decode_firstn. apply decode_synth_reply.
  - rewrite Hlen. cbv. lia.
  - assumption.
  - apply fit_length.
Qed.

(** C1 -- Responder correctness: when the device delivers an ARP frame
    with sender hardware address SH, sender protocol address SP and target
    protocol address TP, and the local hardware address is LH, the turn
    writes one frame, whose Ethernet source is LH, Ethernet destination
    SH, opcode reply, ARP sender LH / TP and ARP target SH / SP.  The
    opcode of the frame received plays no part, so this holds of every
    request. *)
Theorem reply_swaps_roles (num : Z) (w : world) (data : list byte) (q : list rx_item)
        (SH SP TP LH : list byte) :
  w_rx w = rx_frame data :: q ->
  (sizeof_arp_packet <= List.length data)%nat ->
  (ETHER_ADDR_LEN <= List.length mac)%nat ->
  ethertype host data = ETH_P_ARP ->
  arp_sha (pkt_arphdr (decode host data)) = SH ->
  arp_spa (pkt_arphdr (decode host data)) = SP ->
  arp_dpa (pkt_arphdr (decode host data)) = TP ->
  firstn ETHER_ADDR_LEN mac = LH ->
  exists tr st w' rep,
    runs_to (wait_n_reply_turn host tapfd mac num) w tr st w' /\
    writes tr = [rep] /\
    h_source (pkt_ethhdr (decode host rep)) = LH /\
    h_dest (pkt_ethhdr (decode host rep)) = SH /\
    arp_op (pkt_arphdr (decode host rep)) = ARPOP_REPLY /\
    arp_sha (pkt_arphdr (decode host rep)) = LH /\
    arp_spa (pkt_arphdr (decode host rep)) = TP /\
    arp_dha (pkt_arphdr (decode host rep)) = SH /\
    arp_dpa (pkt_arphdr (decode host rep)) = SP.
Proof.
  intros E Hdata Hmac Harp HSH HSP HTP HLH.
  remember (read_into (fit 1500 (hd [] (w_stack w))) 1500 data) as buf eqn:Hbuf.
  symmetry in Hbuf.
  assert (Hview : decode host buf = decode host data).
  { rewrite <- Hbuf. apply decode_read_into. assumption. }
  assert (Harp' : ethertype host buf = ETH_P_ARP).
  { unfold ethertype. rewrite Hview. exact Harp. }
  destruct (answering_turn num w data q buf E Hbuf Hmac Harp')
    as (tr & st & w' & rep & Hrun & Hw & _ & Hrep & _).
  exists tr, st, w', rep. split; [exact Hrun|]. split; [exact Hw|].
  assert (Hlen : List.length buf = 1500%nat).
  { rewrite <- Hbuf. apply turn_buffer_length. }
  rewrite (reply_view w buf rep Hlen Hmac Hrep). cbv zeta.
  rewrite Hview.
  cbn [pkt_ethhdr pkt_arphdr h_dest h_source arp_op arp_sha arp_spa arp_dha arp_dpa].
  repeat split; assumption || reflexivity.
Qed.

(** C9 -- What the responder does not rewrite it copies: the Ethernet
    protocol field, the two address-space identifiers and the two address
    lengths of the frame written equal those of the ARP frame received,
    whatever they are, and so do the bytes that hold them. *)
Theorem reply_keeps_other_fields (num : Z) (w : world) (data : list byte)
        (q : list rx_item) :
  w_rx w = rx_frame data :: q ->
  (sizeof_arp_packet <= List.length data)%nat ->
  (ETHER_ADDR_LEN <= List.length mac)%nat ->
  ethertype host data = ETH_P_ARP ->
  exists tr st w' rep,
    runs_to (wait_n_reply_turn host tapfd mac num) w tr st w' /\
    writes tr = [rep] /\
    h_proto (pkt_ethhdr (decode host rep)) = h_proto (pkt_ethhdr (decode host data)) /\
    arp_hd (pkt_arphdr (decode host rep)) = arp_hd (pkt_arphdr (decode host data)) /\
    arp_pr (pkt_arphdr (decode host rep)) = arp_pr (pkt_arphdr (decode host data)) /\
    arp_hdl (pkt_arphdr (decode host rep)) = arp_hdl (pkt_arphdr (decode host data)) /\
    arp_prl (pkt_arphdr (decode host rep)) = arp_prl (pkt_arphdr (decode host data)) /\
    firstn 8 (skipn off_h_proto rep) = firstn 8 (skipn off_h_proto data).
Proof.
  intros E Hdata Hmac Harp.
  remember (read_into (fit 1500 (hd [] (w_stack w))) 1500 data) as buf eqn:Hbuf.
  symmetry in Hbuf.
  assert (Hview : decode host buf = decode host data).
  { rewrite <- Hbuf. apply decode_read_into. assumption. }
  assert (Harp' : ethertype host buf = ETH_P_ARP).
  { unfold ethertype. rewrite Hview. exact Harp. }
  destruct (answering_turn num w data q buf E Hbuf Hmac Harp')
    as (tr & st & w' & rep & Hrun & Hw & _ & Hrep & _).
  exists tr, st, w', rep. split; [exact Hrun|]. split; [exact Hw|].
  assert (Hlen : List.length buf = 1500%nat).
  { rewrite <- Hbuf. apply turn_buffer_length. }
  rewrite (reply_view w buf rep Hlen Hmac Hrep). cbv zeta.
  rewrite Hview.
  cbn [pkt_ethhdr pkt_arphdr h_proto arp_hd arp_pr arp_hdl arp_prl].
  repeat (split; [reflexivity|]).
  assert (Hpre : firstn sizeof_arp_packet buf = firstn sizeof_arp_packet data).
  { rewrite <- Hbuf. apply read_into_firstn; [cbv; lia|assumption]. }
  rewrite <- (firstn_skipn_firstn 8 off_h_proto sizeof_arp_packet data) by (cbv; lia).
  rewrite <- Hpre.
  rewrite (firstn_skipn_firstn 8 off_h_proto sizeof_arp_packet buf) by (cbv; lia).
  rewrite Hrep. apply synth_reply_untouched.
  - rewrite Hlen. cbv. lia.
  - assumption.
  - apply fit_length.
Qed.

(** C5 -- Filtering: for a received frame whose Ethernet protocol field
    is not ARP the turn shows the [read] and nothing else, no reply and no
    output, and the next turn starts with the same counter; the loop then
    runs as it does from that counter once the frame is gone. *)
Theorem non_arp_frame_is_dropped (num : Z) (w : world) (data : list byte)
        (q : list rx_item) :
  w_rx w = rx_frame data :: q ->
  (sizeof_ethhdr <= List.length data)%nat ->
  ethertype host data <> ETH_P_ARP ->
  runs_to (wait_n_reply_turn host tapfd mac num) w
          [o_read tapfd 1500 (Z.of_nat (List.length (firstn 1500 data)))]
          (returned (inl num)) (pop_rx (pop_stack w)) /\
  forall tr st w',
    runs_to (ITree.iter (wait_n_reply_turn host tapfd mac) num)
            (pop_rx (pop_stack w)) tr st w' ->
    runs_to (ITree.iter (wait_n_reply_turn host tapfd mac) num) w
            (o_read tapfd 1500 (Z.of_nat (List.length (firstn 1500 data))) :: tr)
            st w'.
Proof.
  intros E Hdata Hother.
  assert (Hturn : runs_to (wait_n_reply_turn host tapfd mac num) w
                    [o_read tapfd 1500 (Z.of_nat (List.length (firstn 1500 data)))]
                    (returned (inl num)) (pop_rx (pop_stack w))).
  { eapply turn_skip; [exact E|reflexivity|].
    rewrite not_arp_spec, ethertype_read_into by assumption.
    apply Z.eqb_neq in Hother. rewrite Hother. reflexivity. }
  split; [exact Hturn|].
  intros tr st w' Hrest.
  change (o_read tapfd 1500 (Z.of_nat (List.length (firstn 1500 data))) :: tr)
    with ([o_read tapfd 1500 (Z.of_nat (List.length (firstn 1500 data)))] ++ tr).
  eapply runs_iter_again; [exact Hturn|exact Hrest].
Qed.

(** C6 (as amended) -- A received byte sequence shorter than the frame
    size is not checked for its length.  It never by itself ends the
    process.  It is dropped exactly when bytes 12 and 13 of the buffer it
    was read into are not the ARP protocol number; otherwise the first 42
    bytes of the buffer, the received bytes followed by what the buffer
    held before, are taken for a frame and the reply to it is written. *)
Theorem short_frame_is_not_checked (num : Z) (w : world) (data : list byte)
        (q : list rx_item) (buf : list byte) :
  w_rx w = rx_frame data :: q ->
  (List.length data < sizeof_arp_packet)%nat ->
  (ETHER_ADDR_LEN <= List.length mac)%nat ->
  read_into (fit 1500 (hd [] (w_stack w))) 1500 data = buf ->
  exists tr st w',
    runs_to (wait_n_reply_turn host tapfd mac num) w tr st w' /\
    (ethertype host buf <> ETH_P_ARP ->
     writes tr = [] /\ st = returned (inl num)) /\
    (ethertype host buf = ETH_P_ARP ->
     writes tr = [firstn sizeof_arp_packet
                    (synth_reply host mac buf
                       (fit sizeof_arp_packet (hd [] (tl (w_stack w)))))] /\
     (st = returned (inl (int_wrap (num + 1)))
      \/ st = exited 1 /\ hd (Z.of_nat sizeof_arp_packet) (w_tx w) < 0)) /\
    ((sizeof_ethhdr <= List.length data)%nat ->
     ethertype host buf = ethertype host data).
Proof.
  intros E Hshort Hmac Hbuf.
  assert (Hown : (sizeof_ethhdr <= List.length data)%nat ->
                 ethertype host buf = ethertype host data).
  { intros H. rewrite <- Hbuf. apply ethertype_read_into. assumption. }
  destruct (Z.eq_dec (ethertype host buf) ETH_P_ARP) as [Harp|Hother].
  - destruct (answering_turn num w data q buf E Hbuf Hmac Harp)
      as (tr & st & w' & rep & Hrun & Hw & Hreplen & Hrep & Hst).
    exists tr, st, w'. split; [exact Hrun|]. split; [contradiction|].
    split; [|exact Hown]. intros _. split.
    + rewrite Hw, Hrep. reflexivity.
    + rewrite Hreplen in Hst. exact Hst.
  - assert (Hna : not_arp host buf = true).
    { rewrite not_arp_spec. apply Z.eqb_neq in Hother. rewrite Hother. reflexivity. }
    do 3 eexists. split; [eapply turn_skip; eassumption|].
    split; [|split; [contradiction|exact Hown]].
    intros _. split; reflexivity.
Qed.

End ResponderClaims.

(** *** The claims at work on the sample data *)

Lemma reply_swaps_roles_witness :
  w_rx (sample_world [rx_frame sample_request]) = rx_frame sample_request :: [] /\
  (sizeof_arp_packet <= List.length sample_request)%nat /\
  (ETHER_ADDR_LEN <= List.length sample_mac)%nat /\
  ethertype little_endian sample_request = ETH_P_ARP /\
  exists tr st w' rep,
    runs_to (wait_n_reply_turn little_endian 3 sample_mac 0)
            (sample_world [rx_frame sample_request]) tr st w' /\
    writes tr = [rep] /\
    h_source (pkt_ethhdr (decode little_endian rep)) = sample_mac /\
    h_dest (pkt_ethhdr (decode little_endian rep)) = [x11; x22; x33; x44; x55; x66] /\
    arp_op (pkt_arphdr (decode little_endian rep)) = ARPOP_REPLY /\
    arp_sha (pkt_arphdr (decode little_endian rep)) = sample_mac /\
    arp_spa (pkt_arphdr (decode little_endian rep)) = [xac; x10; x3c; xfa] /\
    arp_dha (pkt_arphdr (decode little_endian rep)) = [x11; x22; x33; x44; x55; x66] /\
    arp_dpa (pkt_arphdr (decode little_endian rep)) = [xac; x10; x3c; x9d].
Proof.
  split; [reflexivity|]. split; [cbv; lia|]. split; [cbv; lia|].
  split; [reflexivity|].
  apply (reply_swaps_roles little_endian 3 sample_mac 0
           (sample_world [rx_frame sample_request]) sample_request []
           [x11; x22; x33; x44; x55; x66] [xac; x10; x3c; x9d] [xac; x10; x3c; xfa]
           sample_mac);
    [reflexivity|cbv; lia|cbv; lia|reflexivity..].
Defined.

Lemma reply_keeps_other_fields_witness :
  exists tr st w' rep,
    runs_to (wait_n_reply_turn big_endian 3 sample_mac 0)
            (sample_world [rx_frame sample_request]) tr st w' /\
    writes tr = [rep] /\
    h_proto (pkt_ethhdr (decode big_endian rep))
    = h_proto (pkt_ethhdr (decode big_endian sample_request)) /\
    arp_hd (pkt_arphdr (decode big_endian rep))
    = arp_hd (pkt_arphdr (decode big_endian sample_request)) /\
    arp_pr (pkt_arphdr (decode big_endian rep))
    = arp_pr (pkt_arphdr (decode big_endian sample_request)) /\
    arp_hdl (pkt_arphdr (decode big_endian rep))
    = arp_hdl (pkt_arphdr (decode big_endian sample_request)) /\
    arp_prl (pkt_arphdr (decode big_endian rep))
    = arp_prl (pkt_arphdr (decode big_endian sample_request)) /\
    firstn 8 (skipn off_h_proto rep) = firstn 8 (skipn off_h_proto sample_request).
Proof.
  apply (reply_keeps_other_fields big_endian 3 sample_mac 0
           (sample_world [rx_frame sample_request]) sample_request []);
    [reflexivity|cbv; lia|cbv; lia|reflexivity].
Defined.

Lemma non_arp_frame_is_dropped_witness :
  runs_to (wait_n_reply_turn little_endian 3 sample_mac 7)
          (sample_world [rx_frame sample_ipv4])
          [o_read 3 1500 18] (returned (inl 7))
          (pop_rx (pop_stack (sample_world [rx_frame sample_ipv4]))).
Proof.
  apply (proj1 (non_arp_frame_is_dropped little_endian 3 sample_mac 7
                  (sample_world [rx_frame sample_ipv4]) sample_ipv4 []
                  eq_refl ltac:(cbv; lia) ltac:(discriminate))).
Defined.

(** C6, the claim as stated, fails: [sample_short] has 14 bytes, fewer
    than the 42 of a frame, and carries the ARP protocol number; the
    responder does not drop it but writes a reply built from it and from
    the 28 bytes that follow it in the buffer. *)
Lemma short_frame_is_answered :
  (List.length sample_short < sizeof_arp_packet)%nat /\
  writes (out_trace (run 64 (wait_n_reply_turn little_endian 3 sample_mac 0)
                         (sample_world [rx_frame sample_short])))
  = [sample_short_reply] /\
  out_status (run 64 (wait_n_reply_turn little_endian 3 sample_mac 0)
                  (sample_world [rx_frame sample_short]))
  = returned (inl 1).
Proof. split; [cbv; lia|split; vm_compute; reflexivity]. Qed.

Lemma short_frame_is_not_checked_witness :
  exists tr st w',
    runs_to (wait_n_reply_turn little_endian 3 sample_mac 0)
            (sample_world [rx_frame sample_short]) tr st w' /\
    (ethertype little_endian (read_into (fit 1500 []) 1500 sample_short) <> ETH_P_ARP ->
     writes tr = [] /\ st = returned (inl 0)) /\
    (ethertype little_endian (read_into (fit 1500 []) 1500 sample_short) = ETH_P_ARP ->
     writes tr = [firstn sizeof_arp_packet
                    (synth_reply little_endian sample_mac
                       (read_into (fit 1500 []) 1500 sample_short)
                       (fit sizeof_arp_packet []))] /\
     (st = returned (inl (int_wrap (0 + 1)))
      \/ st = exited 1 /\ hd (Z.of_nat sizeof_arp_packet) [] < 0)) /\
    ((sizeof_ethhdr <= List.length sample_short)%nat ->
     ethertype little_endian (read_into (fit 1500 []) 1500 sample_short)
     = ethertype little_endian sample_short).
Proof.
  apply (short_frame_is_not_checked little_endian 3 sample_mac 0
           (sample_world [rx_frame sample_short]) sample_short []
           (read_into (fit 1500 []) 1500 sample_short));
    [reflexivity|cbv; lia|cbv; lia|reflexivity].
Defined.

(** ** Failing calls *)

Lemma exit_code_halt {R : Type} (h : halt) :
  exit_code (status_of_halt h : status R) = halt_code h.
Proof. destruct h; reflexivity. Qed.

Lemma fails_fatally_nil (code : option Z) : fails_fatally [] code.
Proof. intros [|x pre] o post E; discriminate E. Qed.

Lemma fails_fatally_cons (o : obs) (tr : list obs) (code : option Z) :
  failed o = false -> fails_fatally tr code -> fails_fatally (o :: tr) code.
Proof.
  intros Hok H pre o' post E F.
  destruct pre as [|x pre]; cbn in E; inversion E; subst.
  - congruence.
  - eapply H; [reflexivity|assumption].
Qed.

Lemma fails_fatally_app (a tr : list obs) (code : option Z) :
  Forall (fun o => failed o = false) a ->
  fails_fatally tr code -> fails_fatally (a ++ tr) code.
Proof.
  induction 1 as [|o a Ho Ha IH]; intros H; [exact H|].
  cbn [app]. apply fails_fatally_cons; [exact Ho|]. apply IH. exact H.
Qed.

Lemma fails_fatally_all_ok (tr : list obs) (code : option Z) :
  Forall (fun o => failed o = false) tr -> fails_fatally tr code.
Proof.
  intros H. rewrite <- (app_nil_r tr). apply fails_fatally_app; [exact H|apply fails_fatally_nil].
Qed.

Lemma fails_fatally_last (o : obs) :
  failed o = true -> fails_fatally [o; o_perror (op_name o); o_exit 1] (Some 1).
Proof.
  intros Ho pre o' post E F.
  destruct pre as [|x [|y [|z pre]]]; cbn in E; inversion E; subst.
  - split; reflexivity.
  - discriminate F.
  - discriminate F.
  - destruct pre; discriminate.
Qed.

Lemma fails_fatally_none (tr : list obs) :
  fails_fatally tr None -> Forall (fun o => failed o = false) tr.
Proof.
  intros H. apply Forall_forall. intros o Hin.
  destruct (failed o) eqn:F; [|reflexivity].
  destruct (in_split _ _ Hin) as (pre & post & E).
  destruct (H pre o post E F) as [_ Hcode]. discriminate Hcode.
Qed.

Lemma packet_obs_ok (host : byte_order) (p : list byte) :
  Forall (fun o => failed o = false) (packet_obs host p).
Proof. unfold packet_obs. repeat constructor. Qed.

Lemma reply_obs_split host tapfd num n req rep payload r :
  reply_obs host tapfd num n req rep payload r =
  ([o_read tapfd 1500 n;
    o_printf ("Packet ARP Request #%d.1" ++ LF)%string [arg_int num]]
   ++ packet_obs host req
   ++ [o_printf ("Packet ARP Reply #%d.2" ++ LF)%string [arg_int num]]
   ++ packet_obs host rep)
  ++ [o_write tapfd payload r].
Proof. unfold reply_obs. rewrite <- !app_assoc. reflexivity. Qed.

Lemma reply_obs_front_ok host tapfd num n req rep :
  (n <? 0) = false ->
  Forall (fun o => failed o = false)
    ([o_read tapfd 1500 n;
      o_printf ("Packet ARP Request #%d.1" ++ LF)%string [arg_int num]]
     ++ packet_obs host req
     ++ [o_printf ("Packet ARP Reply #%d.2" ++ LF)%string [arg_int num]]
     ++ packet_obs host rep).
Proof.
  intros Hn. repeat (apply Forall_app; split); try apply packet_obs_ok;
    repeat constructor; assumption.
Qed.

Section FatalFailures.

Variable host : byte_order.
Variable tapfd : Z.

Lemma wait_n_reply_loop_fatal mac num w tr h w' :
  wait_n_reply_loop host tapfd mac num w tr h w' -> fails_fatally tr (halt_code h).
Proof.
  induction 1 as [num w E|num w q E
                 |num w data q buf tr h w' E Hbuf Hna Hrest IH
                 |num w data q buf rep0 rep payload r tr h w'
                      E Hbuf Hrep0 Hrep Hpay Hr Hna Hneg Hrest IH
                 |num w data q buf rep0 rep payload r
                      E Hbuf Hrep0 Hrep Hpay Hr Hna Hneg].
  - apply fails_fatally_nil.
  - apply (fails_fatally_last (o_read tapfd 1500 (-1))). reflexivity.
  - apply fails_fatally_cons; [apply read_count_nonneg|exact IH].
  - rewrite reply_obs_split, <- app_assoc.
    apply fails_fatally_app; [apply reply_obs_front_ok, read_count_nonneg|].
    cbn [app]. apply fails_fatally_cons; [exact Hneg|exact IH].
  - rewrite reply_obs_split, <- app_assoc.
    apply fails_fatally_app; [apply reply_obs_front_ok, read_count_nonneg|].
    cbn [app]. apply (fails_fatally_last (o_write tapfd payload r)). exact Hneg.
Qed.

Lemma req_n_wait_loop_fatal w tr st w' :
  req_n_wait_loop host tapfd w tr st w' -> fails_fatally tr (exit_code st).
Proof.
  induction 1 as [w E|w q E|w data q buf tr st w' E Hbuf Hna Hrest IH|w data q buf E Hbuf Hna].
  - apply fails_fatally_nil.
  - apply (fails_fatally_last (o_read tapfd 1500 (-1))). reflexivity.
  - apply fails_fatally_cons; [apply read_count_nonneg|exact IH].
  - apply fails_fatally_cons; [apply read_count_nonneg|].
    apply fails_fatally_cons; [reflexivity|]. apply fails_fatally_all_ok, packet_obs_ok.
Qed.

Lemma req_n_wait_obs_split req payload r :
  req_n_wait_obs host tapfd req payload r =
  ([o_printf ("Request and wait mode!" ++ LF)%string [];
    o_printf ("This mode sends an ARP request to retrieve MAC of an arbitrary device!"
              ++ LF)%string [];
    o_printf ("Packet ARP Request 0.1" ++ LF)%string []]
   ++ packet_obs host req)
  ++ [o_write tapfd payload r].
Proof. unfold req_n_wait_obs. rewrite <- !app_assoc. reflexivity. Qed.

Lemma req_n_wait_obs_front_ok req :
  Forall (fun o => failed o = false)
    ([o_printf ("Request and wait mode!" ++ LF)%string [];
      o_printf ("This mode sends an ARP request to retrieve MAC of an arbitrary device!"
                ++ LF)%string [];
      o_printf ("Packet ARP Request 0.1" ++ LF)%string []]
     ++ packet_obs host req).
Proof.
  apply Forall_app; split; [repeat constructor|apply packet_obs_ok].
Qed.

Lemma req_n_wait_run_fatal mac w tr st w' :
  req_n_wait_run host tapfd mac w tr st w' -> fails_fatally tr (exit_code st).
Proof.
  intros H.
  destruct H as [w req0 req payload r Hreq0 Hreq Hpay Hr Hneg
                |w req0 req payload r tr st w' Hreq0 Hreq Hpay Hr Hneg Hloop].
  - rewrite req_n_wait_obs_split, <- app_assoc.
    apply fails_fatally_app; [apply req_n_wait_obs_front_ok|].
    cbn [app]. apply (fails_fatally_last (o_write tapfd payload r)). exact Hneg.
  - rewrite req_n_wait_obs_split, <- app_assoc.
    apply fails_fatally_app; [apply req_n_wait_obs_front_ok|].
    cbn [app]. apply fails_fatally_cons; [exact Hneg|].
    apply req_n_wait_loop_fatal in Hloop. exact Hloop.
Qed.

End FatalFailures.

Lemma setup_obs_ok (fd r1 r2 : Z) (mac : list byte) :
  (fd <? 0) = false -> (r1 <? 0) = false -> (r2 <? 0) = false ->
  Forall (fun o => failed o = false) (setup_obs fd r1 r2 mac).
Proof. intros H0 H1 H2. unfold setup_obs. repeat constructor; assumption. Qed.

Lemma main_run_fatal mode host w tr st w' :
  main_run mode host w tr st w' -> fails_fatally tr (exit_code st).
Proof.
  intros H.
  destruct H as [w fd Hfd Hfdneg
                |w fd r1 Hfd Hfdneg Hr1 Hr1neg
                |w fd r1 ifr1 r2 Hfd Hfdneg Hr1 Hr1neg Hifr1 Hr2 Hr2neg
                |w fd r1 ifr1 r2 mac tr h w' Hfd Hfdneg Hr1 Hr1neg Hifr1 Hr2 Hr2neg Hmac Hmode Hloop
                |w fd r1 ifr1 r2 mac tr h w' Hfd Hfdneg Hr1 Hr1neg Hifr1 Hr2 Hr2neg Hmac Hmode Hrun
                |w fd r1 ifr1 r2 mac tr w' Hfd Hfdneg Hr1 Hr1neg Hifr1 Hr2 Hr2neg Hmac Hmode Hrun].
  - apply (fails_fatally_last (o_open "/dev/net/tun" O_RDWR fd)). exact Hfdneg.
  - apply fails_fatally_cons; [exact Hfdneg|].
    apply (fails_fatally_last (o_ioctl fd TUNSETIFF r1)). exact Hr1neg.
  - apply fails_fatally_cons; [exact Hfdneg|]. apply fails_fatally_cons; [exact Hr1neg|].
    apply (fails_fatally_last (o_ioctl fd SIOCGIFHWADDR r2)). exact Hr2neg.
  - apply fails_fatally_app; [apply setup_obs_ok; assumption|].
    apply fails_fatally_cons; [reflexivity|]. rewrite exit_code_halt.
    eapply wait_n_reply_loop_fatal. eassumption.
  - apply fails_fatally_app; [apply setup_obs_ok; assumption|].
    apply req_n_wait_run_fatal in Hrun.
    rewrite exit_code_halt in Hrun. rewrite exit_code_halt. exact Hrun.
  - apply fails_fatally_app; [apply setup_obs_ok; assumption|].
    apply req_n_wait_run_fatal in Hrun. cbn [exit_code] in Hrun.
    apply fails_fatally_all_ok. apply Forall_app. split.
    + apply fails_fatally_none. exact Hrun.
    + repeat constructor.
Qed.

(** On a device that delivers finitely many frames, [main] always comes
    to an end: it returns, exits, or blocks in [read]. *)
Lemma main_total (mode : Z) (host : byte_order) (w : world) :
  exists tr st w', runs_to (main_mode mode host) w tr st w'.
Proof.
  destruct (main_run_total mode host w) as (tr & st & w' & H).
  exists tr, st, w'. apply main_run_runs. exact H.
Qed.

(** C7 -- Failure semantics: in every run of [main], in either mode, a
    failing [open], [ioctl] (attach or hardware-address query), [read] or
    [write] is followed by [perror] with the name of the failing
    operation and by [exit(1)], and by nothing else: no retry and no
    further call. *)
Theorem transport_failure_is_fatal (mode : Z) (host : byte_order) (w : world)
        (tr : list obs) (st : status Z) (w' : world) (pre : list obs) (o : obs)
        (post : list obs) :
  runs_to (main_mode mode host) w tr st w' ->
  tr = pre ++ o :: post ->
  failed o = true ->
  post = [o_perror (op_name o); o_exit 1] /\ st = exited 1.
Proof.
  intros Hrun E F.
  apply main_runs_inv, main_run_fatal in Hrun.
  destruct (Hrun pre o post E F) as [Hpost Hcode].
  split; [exact Hpost|].
  destruct st; cbn in Hcode; inversion Hcode. reflexivity.
Qed.

Lemma transport_failure_is_fatal_witness :
  runs_to (main little_endian) sample_read_failure
          (setup_obs 3 0 0 (fit 14 sample_mac)
           ++ [wait_n_reply_banner; o_read 3 1500 (-1);
               o_perror "read packet"; o_exit 1])
          (exited 1) (pop_rx (pop_stack sample_read_failure)) /\
  failed (o_read 3 1500 (-1)) = true /\
  [o_perror "read packet"; o_exit 1] = [o_perror (op_name (o_read 3 1500 (-1))); o_exit 1] /\
  @exited Z 1 = exited 1.
Proof.
  assert (H : runs_to (main little_endian) sample_read_failure
                (setup_obs 3 0 0 (fit 14 sample_mac)
                 ++ [wait_n_reply_banner; o_read 3 1500 (-1);
                     o_perror "read packet"; o_exit 1])
                (exited 1) (pop_rx (pop_stack sample_read_failure))).
  { split; [discriminate|]. exists 64%nat. vm_compute. reflexivity. }
  split; [exact H|]. split; [reflexivity|].
  apply (transport_failure_is_fatal MODE little_endian sample_read_failure _ _ _
           (setup_obs 3 0 0 (fit 14 sample_mac) ++ [wait_n_reply_banner])
           (o_read 3 1500 (-1)) [o_perror "read packet"; o_exit 1] H);
    reflexivity.
Defined.

(** ** Facts about the requester *)

Lemma nth_0_hd {A : Type} (l : list A) (d : A) : nth 0 l d = hd d l.
Proof. destruct l; reflexivity. Qed.

Lemma nth_S_tl {A : Type} (n : nat) (l : list A) (d : A) :
  nth (S n) l d = nth n (tl l) d.
Proof. destruct l; [destruct n|]; reflexivity. Qed.

Section RequesterFacts.

Variable host : byte_order.
Variable tapfd : Z.

Lemma req_n_wait_loop_no_write w tr st w' :
  req_n_wait_loop host tapfd w tr st w' -> writes tr = [].
Proof.
  induction 1 as [w E|w q E|w data q buf tr st w' E Hbuf Hna Hrest IH|w data q buf E Hbuf Hna].
  - reflexivity.
  - reflexivity.
  - exact IH.
  - reflexivity.
Qed.

(** The loop returns only after it printed a buffer that passed the
    filter; all it did before the [read] of that buffer is [read]. *)
Lemma req_n_wait_loop_returned w tr r w' :
  req_n_wait_loop host tapfd w tr (returned r) w' ->
  exists ns n buf,
    tr = map (fun k => o_read tapfd 1500 k) ns
         ++ o_read tapfd 1500 n
         :: o_printf ("Packet ARP Reply 0.2" ++ LF)%string [] :: packet_obs host buf /\
    ethertype host buf = ETH_P_ARP.
Proof.
  intros H. remember (returned r) as st eqn:Hst.
  induction H as [w E|w q E|w data q buf tr st w' E Hbuf Hna Hrest IH|w data q buf E Hbuf Hna];
    try discriminate Hst.
  - destruct (IH Hst) as (ns & n & buf0 & -> & Harp).
    exists (Z.of_nat (List.length (firstn 1500 data)) :: ns), n, buf0.
    split; [reflexivity|exact Harp].
  - exists [], (Z.of_nat (List.length (firstn 1500 data))), buf. split; [reflexivity|].
    rewrite not_arp_spec in Hna. apply negb_false_iff, Z.eqb_eq in Hna. exact Hna.
Qed.

(** Frames that are not ARP are read and dropped, nothing else is done
    with them; the first ARP frame is printed and ends the loop. *)
Lemma req_n_wait_loop_first_arp (frames : list (list byte)) :
  forall (w : world) (data : list byte) (q : list rx_item) (junk : list byte),
    w_rx w = map rx_frame frames ++ rx_frame data :: q ->
    Forall (fun f => (sizeof_ethhdr <= List.length f)%nat
                     /\ ethertype host f <> ETH_P_ARP) frames ->
    (sizeof_ethhdr <= List.length data)%nat ->
    ethertype host data = ETH_P_ARP ->
    fit 1500 (nth (List.length frames) (w_stack w) []) = junk ->
    exists w',
      req_n_wait_loop host tapfd w
        (map (fun f => o_read tapfd 1500 (read_size f)) frames
         ++ o_read tapfd 1500 (read_size data)
         :: o_printf ("Packet ARP Reply 0.2" ++ LF)%string []
         :: packet_obs host (read_into junk 1500 data))
        (returned tt) w' /\
      w_rx w' = q.
Proof.
  induction frames as [|f frames IH]; intros w data q junk E Hframes Hdata Harp Hjunk.
  - cbn [map app List.length] in *. rewrite nth_0_hd in Hjunk.
    eexists. split.
    + eapply ql_accept; [exact E|rewrite Hjunk; reflexivity|].
      rewrite not_arp_spec, ethertype_read_into, Harp by assumption. reflexivity.
    + norm_world. rewrite E. reflexivity.
  - cbn [map app List.length] in *. rewrite nth_S_tl in Hjunk.
    inversion Hframes as [|f' frames' [Hf Hother] Hrest]; subst f' frames'.
    destruct (IH (pop_rx (pop_stack w)) data q junk) as (w' & Hloop & Hq);
      try assumption.
    { norm_world. rewrite E. reflexivity. }
    exists w'. split; [|exact Hq].
    eapply ql_skip; [exact E|reflexivity| |exact Hloop].
    rewrite not_arp_spec, ethertype_read_into by assumption.
    apply Z.eqb_neq in Hother. rewrite Hother. reflexivity.
Qed.

Lemma req_n_wait_run_returned mac w tr r w' :
  req_n_wait_run host tapfd mac w tr (returned r) w' ->
  exists req payload wr ns n buf,
    tr = req_n_wait_obs host tapfd req payload wr
         ++ map (fun k => o_read tapfd 1500 k) ns
         ++ o_read tapfd 1500 n
         :: o_printf ("Packet ARP Reply 0.2" ++ LF)%string [] :: packet_obs host buf /\
    ethertype host buf = ETH_P_ARP.
Proof.
  intros H. remember (returned r) as st eqn:Hst.
  destruct H as [w req0 req payload r0 Hreq0 Hreq Hpay Hr Hneg
                |w req0 req payload r0 tr st w' Hreq0 Hreq Hpay Hr Hneg Hloop];
    [discriminate Hst|]. subst st.
  destruct (req_n_wait_loop_returned _ _ _ _ Hloop) as (ns & n & buf & -> & Harp).
  exists req, payload, r0, ns, n, buf.
  split; [reflexivity|exact Harp].
Qed.

Lemma requester_single_write (mac : list byte) (w : world) :
  exists tr st w',
    runs_to (req_n_wait host tapfd mac) w tr st w' /\
    writes tr = [firstn sizeof_arp_packet
                   (build_request host mac (fit sizeof_arp_packet (hd [] (w_stack w))))].
Proof.
  destruct (req_n_wait_run_total host tapfd mac w) as (tr & st & w' & Hrun).
  pose proof (req_n_wait_runs _ _ _ _ _ _ _ Hrun) as Hruns.
  exists tr, st, w'. split; [exact Hruns|].
  destruct Hrun as [w req0 req payload r Hreq0 Hreq Hpay Hr Hneg
                   |w req0 req payload r tr st w' Hreq0 Hreq Hpay Hr Hneg Hloop];
    subst req0 req payload.
  - rewrite writes_app, writes_req_n_wait_obs. reflexivity.
  - rewrite writes_app, writes_req_n_wait_obs,
      (req_n_wait_loop_no_write _ _ _ _ Hloop). reflexivity.
Qed.

End RequesterFacts.

Lemma main_run_returned mode host w tr r w' :
  main_run mode host w tr (returned r) w' ->
  mode <> 0 /\ r = 0 /\
  exists r1 r2 mac req payload wr ns n buf,
    tr = setup_obs (w_open w) r1 r2 mac
         ++ req_n_wait_obs host (w_open w) req payload wr
         ++ map (fun k => o_read (w_open w) 1500 k) ns
         ++ o_read (w_open w) 1500 n
         :: o_printf ("Packet ARP Reply 0.2" ++ LF)%string []
         :: packet_obs host buf ++ [o_close (w_open w)] /\
    ethertype host buf = ETH_P_ARP.
Proof.
  intros H. remember (returned r) as st eqn:Hst.
  destruct H as [w fd Hfd Hfdneg
                |w fd r1 Hfd Hfdneg Hr1 Hr1neg
                |w fd r1 ifr1 r2 Hfd Hfdneg Hr1 Hr1neg Hifr1 Hr2 Hr2neg
                |w fd r1 ifr1 r2 mac tr h w' Hfd Hfdneg Hr1 Hr1neg Hifr1 Hr2 Hr2neg Hmac Hmode Hloop
                |w fd r1 ifr1 r2 mac tr h w' Hfd Hfdneg Hr1 Hr1neg Hifr1 Hr2 Hr2neg Hmac Hmode Hrun
                |w fd r1 ifr1 r2 mac tr w' Hfd Hfdneg Hr1 Hr1neg Hifr1 Hr2 Hr2neg Hmac Hmode Hrun];
    try discriminate Hst; try (destruct h; discriminate Hst).
  inversion Hst; subst r.
  split; [apply Z.eqb_neq; exact Hmode|]. split; [reflexivity|].
  destruct (req_n_wait_run_returned _ _ _ _ _ _ _ Hrun)
    as (req & payload & wr & ns & n & buf & -> & Harp).
  exists r1, r2, mac, req, payload, wr, ns, n, buf.
  split; [|exact Harp]. rewrite Hfd.
  repeat (progress cbn [app] || rewrite <- app_assoc). reflexivity.
Qed.

(** ** Claims about the requester *)

Section RequesterClaims.

Variable host : byte_order.
Variable tapfd : Z.

(** C8 -- Requester termination.  First part: once the request is
    written, the engine drops every received frame whose Ethernet protocol
    is not ARP, showing of each its [read] and nothing else, and at the
    first frame whose protocol is ARP it prints that frame and returns,
    leaving the rest of the queue unread; the whole trace of the run is
    the request, these [read]s and that print.  Nothing is assumed of the
    frame that ends the run but its protocol field, neither its opcode nor
    its addresses.  Second part: [main] returns only in requester mode,
    with status 0, and a run that returns did this and nothing else: it
    attached to the device, printed and wrote the request, made [read]s,
    printed a buffer that passed the ARP filter and closed the device. *)
Theorem requester_stops_at_first_arp_frame :
  (forall (mac : list byte) (w : world) (frames : list (list byte))
          (data : list byte) (q : list rx_item)
          (req payload : list byte) (r : Z) (junk : list byte),
      w_rx w = map rx_frame frames ++ rx_frame data :: q ->
      Forall (fun f => (sizeof_ethhdr <= List.length f)%nat
                       /\ ethertype host f <> ETH_P_ARP) frames ->
      (sizeof_ethhdr <= List.length data)%nat ->
      ethertype host data = ETH_P_ARP ->
      build_request host mac (fit sizeof_arp_packet (hd [] (w_stack w))) = req ->
      firstn sizeof_arp_packet req = payload ->
      hd (Z.of_nat (List.length payload)) (w_tx w) = r ->
      0 <= r ->
      fit 1500 (nth (S (List.length frames)) (w_stack w) []) = junk ->
      exists w',
        runs_to (req_n_wait host tapfd mac) w
                (req_n_wait_obs host tapfd req payload r
                 ++ map (fun f => o_read tapfd 1500 (read_size f)) frames
                 ++ o_read tapfd 1500 (read_size data)
                 :: o_printf ("Packet ARP Reply 0.2" ++ LF)%string []
                 :: packet_obs host (read_into junk 1500 data))
                (returned tt) w' /\
        w_rx w' = q) /\
  (forall (mode : Z) (w : world) (tr : list obs) (r : Z) (w' : world),
      runs_to (main_mode mode host) w tr (returned r) w' ->
      mode <> 0 /\ r = 0 /\
      exists r1 r2 mac req payload wr ns n buf,
        tr = setup_obs (w_open w) r1 r2 mac
             ++ req_n_wait_obs host (w_open w) req payload wr
             ++ map (fun k => o_read (w_open w) 1500 k) ns
             ++ o_read (w_open w) 1500 n
             :: o_printf ("Packet ARP Reply 0.2" ++ LF)%string []
             :: packet_obs host buf ++ [o_close (w_open w)] /\
        ethertype host buf = ETH_P_ARP).
Proof.
  split.
  - intros mac w frames data q req payload r junk E Hframes Hdata Harp Hreq Hpay Hr Htx Hjunk.
    rewrite nth_S_tl in Hjunk.
    destruct (req_n_wait_loop_first_arp host tapfd frames (pop_tx (pop_stack w)) data q junk)
      as (w' & Hloop & Hq); try assumption.
    exists w'. split; [|exact Hq].
    apply req_n_wait_runs.
    eapply qr_loop; [reflexivity|exact Hreq|exact Hpay|exact Hr| |exact Hloop].
    apply Z.ltb_ge. exact Htx.
  - intros mode w tr r w' Hrun.
    apply main_runs_inv in Hrun. eapply main_run_returned. exact Hrun.
Qed.

(** C10 -- One send per run: every run of the requester shows exactly
    one [write], of the request, made before any [read]; the loop itself,
    from any world, never writes. *)
Theorem requester_sends_once (mac : list byte) (w : world) :
  (exists tr st w' tr1 payload r tr2,
      runs_to (req_n_wait host tapfd mac) w tr st w' /\
      payload = firstn sizeof_arp_packet
                  (build_request host mac (fit sizeof_arp_packet (hd [] (w_stack w)))) /\
      writes tr = [payload] /\
      tr = tr1 ++ o_write tapfd payload r :: tr2 /\
      reads tr1 = [] /\ writes tr1 = [] /\ writes tr2 = []) /\
  (forall w0, exists tr st w',
      runs_to (ITree.iter (req_n_wait_turn host tapfd) tt) w0 tr st w' /\
      writes tr = []).
Proof.
  split.
  - destruct (req_n_wait_run_total host tapfd mac w) as (tr & st & w' & Hrun).
    pose proof (req_n_wait_runs _ _ _ _ _ _ _ Hrun) as Hruns.
    destruct Hrun as [w req0 req payload r Hreq0 Hreq Hpay Hr Hneg
                     |w req0 req payload r tr st w' Hreq0 Hreq Hpay Hr Hneg Hloop].
    + do 3 eexists.
      eexists _, payload, r, [o_perror "write packet"; o_exit 1].
      split; [exact Hruns|]. subst req0 req.
      split; [symmetry; exact Hpay|].
      split; [rewrite writes_app, writes_req_n_wait_obs; reflexivity|].
      split; [rewrite req_n_wait_obs_split, <- app_assoc; reflexivity|].
      split; [rewrite reads_app, reads_packet_obs; reflexivity|].
      split; [rewrite writes_app, writes_packet_obs; reflexivity|reflexivity].
    + do 3 eexists.
      eexists _, payload, r, tr.
      split; [exact Hruns|]. subst req0 req.
      split; [symmetry; exact Hpay|].
      pose proof (req_n_wait_loop_no_write _ _ _ _ _ _ Hloop) as Hnw.
      split; [rewrite writes_app, writes_req_n_wait_obs, Hnw; reflexivity|].
      split; [rewrite req_n_wait_obs_split, <- app_assoc; reflexivity|].
      split; [rewrite reads_app, reads_packet_obs; reflexivity|].
      split; [rewrite writes_app, writes_packet_obs; reflexivity|exact Hnw].
  - intros w0.
    destruct (req_n_wait_loop_total host tapfd _ w0 eq_refl) as (tr & st & w' & Hloop).
    exists tr, st, w'. split.
    + apply req_n_wait_loop_runs. exact Hloop.
    + eapply req_n_wait_loop_no_write. exact Hloop.
Qed.

(** C3 -- Requester framing: the one frame the requester writes has 42
    bytes and, viewed on a host of either byte order, Ethernet destination
    ff:ff:ff:ff:ff:ff, Ethernet source the local hardware address,
    protocol ARP, hardware address space 1 (Ethernet), protocol address
    space 0x0800 (IPv4), lengths 6 and 4, opcode request, sender the local
    hardware address and 172.16.60.250, target hardware address
    ff:ff:ff:ff:ff:ff and target protocol address 172.16.60.157. *)
Theorem request_frame_fields (mac : list byte) (w : world) :
  (ETHER_ADDR_LEN <= List.length mac)%nat ->
  exists tr st w' req,
    runs_to (req_n_wait host tapfd mac) w tr st w' /\
    writes tr = [req] /\
    List.length req = sizeof_arp_packet /\
    forall reader,
      decode reader req =
      {| pkt_ethhdr :=
           {| h_dest := [xff; xff; xff; xff; xff; xff];
              h_source := firstn ETHER_ADDR_LEN mac;
              h_proto := ETH_P_ARP |};
         pkt_arphdr :=
           {| arp_hd := ARPHRD_ETHER;
              arp_pr := ETH_P_IP;
              arp_hdl := 6;
              arp_prl := 4;
              arp_op := ARPOP_REQUEST;
              arp_sha := firstn ETHER_ADDR_LEN mac;
              arp_spa := [xac; x10; x3c; xfa];
              arp_dha := [xff; xff; xff; xff; xff; xff];
              arp_dpa := [xac; x10; x3c; x9d] |} |}.
Proof.
  intros Hmac.
  destruct (requester_single_write host tapfd mac w)
    as (tr & st & w' & Hruns & Hw).
  exists tr, st, w'. eexists. split; [exact Hruns|]. split; [exact Hw|].
  assert (Hlen : List.length
                   (build_request host mac (fit sizeof_arp_packet (hd [] (w_stack w))))
                 = sizeof_arp_packet).
  { apply build_request_length; [assumption|apply fit_length]. }
  split.
  - rewrite length_firstn, Hlen. apply Nat.min_id.
  - intros reader. rewrite decode_firstn.
    rewrite (decode_host reader), <- (decode_host host).
    apply decode_build_request; [assumption|apply fit_length].
Qed.

End RequesterClaims.

Lemma requester_stops_at_first_arp_frame_witness :
  (exists w',
      runs_to (req_n_wait little_endian 3 sample_mac)
              (sample_world [rx_frame sample_ipv4; rx_frame sample_gratuitous;
                             rx_frame sample_request])
              (req_n_wait_obs little_endian 3
                 (request_bytes sample_mac) (request_bytes sample_mac) 42
               ++ [o_read 3 1500 18; o_read 3 1500 42;
                   o_printf ("Packet ARP Reply 0.2" ++ LF)%string []]
               ++ packet_obs little_endian sample_gratuitous)
              (returned tt) w' /\
      w_rx w' = [rx_frame sample_request]) /\
  (1 <> 0 /\ 0 = 0 /\
   exists r1 r2 mac req payload wr ns n buf,
     out_trace (run 200 (main_mode 1 little_endian)
                    (sample_world [rx_frame sample_ipv4; rx_frame sample_gratuitous]))
     = setup_obs 3 r1 r2 mac
       ++ req_n_wait_obs little_endian 3 req payload wr
       ++ map (fun k => o_read 3 1500 k) ns
       ++ o_read 3 1500 n
       :: o_printf ("Packet ARP Reply 0.2" ++ LF)%string []
       :: packet_obs little_endian buf ++ [o_close 3] /\
     ethertype little_endian buf = ETH_P_ARP).
Proof.
  split.
  - apply (proj1 (requester_stops_at_first_arp_frame little_endian 3) sample_mac
             (sample_world [rx_frame sample_ipv4; rx_frame sample_gratuitous;
                            rx_frame sample_request])
             [sample_ipv4] sample_gratuitous [rx_frame sample_request]
             (request_bytes sample_mac) (request_bytes sample_mac) 42
             (fit 1500 [])).
    + reflexivity.
    + constructor; [|constructor]. split; [cbv; lia|].
      intros H; vm_compute in H; discriminate H.
    + cbv; lia.
    + reflexivity.
    + reflexivity.
    + reflexivity.
    + reflexivity.
    + lia.
    + reflexivity.
  - apply (proj2 (requester_stops_at_first_arp_frame little_endian 3) 1
             (sample_world [rx_frame sample_ipv4; rx_frame sample_gratuitous])
             _ 0
             (out_world (run 200 (main_mode 1 little_endian)
                             (sample_world [rx_frame sample_ipv4;
                                            rx_frame sample_gratuitous])))).
    split; [discriminate|]. exists 200%nat. vm_compute. reflexivity.
Defined.

Lemma request_frame_fields_witness :
  (ETHER_ADDR_LEN <= List.length sample_mac)%nat /\
  exists tr st w' req,
    runs_to (req_n_wait little_endian 3 sample_mac) (sample_world []) tr st w' /\
    writes tr = [req] /\
    List.length req = sizeof_arp_packet /\
    forall reader,
      decode reader req =
      {| pkt_ethhdr :=
           {| h_dest := [xff; xff; xff; xff; xff; xff];
              h_source := firstn ETHER_ADDR_LEN sample_mac;
              h_proto := ETH_P_ARP |};
         pkt_arphdr :=
           {| arp_hd := ARPHRD_ETHER;
              arp_pr := ETH_P_IP;
              arp_hdl := 6;
              arp_prl := 4;
              arp_op := ARPOP_REQUEST;
              arp_sha := firstn ETHER_ADDR_LEN sample_mac;
              arp_spa := [xac; x10; x3c; xfa];
              arp_dha := [xff; xff; xff; xff; xff; xff];
              arp_dpa := [xac; x10; x3c; x9d] |} |}.
Proof.
  split; [cbv; lia|].
  apply (request_frame_fields little_endian 3 sample_mac (sample_world [])).
  cbv; lia.
Defined.

(** The scenario of the topology diagram, run from [main] as compiled
    ([MODE] 0): the request of 172.16.60.157 for 172.16.60.250 is answered
    with the address of the TAP device, after which the responder waits
    for the next frame. *)
Example scenario_of_the_diagram :
  writes (out_trace (run 200 (main little_endian)
                         (sample_world [rx_frame sample_ipv4; rx_frame sample_request])))
  = [sample_reply] /\
  out_status (run 200 (main little_endian)
                  (sample_world [rx_frame sample_ipv4; rx_frame sample_request]))
  = blocked.
Proof. split; vm_compute; reflexivity. Qed.

(** * Further properties of the code *)

(** ** The frames byte for byte *)

Lemma synth_reply_bytes (host : byte_order) (mac req rep0 : list byte) :
  (sizeof_arp_packet <= List.length req)%nat ->
  (ETHER_ADDR_LEN <= List.length mac)%nat ->
  List.length rep0 = sizeof_arp_packet ->
  synth_reply host mac req rep0 = reply_bytes (firstn ETHER_ADDR_LEN mac) req.
Proof.
  intros Hreq Hmac Hrep. unfold synth_reply, reply_bytes. cbv zeta. rewrite be16_store.
  cbv [ETHER_ADDR_LEN INET_ADDR_LEN sizeof_arp_packet sizeof_ethhdr sizeof_arp_hdr Nat.add] in *.
  explode_le req Hreq. explode_le mac Hmac. explode rep0 Hrep.
  reflexivity.
Qed.

Lemma build_request_bytes (host : byte_order) (mac obj : list byte) :
  (ETHER_ADDR_LEN <= List.length mac)%nat ->
  List.length obj = sizeof_arp_packet ->
  build_request host mac obj = request_bytes (firstn ETHER_ADDR_LEN mac).
Proof.
  intros Hmac Hobj. unfold build_request, request_bytes. cbv zeta.
  rewrite !be16_store, inet_pton_DEVICE_IP, inet_pton_TARGET_IP.
  cbv [ETHER_ADDR_LEN INET_ADDR_LEN sizeof_arp_packet sizeof_ethhdr sizeof_arp_hdr Nat.add] in *.
  explode_le mac Hmac. explode obj Hobj.
  reflexivity.
Qed.

(** ** What a turn makes of a frame of 42 bytes or more

    The buffer of a turn is the frame over what the object held before;
    nothing the turn does looks past the first 42 bytes. *)

Lemma packet_obs_firstn (host : byte_order) (p : list byte) :
  (sizeof_arp_packet <= List.length p)%nat ->
  packet_obs host (firstn sizeof_arp_packet p) = packet_obs host p.
Proof.
  intros Hp. unfold packet_obs. rewrite !be16_load.
  cbv [sizeof_arp_packet sizeof_ethhdr sizeof_arp_hdr ETHER_ADDR_LEN INET_ADDR_LEN Nat.add] in *.
  explode_le p Hp. reflexivity.
Qed.

Lemma reply_bytes_firstn (LH req : list byte) :
  (sizeof_arp_packet <= List.length req)%nat ->
  reply_bytes LH (firstn sizeof_arp_packet req) = reply_bytes LH req.
Proof.
  intros Hp. unfold reply_bytes.
  cbv [sizeof_arp_packet sizeof_ethhdr sizeof_arp_hdr ETHER_ADDR_LEN INET_ADDR_LEN Nat.add] in *.
  explode_le req Hp. reflexivity.
Qed.

Lemma packet_obs_read_into (host : byte_order) (buf data : list byte) :
  (sizeof_arp_packet <= List.length data)%nat ->
  packet_obs host (read_into buf 1500 data) = packet_obs host data.
Proof.
  intros Hd.
  assert (Hl : (sizeof_arp_packet <= List.length (read_into buf 1500 data))%nat).
  { rewrite <- (firstn_skipn sizeof_arp_packet (read_into buf 1500 data)).
    rewrite length_app, read_into_firstn by (cbv in *; lia).
    rewrite firstn_length_le by lia. lia. }
  rewrite <- (packet_obs_firstn host (read_into buf 1500 data)) by exact Hl.
  rewrite read_into_firstn by (cbv in *; lia).
  apply packet_obs_firstn, Hd.
Qed.

Lemma read_into_long (buf data : list byte) :
  (sizeof_arp_packet <= List.length data)%nat ->
  (sizeof_arp_packet <= List.length (read_into buf 1500 data))%nat.
Proof.
  intros Hd.
  rewrite <- (firstn_skipn sizeof_arp_packet (read_into buf 1500 data)).
  rewrite length_app, read_into_firstn by (cbv in *; lia).
  rewrite firstn_length_le by lia. lia.
Qed.

Lemma reply_bytes_read_into (LH buf data : list byte) :
  (sizeof_arp_packet <= List.length data)%nat ->
  reply_bytes LH (read_into buf 1500 data) = reply_bytes LH data.
Proof.
  intros Hd.
  rewrite <- (reply_bytes_firstn LH (read_into buf 1500 data))
    by (apply read_into_long, Hd).
  rewrite read_into_firstn by (cbv in *; lia).
  apply reply_bytes_firstn, Hd.
Qed.

Lemma not_arp_read_into (host : byte_order) (buf data : list byte) :
  (sizeof_arp_packet <= List.length data)%nat ->
  not_arp host (read_into buf 1500 data) = not_arp host data.
Proof.
  intros Hd. rewrite !not_arp_spec, ethertype_read_into; [reflexivity|].
  cbv in *; lia.
Qed.

Lemma not_arp_read_into_hdr (host : byte_order) (buf data : list byte) :
  (sizeof_ethhdr <= List.length data)%nat ->
  not_arp host (read_into buf 1500 data) = negb (ethertype host data =? ETH_P_ARP).
Proof.
  intros Hd. rewrite not_arp_spec, ethertype_read_into by exact Hd. reflexivity.
Qed.

Lemma reply_bytes_length (LH req : list byte) :
  List.length LH = ETHER_ADDR_LEN ->
  (sizeof_arp_packet <= List.length req)%nat ->
  List.length (reply_bytes LH req) = sizeof_arp_packet.
Proof.
  intros HL Hreq. unfold reply_bytes.
  cbv [sizeof_arp_packet sizeof_ethhdr sizeof_arp_hdr ETHER_ADDR_LEN INET_ADDR_LEN Nat.add] in *.
  explode_le req Hreq. explode LH HL. reflexivity.
Qed.

Lemma request_bytes_length (LH : list byte) :
  List.length LH = ETHER_ADDR_LEN ->
  List.length (request_bytes LH) = sizeof_arp_packet.
Proof.
  intros HL. unfold request_bytes. cbv [ETHER_ADDR_LEN] in HL.
  explode LH HL. reflexivity.
Qed.

(** The reply a turn writes, whatever the two objects held before. *)
Lemma turn_payload (host : byte_order) (mac s s' data : list byte) :
  (ETHER_ADDR_LEN <= List.length mac)%nat ->
  (sizeof_arp_packet <= List.length data)%nat ->
  synth_reply host mac (read_into (fit 1500 s) 1500 data) (fit sizeof_arp_packet s')
  = reply_bytes (firstn ETHER_ADDR_LEN mac) data.
Proof.
  intros Hmac Hd.
  rewrite synth_reply_bytes;
    [apply reply_bytes_read_into, Hd | apply read_into_long, Hd | exact Hmac
    | apply fit_length].
Qed.

Lemma firstn_all_eq (n : nat) (l : list byte) :
  List.length l = n -> firstn n l = l.
Proof. intros <-. apply firstn_all. Qed.

(** ** Concrete runs *)

Lemma run_runs_to {R : Type} (fuel : nat) (t : itree sysE R) (w : world) :
  out_status (run fuel t w) <> out_of_fuel ->
  runs_to t w (out_trace (run fuel t w)) (out_status (run fuel t w))
          (out_world (run fuel t w)).
Proof.
  intros H. split; [exact H|]. exists fuel. destruct (run fuel t w); reflexivity.
Qed.

(** ** The responder as a whole *)

Lemma closes_reply_obs host tapfd num n req rep payload r :
  existsb is_close (reply_obs host tapfd num n req rep payload r) = false.
Proof. reflexivity. Qed.

Lemma wait_n_reply_loop_open_ended host tapfd mac num w tr h w' :
  wait_n_reply_loop host tapfd mac num w tr h w' ->
  (h = h_block \/ h = h_exit 1) /\ existsb is_close tr = false.
Proof.
  induction 1 as [| | ? ? ? ? ? ? ? ? ? ? ? ? IH
                  | ? ? ? ? ? ? ? ? ? ? ? ? ? ? ? ? ? ? ? ? ? IH |].
  - split; [left|]; reflexivity.
  - split; [right|]; reflexivity.
  - destruct IH as [IHh IHc]. split; [exact IHh|]. cbn. exact IHc.
  - destruct IH as [IHh IHc]. split; [exact IHh|].
    rewrite existsb_app, closes_reply_obs. exact IHc.
  - split; [right; reflexivity|].
    rewrite existsb_app, closes_reply_obs. reflexivity.
Qed.

(** Every run of [main] as compiled is a run of the responder. *)
Lemma main_responder (host : byte_order) (w : world)
      (tr : list obs) (st : status Z) (w' : world) :
  runs_to (main host) w tr st w' ->
  (w_rx w' = w_rx w /\ (st = exited 1) /\
   existsb is_close tr = false /\ writes tr = [] /\ reads tr = [] /\
   labels request_fmt tr = [] /\ labels reply_fmt tr = []) \/
  exists fd r1 r2 mac tr1 h,
    w_open w = fd /\ List.length mac = 14%nat /\
    wait_n_reply_loop host fd mac 0 w tr1 h w' /\
    tr = setup_obs fd r1 r2 mac ++ wait_n_reply_banner :: tr1 /\
    st = status_of_halt h.
Proof.
  intros Hrun. unfold main in Hrun. apply main_runs_inv in Hrun.
  destruct Hrun as [ ? ? Hfd | ? ? ? Hfd | ? ? ? ? ? Hfd
                    | ? ? ? ? ? ? ? ? ? Hfd ? ? ? ? ? ? Hmac ? Hloop
                    | ? ? ? ? ? ? ? ? ? ? ? ? ? ? ? ? ? Hm ? | ? ? ? ? ? ? ? ? ? ? ? ? ? ? ? ? Hm ?];
    try discriminate Hm.
  1-3: left; repeat split; reflexivity.
  right. exists fd, r1, r2, mac, tr, h. repeat split; try assumption.
  rewrite <- Hmac. apply kernel_sa_data_length.
Qed.

(** X1 -- [main] as compiled (MODE 0) never gets past [wait_n_reply]:
    a run ends waiting in [read] or in [exit(1)], it never returns, and
    [close] is never called. *)
Theorem responder_never_closes (host : byte_order) (w : world)
        (tr : list obs) (st : status Z) (w' : world) :
  runs_to (main host) w tr st w' ->
  (st = blocked \/ st = exited 1) /\ existsb is_close tr = false.
Proof.
  intros Hrun. apply main_responder in Hrun.
  destruct Hrun as [(_ & Hst & Hc & _) | (fd & r1 & r2 & mac & tr1 & h & _ & _ & Hloop & -> & ->)].
  - split; [right; exact Hst | exact Hc].
  - apply wait_n_reply_loop_open_ended in Hloop. destruct Hloop as [[-> | ->] Hc].
    + split; [left; reflexivity|]. rewrite existsb_app. cbn. exact Hc.
    + split; [right; reflexivity|]. rewrite existsb_app. cbn. exact Hc.
Qed.

Lemma responder_never_closes_witness :
  runs_to (main little_endian) (sample_world [rx_frame sample_request])
          (out_trace (run 200 (main little_endian) (sample_world [rx_frame sample_request])))
          (out_status (run 200 (main little_endian) (sample_world [rx_frame sample_request])))
          (out_world (run 200 (main little_endian) (sample_world [rx_frame sample_request])))
  /\ (out_status (run 200 (main little_endian) (sample_world [rx_frame sample_request]))
      = blocked \/
      out_status (run 200 (main little_endian) (sample_world [rx_frame sample_request]))
      = exited 1)
  /\ existsb is_close
       (out_trace (run 200 (main little_endian) (sample_world [rx_frame sample_request])))
     = false.
Proof.
  assert (H : runs_to (main little_endian) (sample_world [rx_frame sample_request])
          (out_trace (run 200 (main little_endian) (sample_world [rx_frame sample_request])))
          (out_status (run 200 (main little_endian) (sample_world [rx_frame sample_request])))
          (out_world (run 200 (main little_endian) (sample_world [rx_frame sample_request])))).
  { apply run_runs_to. vm_compute. discriminate. }
  split; [exact H|].
  exact (responder_never_closes little_endian _ _ _ _ H).
Defined.

(** ** What the responder's trace holds *)

Lemma labels_app (fmt : string) (a b : list obs) :
  labels fmt (a ++ b) = labels fmt a ++ labels fmt b.
Proof. apply flat_map_app. Qed.

Lemma labels_reply_obs_request host tapfd num n req rep payload r :
  labels request_fmt (reply_obs host tapfd num n req rep payload r) = [num].
Proof. reflexivity. Qed.

Lemma labels_reply_obs_reply host tapfd num n req rep payload r :
  labels reply_fmt (reply_obs host tapfd num n req rep payload r) = [num].
Proof. reflexivity. Qed.

Lemma count_from_S (start : Z) (n : nat) :
  count_from start (S n) = start :: count_from (start + 1) n.
Proof.
  unfold count_from. cbn [seq map]. f_equal; [lia|].
  rewrite <- seq_shift, map_map. apply map_ext. intros i. lia.
Qed.

Lemma int_wrap_small (z : Z) :
  -2147483648 <= z < 2147483648 -> int_wrap z = z.
Proof.
  intros H. unfold int_wrap. rewrite Z.mod_small by lia. lia.
Qed.

(** The counter shown with each answered frame, while it is far from
    overflow. *)
Lemma wait_n_reply_loop_labels host tapfd mac num w tr h w' :
  wait_n_reply_loop host tapfd mac num w tr h w' ->
  0 <= num -> num + Z.of_nat (List.length (w_rx w)) < 2147483648 ->
  labels request_fmt tr = count_from num (List.length (writes tr)) /\
  labels reply_fmt tr = count_from num (List.length (writes tr)).
Proof.
  induction 1 as [| | ? ? ? ? ? ? ? ? Hrx ? ? ? IH
                  | ? ? ? ? ? ? ? ? ? ? ? ? Hrx ? ? ? ? ? ? ? ? IH
                  | ? ? ? ? ? ? ? ? ? Hrx]; intros Hnum Hbound.
  - split; reflexivity.
  - split; reflexivity.
  - rewrite Hrx in Hbound. cbn [List.length] in Hbound.
    destruct IH as [IH1 IH2]; [exact Hnum | norm_world; rewrite Hrx; cbn [tl]; lia |].
    split; cbn; assumption.
  - rewrite Hrx in Hbound. cbn [List.length] in Hbound.
    rewrite int_wrap_small in IH by lia.
    destruct IH as [IH1 IH2]; [lia | norm_world; rewrite Hrx; cbn [tl]; lia |].
    rewrite !labels_app, writes_app, writes_reply_obs, labels_reply_obs_request,
      labels_reply_obs_reply, IH1, IH2.
    cbn [app List.length]. rewrite count_from_S. split; reflexivity.
  - rewrite !labels_app, writes_app, writes_reply_obs, labels_reply_obs_request,
      labels_reply_obs_reply.
    cbn [app List.length writes labels flat_map]. rewrite count_from_S.
    split; reflexivity.
Qed.

(** What an answering turn writes, whatever the buffer holds. *)
Lemma turn_own_frame (host : byte_order) (mac s s' data : list byte) :
  (ETHER_ADDR_LEN <= List.length mac)%nat ->
  not_arp host (read_into (fit 1500 s) 1500 data) = false ->
  own_arp_frame host (firstn ETHER_ADDR_LEN mac)
    (firstn sizeof_arp_packet
       (synth_reply host mac (read_into (fit 1500 s) 1500 data)
                    (fit sizeof_arp_packet s'))).
Proof.
  intros Hmac Hna.
  assert (Hbuf : (sizeof_arp_packet <= List.length (read_into (fit 1500 s) 1500 data))%nat).
  { rewrite read_into_length by apply fit_length. cbv; lia. }
  rewrite not_arp_spec in Hna. apply negb_false_iff, Z.eqb_eq in Hna.
  unfold own_arp_frame, ethertype. rewrite decode_firstn.
  rewrite decode_synth_reply by (assumption || apply fit_length).
  cbv zeta. cbn [pkt_ethhdr pkt_arphdr h_source h_proto arp_sha].
  repeat split; try exact Hna.
  rewrite firstn_length_le; [reflexivity|].
  rewrite synth_reply_length by (assumption || apply fit_length). lia.
Qed.

Lemma wait_n_reply_loop_own host tapfd mac num w tr h w' :
  wait_n_reply_loop host tapfd mac num w tr h w' ->
  (ETHER_ADDR_LEN <= List.length mac)%nat ->
  Forall (own_arp_frame host (firstn ETHER_ADDR_LEN mac)) (writes tr).
Proof.
  intros Hloop Hmac.
  induction Hloop as [| | ? ? ? ? ? ? ? ? ? ? ? ? IH
                      | ? ? ? ? ? ? ? ? ? ? ? ? ? Hb Hr0 Hr Hp ? Hna ? ? IH
                      | ? ? ? ? ? ? ? ? ? ? Hb Hr0 Hr Hp ? Hna].
  - constructor.
  - constructor.
  - exact IH.
  - rewrite writes_app, writes_reply_obs. constructor; [|exact IH].
    rewrite <- Hp, <- Hr, <- Hr0, <- Hb. apply turn_own_frame; [exact Hmac|].
    rewrite Hb. exact Hna.
  - rewrite writes_app, writes_reply_obs. constructor; [|constructor].
    rewrite <- Hp, <- Hr, <- Hr0, <- Hb. apply turn_own_frame; [exact Hmac|].
    rewrite Hb. exact Hna.
Qed.

Lemma on_fd_reply_obs host tapfd num n req rep payload r :
  Forall (on_fd tapfd) (reply_obs host tapfd num n req rep payload r).
Proof. repeat constructor. Qed.

Lemma wait_n_reply_loop_on_fd host tapfd mac num w tr h w' :
  wait_n_reply_loop host tapfd mac num w tr h w' -> Forall (on_fd tapfd) tr.
Proof.
  induction 1 as [| | ? ? ? ? ? ? ? ? ? ? ? ? IH
                  | ? ? ? ? ? ? ? ? ? ? ? ? ? ? ? ? ? ? ? ? ? IH |].
  - constructor.
  - repeat constructor.
  - constructor; [reflexivity | exact IH].
  - apply Forall_app. split; [apply on_fd_reply_obs | exact IH].
  - apply Forall_app. split; [apply on_fd_reply_obs | repeat constructor].
Qed.

Lemma reads_reply_obs host tapfd num n req rep payload r :
  reads (reply_obs host tapfd num n req rep payload r) = [n].
Proof. reflexivity. Qed.

(** Frames go out one for one against frames that came in. *)
Lemma delivered_app (a b : list obs) : delivered (a ++ b) = delivered a ++ delivered b.
Proof. unfold delivered. rewrite reads_app. apply filter_app. Qed.

Lemma solicited_whole (tr : list obs) :
  solicited tr -> (List.length (writes tr) <= List.length (delivered tr))%nat.
Proof. intros H. apply (H tr []). symmetry. apply app_nil_r. Qed.

Lemma solicited_app (a b : list obs) :
  solicited a -> solicited b -> solicited (a ++ b).
Proof.
  intros Ha Hb pre post E. symmetry in E.
  apply app_eq_app in E. destruct E as [l [[-> E] | [-> ->]]].
  - rewrite writes_app, delivered_app, !length_app.
    pose proof (solicited_whole a Ha). pose proof (Hb l post E). lia.
  - apply (Ha pre l eq_refl).
Qed.

Lemma solicited_silent (tr : list obs) : writes tr = [] -> solicited tr.
Proof.
  intros Hw pre post ->. rewrite writes_app in Hw.
  apply app_eq_nil in Hw. destruct Hw as [-> _]. cbn. lia.
Qed.

Lemma solicited_reply_obs host tapfd num n req rep payload r :
  0 <= n -> solicited (reply_obs host tapfd num n req rep payload r).
Proof.
  intros Hn pre post E.
  assert (Hw : (List.length (writes pre) <= 1)%nat).
  { pose proof (writes_reply_obs host tapfd num n req rep payload r) as H.
    rewrite E, writes_app in H. apply (f_equal (@List.length _)) in H.
    rewrite length_app in H. cbn in H. lia. }
  destruct pre as [|o pre]; [cbn; lia|].
  unfold reply_obs in E. cbn [app] in E. injection E as <- _.
  unfold delivered. cbn [reads flat_map app filter].
  replace (0 <=? n) with true by (symmetry; apply Z.leb_le; exact Hn).
  cbn [List.length]. lia.
Qed.

Lemma wait_n_reply_loop_solicited host tapfd mac num w tr h w' :
  wait_n_reply_loop host tapfd mac num w tr h w' -> solicited tr.
Proof.
  induction 1 as [| | ? ? ? ? ? ? ? ? ? ? ? ? IH
                  | ? ? ? ? ? ? ? ? ? ? ? ? ? ? ? ? ? ? ? ? ? IH |].
  - apply solicited_silent. reflexivity.
  - apply solicited_silent. reflexivity.
  - apply (solicited_app [_]); [apply solicited_silent; reflexivity | exact IH].
  - apply solicited_app; [apply solicited_reply_obs; lia | exact IH].
  - apply solicited_app; [apply solicited_reply_obs; lia|].
    apply solicited_silent. reflexivity.
Qed.

(** ** The requester's trace *)

Lemma req_n_wait_loop_on_fd host tapfd w tr st w' :
  req_n_wait_loop host tapfd w tr st w' -> Forall (on_fd tapfd) tr.
Proof.
  induction 1 as [| | ? ? ? ? ? ? ? ? ? ? ? IH |].
  - constructor.
  - repeat constructor.
  - constructor; [reflexivity | exact IH].
  - repeat constructor.
Qed.

Lemma req_n_wait_run_on_fd host tapfd mac w tr st w' :
  req_n_wait_run host tapfd mac w tr st w' -> Forall (on_fd tapfd) tr.
Proof.
  destruct 1 as [| ? ? ? ? ? ? ? ? ? ? ? ? ? Hloop].
  - apply Forall_app. split; repeat constructor.
  - apply Forall_app. split; [repeat constructor|].
    eapply req_n_wait_loop_on_fd, Hloop.
Qed.

Lemma req_n_wait_run_own host tapfd mac w tr st w' :
  req_n_wait_run host tapfd mac w tr st w' ->
  (ETHER_ADDR_LEN <= List.length mac)%nat ->
  Forall (own_arp_frame host (firstn ETHER_ADDR_LEN mac)) (writes tr).
Proof.
  intros Hrun Hmac.
  assert (Hreq : forall s,
             own_arp_frame host (firstn ETHER_ADDR_LEN mac)
               (firstn sizeof_arp_packet
                  (build_request host mac (fit sizeof_arp_packet s)))).
  { intros s. unfold own_arp_frame, ethertype. rewrite decode_firstn.
    rewrite decode_build_request by (exact Hmac || apply fit_length).
    cbn [pkt_ethhdr pkt_arphdr h_source h_proto arp_sha].
    repeat split.
    rewrite firstn_length_le; [reflexivity|].
    rewrite build_request_length; [lia|exact Hmac|apply fit_length]. }
  destruct Hrun as [? ? ? ? ? Hr0 Hr Hp | ? ? ? ? ? ? ? ? Hr0 Hr Hp ? ? Hloop].
  - rewrite writes_app, writes_req_n_wait_obs. constructor; [|constructor].
    rewrite <- Hp, <- Hr, <- Hr0. apply Hreq.
  - rewrite writes_app, writes_req_n_wait_obs.
    rewrite (req_n_wait_loop_no_write _ _ _ _ _ _ Hloop).
    constructor; [|constructor].
    rewrite <- Hp, <- Hr, <- Hr0. apply Hreq.
Qed.

(** ** Every run of [main] *)

Ltac hwaddr_length :=
  match goal with
  | Hm : ifr_hwaddr_sa_data (kernel_ifreq _) = ?mac |- _ =>
      assert (Hlen : (ETHER_ADDR_LEN <= List.length mac)%nat)
        by (rewrite <- Hm, kernel_sa_data_length; cbv; lia)
  end.

(** X2 -- Whatever the mode, the byte order and the environment, every
    frame [main] hands to [write] has exactly the 42 bytes of an
    [arp_packet], carries the ARP Ethernet type, and names the hardware
    address the kernel reported for the interface both as Ethernet source
    and as ARP sender. *)
Theorem written_frames_are_own_arp_frames (mode : Z) (host : byte_order) (w : world)
        (tr : list obs) (st : status Z) (w' : world) :
  runs_to (main_mode mode host) w tr st w' ->
  Forall (own_arp_frame host (device_hwaddr w)) (writes tr).
Proof.
  intros Hrun. apply main_runs_inv in Hrun.
  destruct Hrun as [ | |
                   | w0 fd r1 ifr1 r2 mac tr0 h w0' Hfd Hpos H1 Hpos1 Hifr H2 Hpos2 Hmac Hm Hloop
                   | w0 fd r1 ifr1 r2 mac tr0 h w0' Hfd Hpos H1 Hpos1 Hifr H2 Hpos2 Hmac Hm Hloop
                   | w0 fd r1 ifr1 r2 mac tr0 w0' Hfd Hpos H1 Hpos1 Hifr H2 Hpos2 Hmac Hm Hloop];
    try (constructor; fail); hwaddr_length; unfold device_hwaddr;
    rewrite Hifr, Hmac, writes_app; cbn [writes setup_obs flat_map mac_obs app].
  - change (Forall (own_arp_frame host (firstn ETHER_ADDR_LEN mac)) (writes tr0)).
    eapply wait_n_reply_loop_own; eassumption.
  - eapply req_n_wait_run_own; eassumption.
  - rewrite writes_app. cbn [writes flat_map app]. rewrite app_nil_r.
    eapply req_n_wait_run_own; eassumption.
Qed.

Lemma written_frames_are_own_arp_frames_witness :
  runs_to (main_mode 1 big_endian) (sample_world [rx_frame sample_request])
          (out_trace (run 200 (main_mode 1 big_endian) (sample_world [rx_frame sample_request])))
          (out_status (run 200 (main_mode 1 big_endian) (sample_world [rx_frame sample_request])))
          (out_world (run 200 (main_mode 1 big_endian) (sample_world [rx_frame sample_request])))
  /\ Forall (own_arp_frame big_endian sample_mac)
       (writes (out_trace (run 200 (main_mode 1 big_endian)
                               (sample_world [rx_frame sample_request])))).
Proof.
  assert (H : runs_to (main_mode 1 big_endian) (sample_world [rx_frame sample_request])
          (out_trace (run 200 (main_mode 1 big_endian) (sample_world [rx_frame sample_request])))
          (out_status (run 200 (main_mode 1 big_endian) (sample_world [rx_frame sample_request])))
          (out_world (run 200 (main_mode 1 big_endian) (sample_world [rx_frame sample_request])))).
  { apply run_runs_to. vm_compute. discriminate. }
  split; [exact H|].
  exact (written_frames_are_own_arp_frames 1 big_endian _ _ _ _ H).
Defined.

(** X3 -- Whatever the mode and the environment, every [ioctl], [read],
    [write] and [close] of a run of [main] is made on the descriptor that
    [open] returned. *)
Theorem calls_use_the_opened_descriptor (mode : Z) (host : byte_order) (w : world)
        (tr : list obs) (st : status Z) (w' : world) :
  runs_to (main_mode mode host) w tr st w' ->
  Forall (on_fd (w_open w)) tr.
Proof.
  intros Hrun. apply main_runs_inv in Hrun.
  destruct Hrun as [ ? ? Hfd | ? ? ? Hfd | ? ? ? ? ? Hfd
                    | ? ? ? ? ? ? ? ? ? Hfd ? ? ? ? ? ? ? ? Hloop
                    | ? ? ? ? ? ? ? ? ? Hfd ? ? ? ? ? ? ? ? Hloop
                    | ? ? ? ? ? ? ? ? Hfd ? ? ? ? ? ? ? ? Hloop];
    rewrite Hfd; try (repeat constructor; fail).
  - apply Forall_app. split; [repeat constructor|].
    constructor; [exact I|]. eapply wait_n_reply_loop_on_fd, Hloop.
  - apply Forall_app. split; [repeat constructor|].
    eapply req_n_wait_run_on_fd, Hloop.
  - apply Forall_app. split; [repeat constructor|].
    apply Forall_app. split; [|repeat constructor].
    eapply req_n_wait_run_on_fd, Hloop.
Qed.

Lemma calls_use_the_opened_descriptor_witness :
  runs_to (main_mode 1 little_endian) (sample_world [rx_frame sample_request])
          (out_trace (run 200 (main_mode 1 little_endian) (sample_world [rx_frame sample_request])))
          (out_status (run 200 (main_mode 1 little_endian) (sample_world [rx_frame sample_request])))
          (out_world (run 200 (main_mode 1 little_endian) (sample_world [rx_frame sample_request])))
  /\ Forall (on_fd 3)
       (out_trace (run 200 (main_mode 1 little_endian)
                       (sample_world [rx_frame sample_request]))).
Proof.
  assert (H : runs_to (main_mode 1 little_endian) (sample_world [rx_frame sample_request])
          (out_trace (run 200 (main_mode 1 little_endian) (sample_world [rx_frame sample_request])))
          (out_status (run 200 (main_mode 1 little_endian) (sample_world [rx_frame sample_request])))
          (out_world (run 200 (main_mode 1 little_endian) (sample_world [rx_frame sample_request])))).
  { apply run_runs_to. vm_compute. discriminate. }
  split; [exact H|].
  exact (calls_use_the_opened_descriptor 1 little_endian _ _ _ _ H).
Defined.

(** X4 -- In a run of [main] as compiled, the counter printed with the
    request and with the reply of an answered frame numbers the answers
    0, 1, 2, ... in order, as long as fewer than 2^31 frames arrive;
    frames that are not answered do not advance it. *)
Theorem answers_are_numbered_in_order (host : byte_order) (w : world)
        (tr : list obs) (st : status Z) (w' : world) :
  runs_to (main host) w tr st w' ->
  Z.of_nat (List.length (w_rx w)) < 2147483648 ->
  labels request_fmt tr = count_from 0 (List.length (writes tr)) /\
  labels reply_fmt tr = count_from 0 (List.length (writes tr)).
Proof.
  intros Hrun Hbound. apply main_responder in Hrun.
  destruct Hrun as [(_ & _ & _ & Hw & _ & H1 & H2)
                   | (fd & r1 & r2 & mac & tr1 & h & _ & _ & Hloop & -> & _)].
  - rewrite H1, H2, Hw. split; reflexivity.
  - apply wait_n_reply_loop_labels in Hloop; [|lia|lia].
    destruct Hloop as [H1 H2].
    rewrite !labels_app, writes_app.
    cbn [labels writes flat_map setup_obs mac_obs app wait_n_reply_banner].
    split; assumption.
Qed.

Lemma answers_are_numbered_in_order_witness :
  runs_to (main little_endian)
          (sample_world [rx_frame sample_request; rx_frame sample_ipv4;
                         rx_frame sample_gratuitous])
          (out_trace (run 400 (main little_endian)
             (sample_world [rx_frame sample_request; rx_frame sample_ipv4;
                            rx_frame sample_gratuitous])))
          (out_status (run 400 (main little_endian)
             (sample_world [rx_frame sample_request; rx_frame sample_ipv4;
                            rx_frame sample_gratuitous])))
          (out_world (run 400 (main little_endian)
             (sample_world [rx_frame sample_request; rx_frame sample_ipv4;
                            rx_frame sample_gratuitous])))
  /\ 3 < 2147483648
  /\ labels request_fmt
       (out_trace (run 400 (main little_endian)
          (sample_world [rx_frame sample_request; rx_frame sample_ipv4;
                         rx_frame sample_gratuitous]))) = [0; 1]
  /\ labels reply_fmt
       (out_trace (run 400 (main little_endian)
          (sample_world [rx_frame sample_request; rx_frame sample_ipv4;
                         rx_frame sample_gratuitous]))) = [0; 1].
Proof.
  assert (H : runs_to (main little_endian)
          (sample_world [rx_frame sample_request; rx_frame sample_ipv4;
                         rx_frame sample_gratuitous])
          (out_trace (run 400 (main little_endian)
             (sample_world [rx_frame sample_request; rx_frame sample_ipv4;
                            rx_frame sample_gratuitous])))
          (out_status (run 400 (main little_endian)
             (sample_world [rx_frame sample_request; rx_frame sample_ipv4;
                            rx_frame sample_gratuitous])))
          (out_world (run 400 (main little_endian)
             (sample_world [rx_frame sample_request; rx_frame sample_ipv4;
                            rx_frame sample_gratuitous])))).
  { apply run_runs_to. vm_compute. discriminate. }
  split; [exact H|]. split; [lia|].
  destruct (answers_are_numbered_in_order little_endian _ _ _ _ H) as [H1 H2];
    [cbn; lia|].
  split.
  - rewrite H1. vm_compute. reflexivity.
  - rewrite H2. vm_compute. reflexivity.
Defined.

(** X5 -- The responder sends nothing unasked: at no point of a run
    of [main] as compiled has it written more frames than [read] has
    delivered. *)
Theorem responder_writes_only_when_asked (host : byte_order) (w : world)
        (tr : list obs) (st : status Z) (w' : world) :
  runs_to (main host) w tr st w' ->
  forall pre post,
    tr = pre ++ post ->
    (List.length (writes pre) <= List.length (delivered pre))%nat.
Proof.
  intros Hrun. apply main_responder in Hrun.
  destruct Hrun as [(_ & _ & _ & Hw & _)
                   | (fd & r1 & r2 & mac & tr1 & h & _ & _ & Hloop & -> & _)].
  - apply solicited_silent, Hw.
  - apply wait_n_reply_loop_solicited in Hloop.
    apply solicited_app; [apply solicited_silent; reflexivity|].
    apply (solicited_app [_]); [apply solicited_silent; reflexivity | exact Hloop].
Qed.

Lemma responder_writes_only_when_asked_witness :
  runs_to (main little_endian)
          (sample_world [rx_frame sample_ipv4; rx_frame sample_request])
          (out_trace (run 400 (main little_endian)
             (sample_world [rx_frame sample_ipv4; rx_frame sample_request])))
          (out_status (run 400 (main little_endian)
             (sample_world [rx_frame sample_ipv4; rx_frame sample_request])))
          (out_world (run 400 (main little_endian)
             (sample_world [rx_frame sample_ipv4; rx_frame sample_request])))
  /\ (List.length
        (writes (out_trace (run 400 (main little_endian)
                  (sample_world [rx_frame sample_ipv4; rx_frame sample_request]))))
      <= List.length
        (delivered (out_trace (run 400 (main little_endian)
                  (sample_world [rx_frame sample_ipv4; rx_frame sample_request])))))%nat.
Proof.
  assert (H : runs_to (main little_endian)
          (sample_world [rx_frame sample_ipv4; rx_frame sample_request])
          (out_trace (run 400 (main little_endian)
             (sample_world [rx_frame sample_ipv4; rx_frame sample_request])))
          (out_status (run 400 (main little_endian)
             (sample_world [rx_frame sample_ipv4; rx_frame sample_request])))
          (out_world (run 400 (main little_endian)
             (sample_world [rx_frame sample_ipv4; rx_frame sample_request])))).
  { apply run_runs_to. vm_compute. discriminate. }
  split; [exact H|].
  apply (responder_writes_only_when_asked little_endian _ _ _ _ H _ []).
  symmetry. apply app_nil_r.
Defined.

(** ** The responder on a device that works *)

(** What an answering turn writes for the frame it read. *)
Lemma turn_answer (host : byte_order) (mac s s' data : list byte) :
  (ETHER_ADDR_LEN <= List.length mac)%nat ->
  forall rep,
    firstn sizeof_arp_packet
      (synth_reply host mac (read_into (fit 1500 s) 1500 data)
                   (fit sizeof_arp_packet s')) = rep ->
    List.length rep = sizeof_arp_packet /\
    arp_op (pkt_arphdr (decode host rep)) = ARPOP_REPLY /\
    ((sizeof_arp_packet <= List.length data)%nat ->
     rep = reply_bytes (firstn ETHER_ADDR_LEN mac) data).
Proof.
  intros Hmac rep Hrep.
  assert (Hbuf : (sizeof_arp_packet <= List.length (read_into (fit 1500 s) 1500 data))%nat).
  { rewrite read_into_length by apply fit_length. cbv; lia. }
  assert (Hlen : List.length
                   (synth_reply host mac (read_into (fit 1500 s) 1500 data)
                                (fit sizeof_arp_packet s')) = sizeof_arp_packet).
  { apply synth_reply_length; [exact Hbuf | exact Hmac | apply fit_length]. }
  rewrite firstn_all_eq in Hrep by exact Hlen. subst rep.
  split; [exact Hlen|]. split.
  - rewrite decode_synth_reply by (assumption || apply fit_length). reflexivity.
  - intros Hd. apply turn_payload; assumption.
Qed.

Lemma wait_n_reply_loop_every_arp host tapfd mac num w tr h w' :
  wait_n_reply_loop host tapfd mac num w tr h w' ->
  (ETHER_ADDR_LEN <= List.length mac)%nat ->
  forall frames,
    w_rx w = map rx_frame frames ->
    Forall (fun frame => (sizeof_ethhdr <= List.length frame)%nat) frames ->
    Forall (fun r => 0 <= r) (w_tx w) ->
    h = h_block /\
    reads tr = map read_size frames /\
    Forall2 (fun frame rep =>
               List.length rep = sizeof_arp_packet /\
               arp_op (pkt_arphdr (decode host rep)) = ARPOP_REPLY /\
               ((sizeof_arp_packet <= List.length frame)%nat ->
                rep = reply_bytes (firstn ETHER_ADDR_LEN mac) frame))
            (filter (fun frame => ethertype host frame =? ETH_P_ARP) frames)
            (writes tr).
Proof.
  intros Hloop Hmac.
  induction Hloop as [ num0 w0 Hrx | num0 w0 q Hrx
                     | num0 w0 data q buf tr0 h0 w0' Hrx Hb Hna Hloop IH
                     | num0 w0 data q buf rep0 rep payload r tr0 h0 w0'
                         Hrx Hb Hr0 Hr Hp Hres Hna Hok Hloop IH
                     | num0 w0 data q buf rep0 rep payload r
                         Hrx Hb Hr0 Hr Hp Hres Hna Hko];
    intros frames Hq Hlong Htx.
  - rewrite Hrx in Hq. destruct frames; [|discriminate Hq].
    repeat split; constructor.
  - rewrite Hrx in Hq. destruct frames; discriminate Hq.
  - rewrite Hrx in Hq. destruct frames as [|frame frames]; [discriminate Hq|].
    cbn [map] in Hq. injection Hq as -> ->.
    apply Forall_cons_iff in Hlong as [Hf Hfs]. subst buf.
    rewrite not_arp_read_into_hdr in Hna by exact Hf.
    apply negb_true_iff in Hna.
    destruct (IH frames) as (-> & IHr & IHw);
      [norm_world; rewrite Hrx; reflexivity | exact Hfs | norm_world; exact Htx |].
    split; [reflexivity|]. split.
    + cbn [reads flat_map app map]. fold (reads tr0). rewrite IHr. reflexivity.
    + cbn [writes flat_map app filter]. fold (writes tr0). rewrite Hna. exact IHw.
  - rewrite Hrx in Hq. destruct frames as [|frame frames]; [discriminate Hq|].
    cbn [map] in Hq. injection Hq as -> ->.
    apply Forall_cons_iff in Hlong as [Hf Hfs]. subst buf rep0 rep.
    rewrite not_arp_read_into_hdr in Hna by exact Hf.
    apply negb_false_iff in Hna.
    destruct (IH frames) as (-> & IHr & IHw);
      [norm_world; rewrite Hrx; reflexivity | exact Hfs
      | norm_world; destruct (w_tx w0); [constructor | inversion Htx; assumption] |].
    split; [reflexivity|]. split.
    + rewrite reads_app, reads_reply_obs, IHr. reflexivity.
    + rewrite writes_app, writes_reply_obs. cbn [filter]. rewrite Hna.
      cbn [app]. constructor; [|exact IHw].
      apply (turn_answer host mac _ _ frame Hmac payload Hp).
  - exfalso. apply Z.ltb_lt in Hko. subst r.
    destruct (w_tx w0) as [|r0 tx]; cbn [hd] in Hko; [lia|].
    inversion Htx; subst. lia.
Qed.

(** C2 -- The only filter is the protocol field.  On a device that
    delivers frames with an Ethernet header and takes every frame
    written, the responder engine reads every frame and answers every
    frame whose Ethernet protocol field is ARP, one reply for each and in
    the order of arrival, whatever the opcode of the frame is (nothing is
    assumed of it); frames whose protocol field is not ARP are not
    answered.  Each reply has 42 bytes and opcode reply, and is the reply
    made from the frame when the frame has the 42 bytes of a packet. *)
Theorem replies_whatever_the_opcode
        (host : byte_order) (tapfd : Z) (mac : list byte) (w : world)
        (frames : list (list byte)) :
  (ETHER_ADDR_LEN <= List.length mac)%nat ->
  w_rx w = map rx_frame frames ->
  Forall (fun frame => (sizeof_ethhdr <= List.length frame)%nat) frames ->
  Forall (fun r => 0 <= r) (w_tx w) ->
  exists tr w',
    runs_to (wait_n_reply host tapfd mac) w tr blocked w' /\
    reads tr = map read_size frames /\
    Forall2 (fun frame rep =>
               List.length rep = sizeof_arp_packet /\
               arp_op (pkt_arphdr (decode host rep)) = ARPOP_REPLY /\
               ((sizeof_arp_packet <= List.length frame)%nat ->
                rep = reply_bytes (firstn ETHER_ADDR_LEN mac) frame))
            (filter (fun frame => ethertype host frame =? ETH_P_ARP) frames)
            (writes tr).
Proof.
  intros Hmac Hq Hlong Htx.
  destruct (wait_n_reply_loop_total host tapfd mac _ 0 w eq_refl) as (tr & h & w' & Hloop).
  destruct (wait_n_reply_loop_every_arp _ _ _ _ _ _ _ _ Hloop Hmac frames Hq Hlong Htx)
    as (-> & Hr & Hw).
  exists (wait_n_reply_banner :: tr), w'. split; [|split].
  - apply (wait_n_reply_runs _ _ _ _ _ _ _ Hloop).
  - exact Hr.
  - exact Hw.
Qed.

Lemma replies_whatever_the_opcode_witness :
  (ETHER_ADDR_LEN <= List.length sample_mac)%nat /\
  arp_op (pkt_arphdr (decode little_endian sample_gratuitous)) = ARPOP_REPLY /\
  exists tr w',
    runs_to (wait_n_reply little_endian 3 sample_mac)
            (sample_world [rx_frame sample_gratuitous; rx_frame sample_ipv4;
                           rx_frame sample_short; rx_frame sample_request])
            tr blocked w' /\
    reads tr = [42; 18; 14; 42] /\
    Forall2 (fun frame rep =>
               List.length rep = sizeof_arp_packet /\
               arp_op (pkt_arphdr (decode little_endian rep)) = ARPOP_REPLY /\
               ((sizeof_arp_packet <= List.length frame)%nat ->
                rep = reply_bytes (firstn ETHER_ADDR_LEN sample_mac) frame))
            [sample_gratuitous; sample_short; sample_request]
            (writes tr).
Proof.
  split; [cbv; lia|]. split; [reflexivity|].
  apply (replies_whatever_the_opcode little_endian 3 sample_mac
           (sample_world [rx_frame sample_gratuitous; rx_frame sample_ipv4;
                          rx_frame sample_short; rx_frame sample_request])
           [sample_gratuitous; sample_ipv4; sample_short; sample_request]).
  - cbv; lia.
  - reflexivity.
  - repeat constructor; cbv; lia.
  - constructor.
Defined.

Lemma wait_n_reply_loop_answers host tapfd mac num w tr h w' :
  wait_n_reply_loop host tapfd mac num w tr h w' ->
  (ETHER_ADDR_LEN <= List.length mac)%nat ->
  forall frames,
    w_rx w = map rx_frame frames ->
    Forall (fun frame => (sizeof_arp_packet <= List.length frame)%nat) frames ->
    Forall (fun r => 0 <= r) (w_tx w) ->
    h = h_block /\
    reads tr = map read_size frames /\
    writes tr = map (reply_bytes (firstn ETHER_ADDR_LEN mac))
                    (filter (fun frame => ethertype host frame =? ETH_P_ARP) frames).
Proof.
  intros Hloop Hmac.
  induction Hloop as [ ? ? Hrx | ? ? ? Hrx
                     | ? ? ? ? ? ? ? ? Hrx Hb Hna ? IH
                     | ? ? ? ? ? ? ? ? ? ? ? ? Hrx Hb Hr0 Hr Hp Hres Hna Hok ? IH
                     | ? ? ? ? ? ? ? ? ? Hrx Hb Hr0 Hr Hp Hres Hna Hko];
    intros frames Hq Hlong Htx.
  - rewrite Hrx in Hq. destruct frames; [|discriminate Hq].
    repeat split; reflexivity.
  - rewrite Hrx in Hq. destruct frames; discriminate Hq.
  - rewrite Hrx in Hq. destruct frames as [|frame frames]; [discriminate Hq|].
    cbn [map] in Hq. injection Hq as -> ->.
    apply Forall_cons_iff in Hlong as [Hf Hfs]. subst buf.
    rewrite not_arp_read_into, not_arp_spec in Hna by exact Hf.
    apply negb_true_iff in Hna.
    destruct (IH frames) as (-> & IHr & IHw);
      [norm_world; rewrite Hrx; reflexivity | exact Hfs | norm_world; exact Htx |].
    split; [reflexivity|]. split.
    + cbn [reads flat_map app map]. fold (reads tr). rewrite IHr. reflexivity.
    + cbn [writes flat_map app filter]. fold (writes tr). rewrite Hna. exact IHw.
  - rewrite Hrx in Hq. destruct frames as [|frame frames]; [discriminate Hq|].
    cbn [map] in Hq. injection Hq as -> ->.
    apply Forall_cons_iff in Hlong as [Hf Hfs]. subst buf rep0 rep payload.
    rewrite not_arp_read_into, not_arp_spec in Hna by exact Hf.
    apply negb_false_iff in Hna.
    destruct (IH frames) as (-> & IHr & IHw);
      [norm_world; rewrite Hrx; reflexivity | exact Hfs
      | norm_world; destruct (w_tx w); [constructor | inversion Htx; assumption] |].
    split; [reflexivity|]. split.
    + rewrite reads_app, reads_reply_obs, IHr. reflexivity.
    + rewrite writes_app, writes_reply_obs, IHw. cbn [filter]. rewrite Hna.
      cbn [map app]. f_equal.
      rewrite turn_payload by assumption.
      apply firstn_all_eq, reply_bytes_length; [|exact Hf].
      apply firstn_length_le, Hmac.
  - exfalso. apply Z.ltb_lt in Hko. subst r.
    destruct (w_tx w) as [|r0 tx]; cbn [hd] in Hko; [lia|].
    inversion Htx; subst. lia.
Qed.

(** X6 -- On a device that delivers frames of 42 bytes or more and takes
    every frame written, the responder reads every frame, answers the
    frames whose Ethernet type is ARP, each with the reply made from it,
    in the order of arrival, writes nothing else, and then waits in
    [read]. *)
Theorem responder_answers_arp_frames_in_order
        (host : byte_order) (tapfd : Z) (mac : list byte) (w : world)
        (frames : list (list byte)) :
  (ETHER_ADDR_LEN <= List.length mac)%nat ->
  w_rx w = map rx_frame frames ->
  Forall (fun frame => (sizeof_arp_packet <= List.length frame)%nat) frames ->
  Forall (fun r => 0 <= r) (w_tx w) ->
  exists tr w',
    runs_to (wait_n_reply host tapfd mac) w tr blocked w' /\
    reads tr = map read_size frames /\
    writes tr = map (reply_bytes (firstn ETHER_ADDR_LEN mac))
                    (filter (fun frame => ethertype host frame =? ETH_P_ARP) frames).
Proof.
  intros Hmac Hq Hlong Htx.
  destruct (wait_n_reply_loop_total host tapfd mac _ 0 w eq_refl) as (tr & h & w' & Hloop).
  destruct (wait_n_reply_loop_answers _ _ _ _ _ _ _ _ Hloop Hmac frames Hq Hlong Htx)
    as (-> & Hr & Hw).
  exists (wait_n_reply_banner :: tr), w'. split; [|split].
  - apply (wait_n_reply_runs _ _ _ _ _ _ _ Hloop).
  - exact Hr.
  - exact Hw.
Qed.

Lemma responder_answers_arp_frames_in_order_witness :
  (ETHER_ADDR_LEN <= List.length sample_mac)%nat /\
  exists tr w',
    runs_to (wait_n_reply little_endian 3 sample_mac)
            (sample_world [rx_frame sample_request; rx_frame (fit 60 sample_ipv4);
                           rx_frame sample_gratuitous]) tr blocked w' /\
    reads tr = [42; 60; 42] /\
    writes tr = [sample_reply; reply_bytes sample_mac sample_gratuitous].
Proof.
  split; [cbv; lia|].
  apply (responder_answers_arp_frames_in_order little_endian 3 sample_mac
           (sample_world [rx_frame sample_request; rx_frame (fit 60 sample_ipv4);
                          rx_frame sample_gratuitous])
           [sample_request; fit 60 sample_ipv4; sample_gratuitous]).
  - cbv; lia.
  - reflexivity.
  - repeat constructor; cbv; lia.
  - constructor.
Defined.

(** ** The byte order of the host *)

Lemma not_arp_host (h1 h2 : byte_order) (buf : list byte) :
  not_arp h1 buf = not_arp h2 buf.
Proof.
  rewrite !not_arp_spec. unfold ethertype.
  rewrite (decode_host h1), (decode_host h2). reflexivity.
Qed.

Lemma packet_obs_host (h1 h2 : byte_order) (p : list byte) :
  packet_obs h1 p = packet_obs h2 p.
Proof. unfold packet_obs. rewrite !be16_load. reflexivity. Qed.

Lemma synth_reply_host (h1 h2 : byte_order) (mac req rep0 : list byte) :
  synth_reply h1 mac req rep0 = synth_reply h2 mac req rep0.
Proof. unfold synth_reply. rewrite !be16_store. reflexivity. Qed.

Lemma build_request_host (h1 h2 : byte_order) (mac obj : list byte) :
  build_request h1 mac obj = build_request h2 mac obj.
Proof. unfold build_request. rewrite !be16_store. reflexivity. Qed.

Lemma reply_obs_host (h1 h2 : byte_order) tapfd num n req rep payload r :
  reply_obs h1 tapfd num n req rep payload r = reply_obs h2 tapfd num n req rep payload r.
Proof.
  unfold reply_obs. rewrite (packet_obs_host h1 h2 req), (packet_obs_host h1 h2 rep).
  reflexivity.
Qed.

Lemma wait_n_reply_loop_host (h1 h2 : byte_order) tapfd mac num w tr h w' :
  wait_n_reply_loop h1 tapfd mac num w tr h w' ->
  wait_n_reply_loop h2 tapfd mac num w tr h w'.
Proof.
  induction 1 as [ ? ? Hrx | ? ? ? Hrx
                 | ? ? ? ? ? ? ? ? Hrx Hb Hna ? IH
                 | ? ? ? ? ? ? ? ? ? ? ? ? Hrx Hb Hr0 Hr Hp Hres Hna Hok ? IH
                 | ? ? ? ? ? ? ? ? ? Hrx Hb Hr0 Hr Hp Hres Hna Hko].
  - apply wl_blocked, Hrx.
  - eapply wl_read_error, Hrx.
  - rewrite (not_arp_host h1 h2) in Hna.
    eapply wl_skip; eassumption.
  - rewrite (not_arp_host h1 h2) in Hna. rewrite (synth_reply_host h1 h2) in Hr.
    rewrite (reply_obs_host h1 h2).
    eapply wl_reply; eassumption.
  - rewrite (not_arp_host h1 h2) in Hna. rewrite (synth_reply_host h1 h2) in Hr.
    rewrite (reply_obs_host h1 h2).
    eapply wl_write_error; eassumption.
Qed.

Lemma req_n_wait_loop_host (h1 h2 : byte_order) tapfd w tr st w' :
  req_n_wait_loop h1 tapfd w tr st w' -> req_n_wait_loop h2 tapfd w tr st w'.
Proof.
  induction 1 as [ ? Hrx | ? ? Hrx | ? ? ? ? ? ? ? Hrx Hb Hna ? IH | ? ? ? ? Hrx Hb Hna].
  - apply ql_blocked, Hrx.
  - eapply ql_read_error, Hrx.
  - rewrite (not_arp_host h1 h2) in Hna. eapply ql_skip; eassumption.
  - rewrite (not_arp_host h1 h2) in Hna. rewrite (packet_obs_host h1 h2).
    eapply ql_accept; eassumption.
Qed.

Lemma req_n_wait_obs_host (h1 h2 : byte_order) tapfd req payload r :
  req_n_wait_obs h1 tapfd req payload r = req_n_wait_obs h2 tapfd req payload r.
Proof. unfold req_n_wait_obs. rewrite (packet_obs_host h1 h2). reflexivity. Qed.

Lemma req_n_wait_run_host (h1 h2 : byte_order) tapfd mac w tr st w' :
  req_n_wait_run h1 tapfd mac w tr st w' -> req_n_wait_run h2 tapfd mac w tr st w'.
Proof.
  destruct 1 as [? ? ? ? ? Hr0 Hr Hp Hres Hko | ? ? ? ? ? ? ? ? Hr0 Hr Hp Hres Hok Hloop];
    rewrite (build_request_host h1 h2) in Hr; rewrite (req_n_wait_obs_host h1 h2).
  - eapply qr_write_error; eassumption.
  - eapply qr_loop; try eassumption. apply (req_n_wait_loop_host h1 h2), Hloop.
Qed.

Lemma main_run_host (mode : Z) (h1 h2 : byte_order) w tr st w' :
  main_run mode h1 w tr st w' -> main_run mode h2 w tr st w'.
Proof.
  destruct 1 as [ | | | ? ? ? ? ? ? ? ? ? ? ? ? ? ? ? ? ? ? Hloop
                  | ? ? ? ? ? ? ? ? ? ? ? ? ? ? ? ? ? ? Hloop
                  | ? ? ? ? ? ? ? ? ? ? ? ? ? ? ? ? ? Hloop].
  - eapply mr_open_error; eassumption.
  - eapply mr_setiff_error; eassumption.
  - eapply mr_hwaddr_error; eassumption.
  - eapply mr_responder; try eassumption. apply (wait_n_reply_loop_host h1 h2), Hloop.
  - eapply mr_requester_halt; try eassumption. apply (req_n_wait_run_host h1 h2), Hloop.
  - eapply mr_requester_done; try eassumption. apply (req_n_wait_run_host h1 h2), Hloop.
Qed.

(** X7 -- What [main] does is independent of the byte order of the host:
    in the same environment a little-endian and a big-endian build make
    the same calls with the same bytes, print the same text and end the
    same way. *)
Theorem behaviour_is_independent_of_byte_order (mode : Z) (h1 h2 : byte_order)
        (w : world) (tr : list obs) (st : status Z) (w' : world) :
  runs_to (main_mode mode h1) w tr st w' ->
  runs_to (main_mode mode h2) w tr st w'.
Proof.
  intros Hrun. apply main_runs_inv in Hrun.
  apply (main_run_host mode h1 h2) in Hrun.
  apply main_run_runs in Hrun. exact Hrun.
Qed.

Lemma behaviour_is_independent_of_byte_order_witness :
  runs_to (main_mode 1 little_endian) (sample_world [rx_frame sample_reply])
          (out_trace (run 200 (main_mode 1 little_endian)
                          (sample_world [rx_frame sample_reply])))
          (out_status (run 200 (main_mode 1 little_endian)
                           (sample_world [rx_frame sample_reply])))
          (out_world (run 200 (main_mode 1 little_endian)
                          (sample_world [rx_frame sample_reply])))
  /\ runs_to (main_mode 1 big_endian) (sample_world [rx_frame sample_reply])
          (out_trace (run 200 (main_mode 1 little_endian)
                          (sample_world [rx_frame sample_reply])))
          (out_status (run 200 (main_mode 1 little_endian)
                           (sample_world [rx_frame sample_reply])))
          (out_world (run 200 (main_mode 1 little_endian)
                          (sample_world [rx_frame sample_reply]))).
Proof.
  assert (H : runs_to (main_mode 1 little_endian) (sample_world [rx_frame sample_reply])
          (out_trace (run 200 (main_mode 1 little_endian)
                          (sample_world [rx_frame sample_reply])))
          (out_status (run 200 (main_mode 1 little_endian)
                           (sample_world [rx_frame sample_reply])))
          (out_world (run 200 (main_mode 1 little_endian)
                          (sample_world [rx_frame sample_reply])))).
  { apply run_runs_to. vm_compute. discriminate. }
  split; [exact H|].
  exact (behaviour_is_independent_of_byte_order 1 little_endian big_endian _ _ _ _ H).
Defined.

(** ** What automatic objects held before *)

Lemma same_but_stack_pop_rx (w1 w2 : world) :
  same_but_stack w1 w2 -> same_but_stack (pop_rx w1) (pop_rx w2).
Proof.
  intros (Ho & Hi & Hr & Ht & Hc). repeat split; norm_world; try assumption.
  rewrite Hr. reflexivity.
Qed.

Lemma same_but_stack_pop_tx (w1 w2 : world) :
  same_but_stack w1 w2 -> same_but_stack (pop_tx w1) (pop_tx w2).
Proof.
  intros (Ho & Hi & Hr & Ht & Hc). repeat split; norm_world; try assumption.
  rewrite Ht. reflexivity.
Qed.

Lemma long_frames_tl (rx : list rx_item) :
  long_frames rx -> long_frames (tl rx).
Proof. intros H. destruct rx; [exact H|]. inversion H; assumption. Qed.

(** The trace of an answering turn on a frame of 42 bytes or more. *)
Lemma reply_obs_long host tapfd mac num (s s' data : list byte) (tx : list Z) :
  (ETHER_ADDR_LEN <= List.length mac)%nat ->
  (sizeof_arp_packet <= List.length data)%nat ->
  forall buf rep0 rep payload r,
    read_into (fit 1500 s) 1500 data = buf ->
    fit sizeof_arp_packet s' = rep0 ->
    synth_reply host mac buf rep0 = rep ->
    firstn sizeof_arp_packet rep = payload ->
    hd (Z.of_nat (List.length payload)) tx = r ->
    reply_obs host tapfd num (Z.of_nat (List.length (firstn 1500 data))) buf rep payload r
    = reply_obs host tapfd num (Z.of_nat (List.length (firstn 1500 data))) data
                (reply_bytes (firstn ETHER_ADDR_LEN mac) data)
                (reply_bytes (firstn ETHER_ADDR_LEN mac) data)
                (hd (Z.of_nat sizeof_arp_packet) tx).
Proof.
  intros Hmac Hd buf rep0 rep payload r Hb Hr0 Hr Hp Hres.
  assert (Hlen : List.length (reply_bytes (firstn ETHER_ADDR_LEN mac) data)
                 = sizeof_arp_packet).
  { apply reply_bytes_length; [apply firstn_length_le, Hmac | exact Hd]. }
  rewrite <- Hb, <- Hr0 in Hr. rewrite turn_payload in Hr by assumption.
  rewrite <- Hr in Hp. rewrite firstn_all_eq in Hp by exact Hlen.
  rewrite <- Hp, Hlen in Hres.
  unfold reply_obs. rewrite <- Hb, packet_obs_read_into by exact Hd.
  rewrite <- Hres, <- Hp, <- Hr. reflexivity.
Qed.

Lemma wait_n_reply_loop_stack host tapfd mac1 mac2 num w1 tr h w1' :
  wait_n_reply_loop host tapfd mac1 num w1 tr h w1' ->
  (ETHER_ADDR_LEN <= List.length mac1)%nat ->
  (ETHER_ADDR_LEN <= List.length mac2)%nat ->
  firstn ETHER_ADDR_LEN mac1 = firstn ETHER_ADDR_LEN mac2 ->
  long_frames (w_rx w1) ->
  forall w2, same_but_stack w1 w2 ->
    exists w2', wait_n_reply_loop host tapfd mac2 num w2 tr h w2' /\
                same_but_stack w1' w2'.
Proof.
  intros Hloop Hmac Hmac2 Hfirst.
  induction Hloop as [ num0 w0 Hrx | num0 w0 q Hrx
                     | num0 w0 data q buf tr0 h0 w0' Hrx Hb Hna Hloop IH
                     | num0 w0 data q buf rep0 rep payload r tr0 h0 w0'
                         Hrx Hb Hr0 Hr Hp Hres Hna Hok Hloop IH
                     | num0 w0 data q buf rep0 rep payload r
                         Hrx Hb Hr0 Hr Hp Hres Hna Hko];
    intros Hlong w2 Hsame; pose proof Hsame as (Ho & Hi & Hq & Ht & Hc).
  - exists (pop_stack w2). split; [apply wl_blocked; congruence | exact Hsame].
  - exists (pop_rx (pop_stack w2)). split.
    + eapply wl_read_error. rewrite <- Hq. exact Hrx.
    + apply same_but_stack_pop_rx, Hsame.
  - assert (Hd : (sizeof_arp_packet <= List.length data)%nat).
    { rewrite Hrx in Hlong. inversion Hlong; assumption. }
    destruct (IH (long_frames_tl _ Hlong) (pop_rx (pop_stack w2)))
      as (w2' & Hloop2 & Hsame2); [apply same_but_stack_pop_rx, Hsame|].
    exists w2'. split; [|exact Hsame2].
    eapply wl_skip; [rewrite <- Hq; exact Hrx | reflexivity | | exact Hloop2].
    rewrite <- Hb in Hna. rewrite not_arp_read_into in Hna |- * by exact Hd. exact Hna.
  - assert (Hd : (sizeof_arp_packet <= List.length data)%nat).
    { rewrite Hrx in Hlong. inversion Hlong; assumption. }
    destruct (IH (long_frames_tl _ Hlong) (pop_tx (pop_stack (pop_rx (pop_stack w2)))))
      as (w2' & Hloop2 & Hsame2);
      [apply same_but_stack_pop_tx, same_but_stack_pop_rx, Hsame|].
    exists w2'. split; [|exact Hsame2].
    rewrite (reply_obs_long host tapfd mac1 num0 _ _ data (w_tx w0) Hmac Hd
               buf rep0 rep payload r Hb Hr0 Hr Hp Hres).
    rewrite Ht, Hfirst.
    rewrite <- (reply_obs_long host tapfd mac2 num0 (hd [] (w_stack w2))
                  (hd [] (tl (w_stack w2))) data (w_tx w2) Hmac2 Hd
                  _ _ _ _ _ eq_refl eq_refl eq_refl eq_refl eq_refl).
    eapply wl_reply; try reflexivity; [rewrite <- Hq; exact Hrx | | | exact Hloop2].
    + rewrite <- Hb in Hna. rewrite not_arp_read_into in Hna |- * by exact Hd. exact Hna.
    + rewrite <- Hok, <- Hres, <- Hp, <- Hr, <- Hr0, <- Hb, <- Ht.
      rewrite !turn_payload by assumption. rewrite Hfirst. reflexivity.
  - assert (Hd : (sizeof_arp_packet <= List.length data)%nat).
    { rewrite Hrx in Hlong. inversion Hlong; assumption. }
    exists (pop_tx (pop_stack (pop_rx (pop_stack w2)))). split;
      [|apply same_but_stack_pop_tx, same_but_stack_pop_rx, Hsame].
    rewrite (reply_obs_long host tapfd mac1 num0 _ _ data (w_tx w0) Hmac Hd
               buf rep0 rep payload r Hb Hr0 Hr Hp Hres).
    rewrite Ht, Hfirst.
    rewrite <- (reply_obs_long host tapfd mac2 num0 (hd [] (w_stack w2))
                  (hd [] (tl (w_stack w2))) data (w_tx w2) Hmac2 Hd
                  _ _ _ _ _ eq_refl eq_refl eq_refl eq_refl eq_refl).
    eapply wl_write_error; try reflexivity; [rewrite <- Hq; exact Hrx | | ].
    + rewrite <- Hb in Hna. rewrite not_arp_read_into in Hna |- * by exact Hd. exact Hna.
    + rewrite <- Hko, <- Hres, <- Hp, <- Hr, <- Hr0, <- Hb, <- Ht.
      rewrite !turn_payload by assumption. rewrite Hfirst. reflexivity.
Qed.

Lemma req_n_wait_loop_stack host tapfd w1 tr st w1' :
  req_n_wait_loop host tapfd w1 tr st w1' ->
  long_frames (w_rx w1) ->
  forall w2, same_but_stack w1 w2 ->
    exists w2', req_n_wait_loop host tapfd w2 tr st w2' /\ same_but_stack w1' w2'.
Proof.
  intros Hloop.
  induction Hloop as [ w0 Hrx | w0 q Hrx
                     | w0 data q buf tr0 st0 w0' Hrx Hb Hna Hloop IH
                     | w0 data q buf Hrx Hb Hna];
    intros Hlong w2 Hsame; pose proof Hsame as (Ho & Hi & Hq & Ht & Hc).
  - exists (pop_stack w2). split; [apply ql_blocked; congruence | exact Hsame].
  - exists (pop_rx (pop_stack w2)). split.
    + eapply ql_read_error. rewrite <- Hq. exact Hrx.
    + apply same_but_stack_pop_rx, Hsame.
  - assert (Hd : (sizeof_arp_packet <= List.length data)%nat).
    { rewrite Hrx in Hlong. inversion Hlong; assumption. }
    destruct (IH (long_frames_tl _ Hlong) (pop_rx (pop_stack w2)))
      as (w2' & Hloop2 & Hsame2); [apply same_but_stack_pop_rx, Hsame|].
    exists w2'. split; [|exact Hsame2].
    eapply ql_skip; [rewrite <- Hq; exact Hrx | reflexivity | | exact Hloop2].
    rewrite <- Hb in Hna. rewrite not_arp_read_into in Hna |- * by exact Hd. exact Hna.
  - assert (Hd : (sizeof_arp_packet <= List.length data)%nat).
    { rewrite Hrx in Hlong. inversion Hlong; assumption. }
    exists (pop_rx (pop_stack w2)). split; [|apply same_but_stack_pop_rx, Hsame].
    rewrite <- Hb, packet_obs_read_into by exact Hd.
    rewrite <- (packet_obs_read_into host (fit 1500 (hd [] (w_stack w2))) data Hd).
    eapply ql_accept; [rewrite <- Hq; exact Hrx | reflexivity |].
    rewrite <- Hb in Hna. rewrite not_arp_read_into in Hna |- * by exact Hd. exact Hna.
Qed.

(** The trace of the request, whatever [req_packet] held before. *)
Lemma req_n_wait_obs_any host tapfd mac (s : list byte) (tx : list Z) :
  (ETHER_ADDR_LEN <= List.length mac)%nat ->
  forall req0 req payload r,
    fit sizeof_arp_packet s = req0 ->
    build_request host mac req0 = req ->
    firstn sizeof_arp_packet req = payload ->
    hd (Z.of_nat (List.length payload)) tx = r ->
    req_n_wait_obs host tapfd req payload r
    = req_n_wait_obs host tapfd (request_bytes (firstn ETHER_ADDR_LEN mac))
                     (request_bytes (firstn ETHER_ADDR_LEN mac))
                     (hd (Z.of_nat sizeof_arp_packet) tx)
    /\ r = hd (Z.of_nat sizeof_arp_packet) tx.
Proof.
  intros Hmac req0 req payload r Hr0 Hr Hp Hres.
  assert (Hlen : List.length (request_bytes (firstn ETHER_ADDR_LEN mac))
                 = sizeof_arp_packet).
  { apply request_bytes_length, firstn_length_le, Hmac. }
  rewrite <- Hr0 in Hr. rewrite build_request_bytes in Hr by (exact Hmac || apply fit_length).
  rewrite <- Hr in Hp. rewrite firstn_all_eq in Hp by exact Hlen.
  rewrite <- Hp, Hlen in Hres.
  rewrite <- Hres, <- Hp, <- Hr. split; reflexivity.
Qed.

Lemma req_n_wait_run_stack host tapfd mac1 mac2 w1 tr st w1' :
  req_n_wait_run host tapfd mac1 w1 tr st w1' ->
  (ETHER_ADDR_LEN <= List.length mac1)%nat ->
  (ETHER_ADDR_LEN <= List.length mac2)%nat ->
  firstn ETHER_ADDR_LEN mac1 = firstn ETHER_ADDR_LEN mac2 ->
  long_frames (w_rx w1) ->
  forall w2, same_but_stack w1 w2 ->
    exists w2', req_n_wait_run host tapfd mac2 w2 tr st w2' /\ same_but_stack w1' w2'.
Proof.
  intros Hrun Hmac Hmac2 Hfirst Hlong w2 Hsame.
  pose proof Hsame as (Ho & Hi & Hq & Ht & Hc).
  destruct Hrun as [ w0 req0 req payload r Hr0 Hr Hp Hres Hko
                   | w0 req0 req payload r tr0 st0 w0' Hr0 Hr Hp Hres Hok Hloop].
  - exists (pop_tx (pop_stack w2)). split; [|apply same_but_stack_pop_tx, Hsame].
    destruct (req_n_wait_obs_any host tapfd mac1 _ (w_tx w0) Hmac _ _ _ _ Hr0 Hr Hp Hres)
      as [-> Er].
    rewrite Ht, Hfirst.
    destruct (req_n_wait_obs_any host tapfd mac2 (hd [] (w_stack w2)) (w_tx w2) Hmac2
                _ _ _ _ eq_refl eq_refl eq_refl eq_refl) as [E2 Er2].
    rewrite <- E2.
    eapply qr_write_error; try reflexivity.
    rewrite Er2, <- Ht, <- Er. exact Hko.
  - destruct (req_n_wait_loop_stack _ _ _ _ _ _ Hloop) with (w2 := pop_tx (pop_stack w2))
      as (w2' & Hloop2 & Hsame2);
      [norm_world; exact Hlong | apply same_but_stack_pop_tx, Hsame |].
    exists w2'. split; [|exact Hsame2].
    destruct (req_n_wait_obs_any host tapfd mac1 _ (w_tx w0) Hmac _ _ _ _ Hr0 Hr Hp Hres)
      as [-> Er].
    rewrite Ht, Hfirst.
    destruct (req_n_wait_obs_any host tapfd mac2 (hd [] (w_stack w2)) (w_tx w2) Hmac2
                _ _ _ _ eq_refl eq_refl eq_refl eq_refl) as [E2 Er2].
    rewrite <- E2.
    eapply qr_loop; try reflexivity; [|exact Hloop2].
    rewrite Er2, <- Ht, <- Er. exact Hok.
Qed.

(** Every run of an engine is a run of its transition system. *)
Lemma wait_n_reply_runs_inv host tapfd mac w tr st w' :
  runs_to (wait_n_reply host tapfd mac) w tr st w' ->
  exists tr0 h,
    wait_n_reply_loop host tapfd mac 0 w tr0 h w' /\
    tr = wait_n_reply_banner :: tr0 /\ st = status_of_halt h.
Proof.
  intros Hrun.
  destruct (wait_n_reply_loop_total host tapfd mac _ 0 w eq_refl) as (tr0 & h & w0 & Hloop).
  destruct (runs_to_det _ _ _ _ _ _ _ _ Hrun (wait_n_reply_runs _ _ _ _ _ _ _ Hloop))
    as (-> & -> & ->).
  exists tr0, h. repeat split. exact Hloop.
Qed.

Lemma req_n_wait_runs_inv host tapfd mac w tr st w' :
  runs_to (req_n_wait host tapfd mac) w tr st w' ->
  req_n_wait_run host tapfd mac w tr st w'.
Proof.
  intros Hrun.
  destruct (req_n_wait_run_total host tapfd mac w) as (tr0 & st0 & w0 & Hreq).
  destruct (runs_to_det _ _ _ _ _ _ _ _ Hrun (req_n_wait_runs _ _ _ _ _ _ _ Hreq))
    as (-> & -> & ->).
  exact Hreq.
Qed.

(** X8 -- When every frame the device delivers has 42 bytes or more,
    nothing the two engines do depends on what their automatic objects
    ([pckt_buf], [rep_packet], [req_packet]) held before they were
    written, nor on what follows the six bytes of the hardware address
    in the array they are given: two environments that differ only there
    give the same calls, the same output and the same end.  ([main]'s own
    [struct ifreq] is not part of the statement.) *)
Theorem uninitialised_memory_is_never_shown
        (host : byte_order) (tapfd : Z) (mac1 mac2 : list byte) (w1 w2 : world) :
  (ETHER_ADDR_LEN <= List.length mac1)%nat ->
  (ETHER_ADDR_LEN <= List.length mac2)%nat ->
  firstn ETHER_ADDR_LEN mac1 = firstn ETHER_ADDR_LEN mac2 ->
  long_frames (w_rx w1) ->
  same_but_stack w1 w2 ->
  (forall tr st w1',
      runs_to (wait_n_reply host tapfd mac1) w1 tr st w1' ->
      exists w2', runs_to (wait_n_reply host tapfd mac2) w2 tr st w2' /\
                  same_but_stack w1' w2') /\
  (forall tr st w1',
      runs_to (req_n_wait host tapfd mac1) w1 tr st w1' ->
      exists w2', runs_to (req_n_wait host tapfd mac2) w2 tr st w2' /\
                  same_but_stack w1' w2').
Proof.
  intros Hmac1 Hmac2 Hfirst Hlong Hsame. split; intros tr st w1' Hrun.
  - apply wait_n_reply_runs_inv in Hrun. destruct Hrun as (tr0 & h & Hloop & -> & ->).
    destruct (wait_n_reply_loop_stack _ _ _ _ _ _ _ _ _ Hloop Hmac1 Hmac2 Hfirst Hlong w2 Hsame)
      as (w2' & Hloop2 & Hsame2).
    exists w2'. split; [apply wait_n_reply_runs, Hloop2 | exact Hsame2].
  - apply req_n_wait_runs_inv in Hrun.
    destruct (req_n_wait_run_stack _ _ _ _ _ _ _ _ Hrun Hmac1 Hmac2 Hfirst Hlong w2 Hsame)
      as (w2' & Hrun2 & Hsame2).
    exists w2'. split; [apply req_n_wait_runs, Hrun2 | exact Hsame2].
Qed.
Lemma uninitialised_memory_is_never_shown_witness :
  (ETHER_ADDR_LEN <= List.length sample_mac)%nat /\
  (ETHER_ADDR_LEN <= List.length (sample_mac ++ sample_short))%nat /\
  firstn ETHER_ADDR_LEN sample_mac = firstn ETHER_ADDR_LEN (sample_mac ++ sample_short) /\
  long_frames [rx_frame (fit 60 sample_ipv4); rx_frame sample_reply] /\
  same_but_stack
    (sample_world [rx_frame (fit 60 sample_ipv4); rx_frame sample_reply])
    (set_stack (sample_world [rx_frame (fit 60 sample_ipv4); rx_frame sample_reply])
               [sample_short_reply; sample_request; sample_gratuitous]) /\
  (exists w2',
      runs_to (wait_n_reply little_endian 3 (sample_mac ++ sample_short))
        (set_stack (sample_world [rx_frame (fit 60 sample_ipv4); rx_frame sample_reply])
                   [sample_short_reply; sample_request; sample_gratuitous])
        (out_trace (run 400 (wait_n_reply little_endian 3 sample_mac)
           (sample_world [rx_frame (fit 60 sample_ipv4); rx_frame sample_reply])))
        (out_status (run 400 (wait_n_reply little_endian 3 sample_mac)
           (sample_world [rx_frame (fit 60 sample_ipv4); rx_frame sample_reply])))
        w2' /\
      same_but_stack
        (out_world (run 400 (wait_n_reply little_endian 3 sample_mac)
           (sample_world [rx_frame (fit 60 sample_ipv4); rx_frame sample_reply])))
        w2') /\
  (exists w2',
      runs_to (req_n_wait little_endian 3 (sample_mac ++ sample_short))
        (set_stack (sample_world [rx_frame (fit 60 sample_ipv4); rx_frame sample_reply])
                   [sample_short_reply; sample_request; sample_gratuitous])
        (out_trace (run 400 (req_n_wait little_endian 3 sample_mac)
           (sample_world [rx_frame (fit 60 sample_ipv4); rx_frame sample_reply])))
        (out_status (run 400 (req_n_wait little_endian 3 sample_mac)
           (sample_world [rx_frame (fit 60 sample_ipv4); rx_frame sample_reply])))
        w2' /\
      same_but_stack
        (out_world (run 400 (req_n_wait little_endian 3 sample_mac)
           (sample_world [rx_frame (fit 60 sample_ipv4); rx_frame sample_reply])))
        w2').
Proof.
  assert (Hmac1 : (ETHER_ADDR_LEN <= List.length sample_mac)%nat) by (cbv; lia).
  assert (Hmac2 : (ETHER_ADDR_LEN <= List.length (sample_mac ++ sample_short))%nat)
    by (cbv; lia).
  assert (Hfirst : firstn ETHER_ADDR_LEN sample_mac
                   = firstn ETHER_ADDR_LEN (sample_mac ++ sample_short)) by reflexivity.
  assert (Hlong : long_frames [rx_frame (fit 60 sample_ipv4); rx_frame sample_reply]).
  { repeat constructor; cbv; lia. }
  assert (Hsame : same_but_stack
       (sample_world [rx_frame (fit 60 sample_ipv4); rx_frame sample_reply])
       (set_stack (sample_world [rx_frame (fit 60 sample_ipv4); rx_frame sample_reply])
                  [sample_short_reply; sample_request; sample_gratuitous])).
  { repeat split; reflexivity. }
  split; [exact Hmac1|]. split; [exact Hmac2|]. split; [exact Hfirst|].
  split; [exact Hlong|]. split; [exact Hsame|].
  destruct (uninitialised_memory_is_never_shown little_endian 3
              sample_mac (sample_mac ++ sample_short)
              (sample_world [rx_frame (fit 60 sample_ipv4); rx_frame sample_reply])
              (set_stack (sample_world [rx_frame (fit 60 sample_ipv4); rx_frame sample_reply])
                         [sample_short_reply; sample_request; sample_gratuitous])
              Hmac1 Hmac2 Hfirst Hlong Hsame) as [Hresp Hreq].
  split.
  - apply Hresp. apply run_runs_to. vm_compute. discriminate.
  - apply Hreq. apply run_runs_to. vm_compute. discriminate.
Defined.

(** ** The struct view and the printing functions *)

Lemma u8_of_hi (a b : byte) : u8_of_Z ((256 * u8_to_Z a + u8_to_Z b) / 256) = a.
Proof.
  pose proof (u8_to_Z_range a). pose proof (u8_to_Z_range b).
  replace ((256 * u8_to_Z a + u8_to_Z b) / 256) with (u8_to_Z a)
    by (Z.to_euclidean_division_equations; lia).
  apply u8_of_to.
Qed.

Lemma u8_of_lo (a b : byte) : u8_of_Z (256 * u8_to_Z a + u8_to_Z b) = b.
Proof.
  rewrite <- (u8_of_to b) at 2. apply u8_of_Z_congr.
  pose proof (u8_to_Z_range a). pose proof (u8_to_Z_range b).
  Z.to_euclidean_division_equations; lia.
Qed.

Lemma u16_of_bytes (a b : byte) : u16_range (256 * u8_to_Z a + u8_to_Z b).
Proof.
  pose proof (u8_to_Z_range a). pose proof (u8_to_Z_range b).
  unfold u16_range. lia.
Qed.

(** X9 -- The struct view loses nothing: the members read from any 42
    bytes fit their C types, and stored again member by member, on a host
    of either byte order, they give the same 42 bytes. *)
Theorem struct_view_is_lossless (reader writer : byte_order) (buf obj : list byte) :
  List.length buf = sizeof_arp_packet ->
  List.length obj = sizeof_arp_packet ->
  wf_packet (decode reader buf) /\
  encode writer (decode reader buf) obj = buf.
Proof.
  intros Hbuf Hobj. split.
  - unfold decode. rewrite !be16_load.
    cbv [ETHER_ADDR_LEN INET_ADDR_LEN sizeof_arp_packet sizeof_ethhdr sizeof_arp_hdr Nat.add] in *.
    explode buf Hbuf.
    constructor;
      cbn [pkt_ethhdr pkt_arphdr h_dest h_source h_proto arp_hd arp_pr arp_hdl
           arp_prl arp_op arp_sha arp_spa arp_dha arp_dpa];
      run_layout; try reflexivity; try apply u16_of_bytes; apply u8_to_Z_range.
  - unfold decode, encode. cbv zeta.
    cbn [pkt_ethhdr pkt_arphdr h_dest h_source h_proto arp_hd arp_pr arp_hdl
         arp_prl arp_op arp_sha arp_spa arp_dha arp_dpa].
    rewrite !be16_load, !be16_store.
    cbv [ETHER_ADDR_LEN INET_ADDR_LEN sizeof_arp_packet sizeof_ethhdr sizeof_arp_hdr Nat.add] in *.
    explode buf Hbuf. explode obj Hobj.
    run_layout.
    rewrite !u8_of_hi, !u8_of_lo, !u8_of_to. reflexivity.
Qed.

Lemma struct_view_is_lossless_witness :
  List.length sample_gratuitous = sizeof_arp_packet /\
  List.length sample_request = sizeof_arp_packet /\
  wf_packet (decode little_endian sample_gratuitous) /\
  encode big_endian (decode little_endian sample_gratuitous) sample_request
  = sample_gratuitous.
Proof.
  split; [reflexivity|]. split; [reflexivity|].
  apply (struct_view_is_lossless little_endian big_endian sample_gratuitous sample_request);
    reflexivity.
Defined.

Lemma packet_obs_encode (writer reader : byte_order) (p : arp_packet) (obj : list byte) :
  wf_packet p ->
  List.length obj = sizeof_arp_packet ->
  packet_obs reader (encode writer p obj) = packet_view p.
Proof.
  intros [Hd Hs Hp Hhd Hpr Hhdl Hprl Hop Hsha Hspa Hdha Hdpa] Hobj.
  destruct p as [[d s pr] [hd pr' hdl prl op sha spa dha dpa]].
  cbn [pkt_ethhdr pkt_arphdr h_dest h_source h_proto arp_hd arp_pr arp_hdl
       arp_prl arp_op arp_sha arp_spa arp_dha arp_dpa] in *.
  unfold packet_obs, packet_view, encode, mac_obs, mac_view, byte_arg, inet_ntop.
  cbv zeta.
  rewrite !be16_load, !be16_store.
  cbv [ETHER_ADDR_LEN INET_ADDR_LEN sizeof_arp_packet sizeof_ethhdr sizeof_arp_hdr Nat.add] in *.
  explode d Hd. explode s Hs. explode sha Hsha. explode spa Hspa.
  explode dha Hdha. explode dpa Hdpa. explode obj Hobj.
  cbn [pkt_ethhdr pkt_arphdr h_dest h_source h_proto arp_hd arp_pr arp_hdl
       arp_prl arp_op arp_sha arp_spa arp_dha arp_dpa map].
  run_layout.
  rewrite !u16_bytes by assumption.
  reflexivity.
Qed.

(** X10 -- [print_arp_packet] shows the members of the packet stored in
    the object it is given: the 16-bit members in host order whatever the
    byte order of the host that stored them and of the host that prints,
    the addresses byte by byte; it makes no other call. *)
Theorem print_arp_packet_shows_the_members
        (writer reader : byte_order) (p : arp_packet) (obj : list byte) (w : world) :
  wf_packet p ->
  List.length obj = sizeof_arp_packet ->
  runs_to (print_arp_packet reader (encode writer p obj)) w
          (packet_view p) (returned tt) w.
Proof.
  intros Hwf Hobj.
  rewrite <- (packet_obs_encode writer reader p obj Hwf Hobj).
  apply runs_print_arp_packet.
Qed.

Lemma print_arp_packet_shows_the_members_witness :
  wf_packet sample_packet /\
  List.length (fit sizeof_arp_packet []) = sizeof_arp_packet /\
  runs_to (print_arp_packet big_endian
             (encode little_endian sample_packet (fit sizeof_arp_packet [])))
          (sample_world [])
          (packet_view sample_packet) (returned tt) (sample_world []).
Proof.
  split; [exact sample_packet_wf|]. split; [reflexivity|].
  apply (print_arp_packet_shows_the_members little_endian big_endian sample_packet
           (fit sizeof_arp_packet []) (sample_world []) sample_packet_wf eq_refl).
Defined.

(** ** A requester and a responder on the same segment *)

Lemma hd_nonneg (d : Z) (l : list Z) :
  0 <= d -> Forall (fun r => 0 <= r) l -> (hd d l <? 0) = false.
Proof.
  intros Hd Hl. apply Z.ltb_ge. destruct Hl; cbn [hd]; assumption.
Qed.

(** The requester on a device that takes the request and delivers an ARP
    frame first. *)
Lemma req_n_wait_answered host tapfd mac w data q :
  (ETHER_ADDR_LEN <= List.length mac)%nat ->
  Forall (fun r => 0 <= r) (w_tx w) ->
  w_rx w = rx_frame data :: q ->
  (sizeof_arp_packet <= List.length data)%nat ->
  ethertype host data = ETH_P_ARP ->
  exists tr w',
    runs_to (req_n_wait host tapfd mac) w tr (returned tt) w' /\
    writes tr = [request_bytes (firstn ETHER_ADDR_LEN mac)] /\
    w_rx w' = q.
Proof.
  intros Hmac Htx Hrx Hd Harp.
  destruct (req_n_wait_obs_any host tapfd mac (hd [] (w_stack w)) (w_tx w) Hmac
              _ _ _ _ eq_refl eq_refl eq_refl eq_refl) as [E Er].
  eexists _, _. split; [|split].
  - apply req_n_wait_runs.
    eapply qr_loop; try reflexivity.
    + rewrite Er. apply hd_nonneg; [apply Nat2Z.is_nonneg | exact Htx].
    + eapply ql_accept; norm_world; [exact Hrx | reflexivity |].
      rewrite not_arp_read_into, not_arp_spec, Harp by exact Hd. reflexivity.
  - rewrite writes_app, E, writes_req_n_wait_obs.
    cbn [writes flat_map app]. fold (writes (packet_obs host
      (read_into (fit 1500 (hd [] (w_stack (pop_tx (pop_stack w))))) 1500 data))).
    rewrite writes_packet_obs. reflexivity.
  - norm_world. rewrite Hrx. reflexivity.
Qed.

Lemma decode_reply_to_request (host : byte_order) (LQ LR : list byte) :
  List.length LQ = ETHER_ADDR_LEN ->
  List.length LR = ETHER_ADDR_LEN ->
  decode host (reply_bytes LR (request_bytes LQ)) =
  {| pkt_ethhdr :=
       {| h_dest := LQ;
          h_source := LR;
          h_proto := ETH_P_ARP |};
     pkt_arphdr :=
       {| arp_hd := ARPHRD_ETHER;
          arp_pr := ETH_P_IP;
          arp_hdl := 6;
          arp_prl := 4;
          arp_op := ARPOP_REPLY;
          arp_sha := LR;
          arp_spa := [xac; x10; x3c; x9d];
          arp_dha := LQ;
          arp_dpa := [xac; x10; x3c; xfa] |} |}.
Proof.
  intros HQ HR. unfold decode. rewrite !be16_load.
  cbv [ETHER_ADDR_LEN] in HQ, HR. explode LQ HQ. explode LR HR.
  reflexivity.
Qed.

Lemma ethertype_request_bytes (host : byte_order) (LH : list byte) :
  List.length LH = ETHER_ADDR_LEN ->
  ethertype host (request_bytes LH) = ETH_P_ARP.
Proof.
  intros HL. unfold ethertype, decode. cbn [pkt_ethhdr h_proto]. rewrite be16_load.
  cbv [ETHER_ADDR_LEN] in HL. explode LH HL. reflexivity.
Qed.

(** X11 -- The two engines complete an exchange: on a device that
    delivers the responder's answer, the requester sends its request and
    returns; the responder that receives this request writes exactly one
    frame; and that frame is an ARP reply addressed to the requester, by
    which the responder's hardware address answers for TARGET_IP. *)
Theorem exchange_completes (hq hr : byte_order) (fdq fdr : Z) (macq macr : list byte)
        (wq wr : world) (rest : list rx_item) :
  (ETHER_ADDR_LEN <= List.length macq)%nat ->
  (ETHER_ADDR_LEN <= List.length macr)%nat ->
  Forall (fun r => 0 <= r) (w_tx wq) ->
  Forall (fun r => 0 <= r) (w_tx wr) ->
  w_rx wr = [rx_frame (request_bytes (firstn ETHER_ADDR_LEN macq))] ->
  w_rx wq = rx_frame (reply_bytes (firstn ETHER_ADDR_LEN macr)
                                  (request_bytes (firstn ETHER_ADDR_LEN macq))) :: rest ->
  (exists trq wq',
      runs_to (req_n_wait hq fdq macq) wq trq (returned tt) wq' /\
      writes trq = [request_bytes (firstn ETHER_ADDR_LEN macq)]) /\
  (exists trr wr',
      runs_to (wait_n_reply hr fdr macr) wr trr blocked wr' /\
      writes trr = [reply_bytes (firstn ETHER_ADDR_LEN macr)
                                (request_bytes (firstn ETHER_ADDR_LEN macq))]) /\
  decode hq (reply_bytes (firstn ETHER_ADDR_LEN macr)
                         (request_bytes (firstn ETHER_ADDR_LEN macq))) =
  {| pkt_ethhdr :=
       {| h_dest := firstn ETHER_ADDR_LEN macq;
          h_source := firstn ETHER_ADDR_LEN macr;
          h_proto := ETH_P_ARP |};
     pkt_arphdr :=
       {| arp_hd := ARPHRD_ETHER;
          arp_pr := ETH_P_IP;
          arp_hdl := 6;
          arp_prl := 4;
          arp_op := ARPOP_REPLY;
          arp_sha := firstn ETHER_ADDR_LEN macr;
          arp_spa := [xac; x10; x3c; x9d];
          arp_dha := firstn ETHER_ADDR_LEN macq;
          arp_dpa := [xac; x10; x3c; xfa] |} |}.
Proof.
  intros Hq Hr Htxq Htxr Hrxr Hrxq.
  assert (HLq : List.length (firstn ETHER_ADDR_LEN macq) = ETHER_ADDR_LEN)
    by (apply firstn_length_le, Hq).
  assert (HLr : List.length (firstn ETHER_ADDR_LEN macr) = ETHER_ADDR_LEN)
    by (apply firstn_length_le, Hr).
  pose proof (decode_reply_to_request hq _ _ HLq HLr) as Hdec.
  pose proof (request_bytes_length _ HLq) as Hreq.
  assert (Hrep : List.length (reply_bytes (firstn ETHER_ADDR_LEN macr)
                                (request_bytes (firstn ETHER_ADDR_LEN macq)))
                 = sizeof_arp_packet)
    by (apply reply_bytes_length; [exact HLr | rewrite Hreq; lia]).
  split; [|split; [|exact Hdec]].
  - destruct (req_n_wait_answered hq fdq macq wq _ rest Hq Htxq Hrxq) as (tr & w' & H1 & H2 & _).
    + rewrite Hrep. lia.
    + unfold ethertype. rewrite Hdec. reflexivity.
    + exists tr, w'. split; assumption.
  - destruct (wait_n_reply_loop_total hr fdr macr _ 0 wr eq_refl) as (tr & h & w' & Hloop).
    destruct (wait_n_reply_loop_answers _ _ _ _ _ _ _ _ Hloop Hr
                [request_bytes (firstn ETHER_ADDR_LEN macq)] Hrxr)
      as (-> & _ & Hw).
    + constructor; [rewrite Hreq; lia | constructor].
    + exact Htxr.
    + exists (wait_n_reply_banner :: tr), w'. split.
      * apply (wait_n_reply_runs _ _ _ _ _ _ _ Hloop).
      * cbn [writes flat_map app]. fold (writes tr). rewrite Hw.
        cbn [filter].
        rewrite (ethertype_request_bytes hr _ HLq). reflexivity.
Qed.

Lemma exchange_completes_witness :
  (ETHER_ADDR_LEN <= List.length [x11; x22; x33; x44; x55; x66])%nat /\
  (ETHER_ADDR_LEN <= List.length sample_mac)%nat /\
  (exists trq wq',
      runs_to (req_n_wait little_endian 3 [x11; x22; x33; x44; x55; x66])
              (sample_world
                 [rx_frame (reply_bytes sample_mac
                              (request_bytes [x11; x22; x33; x44; x55; x66]))])
              trq (returned tt) wq' /\
      writes trq = [request_bytes [x11; x22; x33; x44; x55; x66]]) /\
  (exists trr wr',
      runs_to (wait_n_reply big_endian 4 sample_mac)
              (sample_world [rx_frame (request_bytes [x11; x22; x33; x44; x55; x66])])
              trr blocked wr' /\
      writes trr = [reply_bytes sample_mac
                      (request_bytes [x11; x22; x33; x44; x55; x66])]) /\
  arp_sha (pkt_arphdr
             (decode little_endian
                (reply_bytes sample_mac (request_bytes [x11; x22; x33; x44; x55; x66]))))
  = sample_mac.
Proof.
  split; [cbv; lia|]. split; [cbv; lia|].
  destruct (exchange_completes little_endian big_endian 3 4
              [x11; x22; x33; x44; x55; x66] sample_mac
              (sample_world
                 [rx_frame (reply_bytes sample_mac
                              (request_bytes [x11; x22; x33; x44; x55; x66]))])
              (sample_world [rx_frame (request_bytes [x11; x22; x33; x44; x55; x66])]) [])
    as (H1 & H2 & H3).
  - cbv; lia.
  - cbv; lia.
  - constructor.
  - constructor.
  - reflexivity.
  - reflexivity.
  - split; [exact H1|]. split; [exact H2|]. reflexivity.
Defined.

(** ** The requester when no ARP frame arrives *)

Lemma req_n_wait_loop_unanswered host tapfd (frames : list (list byte)) :
  forall w,
    w_rx w = map rx_frame frames ->
    Forall (fun frame => (sizeof_ethhdr <= List.length frame)%nat /\
                         ethertype host frame <> ETH_P_ARP) frames ->
    exists tr w',
      req_n_wait_loop host tapfd w tr blocked w' /\
      reads tr = map read_size frames /\
      writes tr = [].
Proof.
  induction frames as [|frame frames IH]; intros w Hrx Hframes.
  - exists [], (pop_stack w). split; [apply ql_blocked, Hrx | split; reflexivity].
  - apply Forall_cons_iff in Hframes as [[Hlen Hne] Hframes].
    destruct (IH (pop_rx (pop_stack w))) as (tr & w' & Hloop & Hr & Hw);
      [norm_world; rewrite Hrx; reflexivity | exact Hframes |].
    exists (o_read tapfd 1500 (Z.of_nat (List.length (firstn 1500 frame))) :: tr), w'.
    split; [|split].
    + eapply ql_skip; [exact Hrx | reflexivity | | exact Hloop].
      rewrite not_arp_read_into_hdr by exact Hlen.
      apply negb_true_iff, Z.eqb_neq, Hne.
    + cbn [reads flat_map app map]. fold (reads tr). rewrite Hr. reflexivity.
    + exact Hw.
Qed.

(** X12 -- The requester has no timeout and never sends again: when the
    device takes the request and delivers only frames that are not ARP,
    the engine reads every one of them, writes nothing but the one
    request, and then waits in [read]. *)
Theorem requester_waits_without_an_answer
        (host : byte_order) (tapfd : Z) (mac : list byte) (w : world)
        (frames : list (list byte)) :
  (ETHER_ADDR_LEN <= List.length mac)%nat ->
  Forall (fun r => 0 <= r) (w_tx w) ->
  w_rx w = map rx_frame frames ->
  Forall (fun frame => (sizeof_ethhdr <= List.length frame)%nat /\
                       ethertype host frame <> ETH_P_ARP) frames ->
  exists tr w',
    runs_to (req_n_wait host tapfd mac) w tr blocked w' /\
    reads tr = map read_size frames /\
    writes tr = [request_bytes (firstn ETHER_ADDR_LEN mac)].
Proof.
  intros Hmac Htx Hrx Hframes.
  destruct (req_n_wait_obs_any host tapfd mac (hd [] (w_stack w)) (w_tx w) Hmac
              _ _ _ _ eq_refl eq_refl eq_refl eq_refl) as [E Er].
  destruct (req_n_wait_loop_unanswered host tapfd frames (pop_tx (pop_stack w)))
    as (tr & w' & Hloop & Hr & Hw); [norm_world; exact Hrx | exact Hframes |].
  eexists _, w'. split; [|split].
  - apply req_n_wait_runs.
    eapply qr_loop; try reflexivity; [|exact Hloop].
    rewrite Er. apply hd_nonneg; [apply Nat2Z.is_nonneg | exact Htx].
  - rewrite reads_app, reads_req_n_wait_obs, Hr. reflexivity.
  - rewrite writes_app, E, writes_req_n_wait_obs, Hw. reflexivity.
Qed.

Lemma requester_waits_without_an_answer_witness :
  (ETHER_ADDR_LEN <= List.length sample_mac)%nat /\
  exists tr w',
    runs_to (req_n_wait little_endian 3 sample_mac)
            (sample_world [rx_frame sample_ipv4; rx_frame (fit 60 sample_ipv4)])
            tr blocked w' /\
    reads tr = [18; 60] /\
    writes tr = [request_bytes sample_mac].
Proof.
  split; [cbv; lia|].
  apply (requester_waits_without_an_answer little_endian 3 sample_mac
           (sample_world [rx_frame sample_ipv4; rx_frame (fit 60 sample_ipv4)])
           [sample_ipv4; fit 60 sample_ipv4]).
  - cbv; lia.
  - constructor.
  - reflexivity.
  - repeat constructor; try (cbv; lia); intros H; vm_compute in H; discriminate H.
Defined.
